(** * ACL (Animation Compression Library): a shallow embedding of the
    uniformly sampled encoder, the raw animation tracks, the memory, scalar
    and quaternion helpers and the command line of the compressor tool, with
    the properties the specification states about them and further
    properties read off the code.

    Conventions.
    - A [uintN_t] is a [Z] in [0, 2^N); every C++ operation that can leave
      that range is followed by the wrap-around the language performs.
      [size_t] is 64 bits wide (the tool targets x64 Windows).
    - [double] is IEEE binary64 (the kernel's primitive floats); [float] is
      IEEE binary32 (the Standard Library's [SpecFloat] at precision 24).
    - Code that lives in headers that are not part of the sources at hand is
      either a field of the [Collaborators] class (when only its existence
      matters) or a definition whose comment starts "Modelled from the spec". *)

From Stdlib Require Import ZArith List Bool Lia QArith Qabs Qround Uint63 Floats SpecFloat.
From Stdlib Require String Ascii.
Import ListNotations.

Set Warnings "-inexact-float".
Local Open Scope Z_scope.

(* ===================================================================== *)
(** ** acl/core/memory.h *)
(* ===================================================================== *)

Module Memory.

(** Truncation to an unsigned integer of [w] bits. *)
Definition wrap (w x : Z) : Z := x mod 2 ^ w.

Definition u16 (x : Z) : Z := wrap 16 x.
Definition u32 (x : Z) : Z := wrap 32 x.
Definition size_t (x : Z) : Z := wrap 64 x.

Definition UINT32_MAX : Z := 2 ^ 32 - 1.

(** [constexpr bool is_power_of_two(size_t input)] *)
Definition is_power_of_two (input : Z) : bool :=
  negb (input =? 0) && (Z.land input (size_t (input - 1)) =? 0).

(** [is_alignment_valid<Type>(alignment)], [alignof_Type] being
    [alignof(Type)]. *)
Definition is_alignment_valid (alignof_Type alignment : Z) : bool :=
  is_power_of_two alignment && (alignof_Type <=? alignment).

(** [is_aligned_to(IntegralType value, size_t alignment)] *)
Definition is_aligned_to (value alignment : Z) : bool :=
  Z.land (size_t value) (size_t (alignment - 1)) =? 0.

(** [align_to<uint32_t>(value, alignment)]: the sum and the mask are
    computed in [size_t], the result is cast back to [uint32_t]. *)
Definition align_to (value alignment : Z) : Z :=
  u32 (Z.land (size_t (size_t value + (alignment - 1)))
              (size_t (Z.lnot (size_t (alignment - 1))))).

(** [safe_static_cast<uint32_t>(size_t input)]: [ACL_ENSURE]s that the
    input fits; [None] is the failed assertion. *)
Definition safe_static_cast_u32 (input : Z) : option Z :=
  if (0 <=? input) && (input <=? UINT32_MAX) then Some (u32 input) else None.

(** [PtrOffset32<T>]: the 32-bit offset [m_value]. *)
Definition PtrOffset32 := Z.

(** [PtrOffset(size_t value)] *)
Definition PtrOffset_of_size_t (value : Z) : option PtrOffset32 :=
  safe_static_cast_u32 value.

(** [PtrOffset(InvalidPtrOffset)] *)
Definition InvalidPtrOffset : PtrOffset32 := UINT32_MAX.

(** [PtrOffset::is_valid] *)
Definition is_valid (p : PtrOffset32) : bool := negb (p =? UINT32_MAX).

(** A request to [Allocator::allocate(size, alignment)]. *)
Record Allocation : Type := {
  allocation_size : Z;
  allocation_alignment : Z
}.

(** [allocate_type_array<T>(allocator, num_elements, args...)]: the overload
    whose trailing arguments are constructor arguments.  It allocates
    [sizeof(T) * num_elements] bytes at [alignof(T)]. *)
Definition allocate_type_array (sizeof_T alignof_T num_elements : Z) : Allocation :=
  {| allocation_size := size_t (sizeof_T * num_elements);
     allocation_alignment := alignof_T |}.

(** [allocate_type_array<T>(allocator, num_elements, size_t alignment, args...)]:
    the overload that takes an alignment, [ACL_ENSURE]s it valid ([None] is
    the failed assertion) and allocates at it. *)
Definition allocate_type_array_aligned (sizeof_T alignof_T num_elements alignment : Z)
  : option Allocation :=
  if is_alignment_valid alignof_T alignment
  then Some {| allocation_size := size_t (sizeof_T * num_elements);
               allocation_alignment := alignment |}
  else None.

(** What "aligned up to [a] bytes" means on unbounded integers. *)
Definition align_up (x a : Z) : Z := a * ((x + (a - 1)) / a).

End Memory.

Import Memory.


(* ===================================================================== *)
(** ** acl/math/scalar_64.h *)
(* ===================================================================== *)

Module Scalar64.

Local Open Scope float_scope.

(** [static constexpr double ACL_PI_64 = 3.141592654;] *)
Definition ACL_PI_64 : float := 3.141592654.

(** [std::max(a, b)] is [(a < b) ? b : a], [std::min(a, b)] is
    [(b < a) ? b : a]. *)
Definition max (left right : float) : float := if left <? right then right else left.
Definition min (left right : float) : float := if right <? left then right else left.

(** [clamp(input, min, max)] *)
Definition clamp (input min' max' : float) : float := min (max input min') max'.

(** [sqrt_reciprocal(input)] *)
Definition sqrt_reciprocal (input : float) : float := 1.0 / sqrt input.

(** [constexpr double deg2rad(double deg)] *)
Definition deg2rad (deg : float) : float := (deg / 360.0) * ACL_PI_64.

(** [scalar_near_equal(lhs, rhs, threshold)] *)
Definition scalar_near_equal (lhs rhs threshold : float) : bool :=
  abs (lhs - rhs) <? threshold.

(** The conventional conversion, [deg * pi / 180], with the same constant.
    The formula fixes no order of evaluation, and in binary64 the order
    matters: dividing first, as [deg2rad] does, or multiplying first. *)
Definition conventional_deg2rad (deg : float) : float := (deg / 180.0) * ACL_PI_64.
Definition conventional_deg2rad_multiplying_first (deg : float) : float :=
  deg * ACL_PI_64 / 180.0.

(** The exact value of a finite binary float. *)
Definition exact_value (f : spec_float) : option Q :=
  match f with
  | S754_zero _ => Some 0%Q
  | S754_finite s m e =>
      let magnitude := (inject_Z (Z.pos m) * Qpower 2 e)%Q in
      Some (if s then (- magnitude)%Q else magnitude)
  | _ => None
  end.

End Scalar64.

(* ===================================================================== *)
(** ** acl/math/quat_32.h (the scalar path, without SSE2 intrinsics) *)
(* ===================================================================== *)

Module Quat32.

(** [float]: IEEE binary32, 24 bits of precision, exponents below 128. *)
Definition f32 : Type := spec_float.
Definition f32_add : f32 -> f32 -> f32 := SFadd 24 128.
Definition f32_mul : f32 -> f32 -> f32 := SFmul 24 128.
Definition f32_div : f32 -> f32 -> f32 := SFdiv 24 128.

(** [acl::sqrt(float)] of scalar_32.h, which forwards to [std::sqrt]. *)
Definition f32_sqrt : f32 -> f32 := SFsqrt 24 128.

(** [0.0f] and [1.0f] *)
Definition f32_zero : f32 := S754_zero false.
Definition f32_one : f32 := S754_finite false 8388608 (-23).

(** [Quat_32] *)
Record Quat_32 : Type := {
  x : f32;
  y : f32;
  z : f32;
  w : f32
}.

Definition quat_set (x y z w : f32) : Quat_32 := {| x := x; y := y; z := z; w := w |}.
Definition quat_get_x (input : Quat_32) : f32 := x input.
Definition quat_get_y (input : Quat_32) : f32 := y input.
Definition quat_get_z (input : Quat_32) : f32 := z input.
Definition quat_get_w (input : Quat_32) : f32 := w input.

(** [quat_length_squared]: as written, only the first term is a product. *)
Definition quat_length_squared (input : Quat_32) : f32 :=
  f32_add
    (f32_add
       (f32_add (f32_mul (quat_get_x input) (quat_get_x input))
                (f32_add (quat_get_y input) (quat_get_y input)))
       (f32_add (quat_get_z input) (quat_get_z input)))
    (f32_add (quat_get_w input) (quat_get_w input)).

(** [quat_length] *)
Definition quat_length (input : Quat_32) : f32 := f32_sqrt (quat_length_squared input).

(** [quat_length_reciprocal] *)
Definition quat_length_reciprocal (input : Quat_32) : f32 :=
  f32_div f32_one (f32_sqrt (quat_length_squared input)).

(** [quat_normalize] *)
Definition quat_normalize (input : Quat_32) : Quat_32 :=
  let length_recip := quat_length_reciprocal input in
  quat_set (f32_mul (quat_get_x input) length_recip)
           (f32_mul (quat_get_y input) length_recip)
           (f32_mul (quat_get_z input) length_recip)
           (f32_mul (quat_get_w input) length_recip).

(** The squared Euclidean length of a quaternion with finite components,
    computed exactly. *)
Definition exact_length_squared (q : Quat_32) : option Q :=
  match Scalar64.exact_value (x q), Scalar64.exact_value (y q),
        Scalar64.exact_value (z q), Scalar64.exact_value (w q) with
  | Some a, Some b, Some c, Some d => Some (a * a + b * b + c * c + d * d)%Q
  | _, _, _, _ => None
  end.

(** The identity rotation, [(0, 0, 0, 1)]. *)
Definition quat_identity : Quat_32 := quat_set f32_zero f32_zero f32_zero f32_one.

End Quat32.

(* ===================================================================== *)
(** ** acl/compression/animation_track.h

    A [double] is a binary64 float, with the rounding, the infinities and
    the NaN of IEEE 754. *)
(* ===================================================================== *)

Module Track.

Local Open Scope float_scope.

(** [double] *)
Definition scalar : Type := float.

(** [double(n)] for a [uint32_t] [n]. *)
Definition of_uint32 (n : Z) : scalar := of_uint63 (Uint63.of_Z n).

(** [floor(input)] as an integer, for an [input] that is a number. *)
Definition floor (input : scalar) : option Z :=
  match Prim2SF input with
  | S754_zero _ => Some 0%Z
  | S754_finite s m e =>
      let m := if s then Z.neg m else Z.pos m in
      Some (if (0 <=? e)%Z then m * 2 ^ e else m / 2 ^ (- e))%Z
  | _ => None
  end.

(** [uint32_t(value)] for an integral [value]: the conversion is defined
    only when the value is in the range of the type. *)
Definition to_uint32 (value : option Z) : option Z :=
  match value with
  | Some value => if ((0 <=? value) && (value <? 2 ^ 32))%Z then Some value else None
  | None => None
  end.

(** [Quat_64] and [Vector4_64] *)
Record Quat_64 : Type := { qx : scalar; qy : scalar; qz : scalar; qw : scalar }.
Record Vector4_64 : Type := { vx : scalar; vy : scalar; vz : scalar; vw : scalar }.

(** [quat_unaligned_load] and [vector_unaligned_load3] read back what
    [set_sample] stores: consecutive doubles, x first. *)
Definition quat_unaligned_load (sample : list scalar) : Quat_64 :=
  {| qx := nth 0 sample 0; qy := nth 1 sample 0; qz := nth 2 sample 0; qw := nth 3 sample 0 |}.

Definition vector_unaligned_load3 (sample : list scalar) : Vector4_64 :=
  {| vx := nth 0 sample 0; vy := nth 1 sample 0; vz := nth 2 sample 0; vw := 0 |}.

(** Modelled from the spec: [vector_lerp] (acl/math/vector4_64.h is not among
    the sources), the "plain lerp" of section 4.8, in binary64. *)
Definition vector_lerp (start end' : Vector4_64) (alpha : scalar) : Vector4_64 :=
  {| vx := vx start + (vx end' - vx start) * alpha;
     vy := vy start + (vy end' - vy start) * alpha;
     vz := vz start + (vz end' - vz start) * alpha;
     vw := vw start + (vw end' - vw start) * alpha |}.

(** Modelled from the spec: [calculate_interpolation_keys] (acl/core/utils.h
    is not among the sources), called with the sample count, the duration
    and the sample time.  Section 4.8, steps 2 and 3: "clamp t to [0,
    duration]"; "frame0 = floor(t * sample_rate), frame1 = min(frame0 + 1,
    num_samples - 1), alpha = t * sample_rate - frame0", the sample rate
    being the one the duration was derived from, [(num_samples - 1) /
    duration]; every operation is the binary64 one, [clamp] is the one of
    scalar_64.h.  The frames are [uint32_t]; there is no result ([None])
    when the frame position is not a number in their range. *)
Definition calculate_interpolation_keys (num_samples : Z) (duration sample_time : scalar)
  : option (Z * Z * scalar) :=
  let sample_time := Scalar64.clamp sample_time 0 duration in
  let sample_rate := of_uint32 (u32 (num_samples - 1)) / duration in
  let sample_frame := sample_time * sample_rate in
  match to_uint32 (floor sample_frame) with
  | None => None
  | Some sample_frame0 =>
      let sample_frame1 := Z.min (u32 (sample_frame0 + 1)) (u32 (num_samples - 1)) in
      let interpolation_alpha := sample_frame - of_uint32 sample_frame0 in
      Some (sample_frame0, sample_frame1, interpolation_alpha)
  end.

(** [AnimationTrackType8] *)
Inductive AnimationTrackType8 : Type := Rotation | Translation.

Definition AnimationTrackType8_eqb (a b : AnimationTrackType8) : bool :=
  match a, b with
  | Rotation, Rotation | Translation, Translation => true
  | _, _ => false
  end.

(** [get_animation_track_sample_size]: the number of values per sample. *)
Definition get_animation_track_sample_size (type : AnimationTrackType8) : Z :=
  match type with
  | Rotation => 4
  | Translation => 3
  end.

(** [class AnimationTrack]; [m_allocator] is kept as whether it is not
    [nullptr], [m_sample_data] as the array it points to. *)
Record AnimationTrack : Type := {
  m_allocator : bool;
  m_sample_data : list scalar;
  m_num_samples : Z;
  m_sample_rate : Z;
  m_type : AnimationTrackType8
}.

Definition is_initialized (track : AnimationTrack) : bool := m_allocator track.
Definition get_num_samples (track : AnimationTrack) : Z := m_num_samples track.

(** [AnimationTrack()] *)
Definition AnimationTrack_default : AnimationTrack :=
  {| m_allocator := false; m_sample_data := []; m_num_samples := 0; m_sample_rate := 0;
     m_type := Rotation |}.

(** [AnimationTrack(allocator, num_samples, sample_rate, type)]; the array it
    allocates is left uninitialised by the code and holds zeros here. *)
Definition AnimationTrack_new (num_samples sample_rate : Z) (type : AnimationTrackType8)
  : AnimationTrack :=
  {| m_allocator := true;
     m_sample_data :=
       repeat 0 (Z.to_nat (size_t (num_samples * get_animation_track_sample_size type)));
     m_num_samples := num_samples;
     m_sample_rate := sample_rate;
     m_type := type |}.

Definition AnimationTranslationTrack_new (num_samples sample_rate : Z) : AnimationTrack :=
  AnimationTrack_new num_samples sample_rate Translation.

(** [&m_sample_data[sample_index * sample_size]] *)
Definition sample_at (track : AnimationTrack) (sample_index sample_size : Z) : list scalar :=
  skipn (Z.to_nat (size_t (sample_index * sample_size))) (m_sample_data track).

(** [double(m_num_samples - 1) / double(m_sample_rate)]: the subtraction is
    the [uint32_t] one, the division the binary64 one. *)
Definition track_duration (track : AnimationTrack) : scalar :=
  of_uint32 (u32 (m_num_samples track - 1)) / of_uint32 (m_sample_rate track).

(** [class AnimationRotationTrack] *)
Module AnimationRotationTrack.

(** [get_sample]; [None] is a failed [ACL_ENSURE]. *)
Definition get_sample (track : AnimationTrack) (sample_index : Z) : option Quat_64 :=
  if negb (is_initialized track) then None
  else if negb (AnimationTrackType8_eqb (m_type track) Rotation) then None
  else if negb (sample_index <? m_num_samples track)%Z then None
  else
    let sample_size := get_animation_track_sample_size (m_type track) in
    Some (quat_unaligned_load (sample_at track sample_index sample_size)).

Section Sampling.

(** [quat_lerp] of acl/math/quat_64.h, which is not among the sources. *)
Variable quat_lerp : Quat_64 -> Quat_64 -> scalar -> Quat_64.

(** [sample_track]; [None] is a failed [ACL_ENSURE], or no interpolation
    keys. *)
Definition sample_track (track : AnimationTrack) (sample_time : scalar) : option Quat_64 :=
  let track_duration := track_duration track in
  match calculate_interpolation_keys (m_num_samples track) track_duration sample_time with
  | None => None
  | Some (sample_frame0, sample_frame1, interpolation_alpha) =>
      match get_sample track sample_frame0 with
      | None => None
      | Some sample0 =>
          match get_sample track sample_frame1 with
          | None => None
          | Some sample1 => Some (quat_lerp sample0 sample1 interpolation_alpha)
          end
      end
  end.

End Sampling.

End AnimationRotationTrack.

(** [class AnimationTranslationTrack] *)
Module AnimationTranslationTrack.

(** [get_sample] *)
Definition get_sample (track : AnimationTrack) (sample_index : Z) : option Vector4_64 :=
  if negb (is_initialized track) then None
  else if negb (AnimationTrackType8_eqb (m_type track) Translation) then None
  else if negb (sample_index <? m_num_samples track)%Z then None
  else
    let sample_size := get_animation_track_sample_size (m_type track) in
    Some (vector_unaligned_load3 (sample_at track sample_index sample_size)).

(** [sample_track] *)
Definition sample_track (track : AnimationTrack) (sample_time : scalar)
  : option Vector4_64 :=
  let track_duration := track_duration track in
  match calculate_interpolation_keys (m_num_samples track) track_duration sample_time with
  | None => None
  | Some (sample_frame0, sample_frame1, interpolation_alpha) =>
      match get_sample track sample_frame0 with
      | None => None
      | Some sample0 =>
          match get_sample track sample_frame1 with
          | None => None
          | Some sample1 => Some (vector_lerp sample0 sample1 interpolation_alpha)
          end
      end
  end.

End AnimationTranslationTrack.




(** Three translation samples at 30 Hz: (0,0,0), (1,0,0), (2,0,0). *)
Definition ramp_track : AnimationTrack :=
  {| m_allocator := true;
     m_sample_data := [0; 0; 0; 1; 0; 0; 1 + 1; 0; 0];
     m_num_samples := 3;
     m_sample_rate := 30;
     m_type := Translation |}.




(** Two rotation samples at 30 Hz. *)
Definition turn_track : AnimationTrack :=
  {| m_allocator := true;
     m_sample_data := [0; 0; 0; 1; 1; 0; 0; 0];
     m_num_samples := 2;
     m_sample_rate := 30;
     m_type := Rotation |}.


End Track.

(* ===================================================================== *)
(** ** acl/algorithm/uniformly_sampled/encoder.h *)
(* ===================================================================== *)

Module Encoder.

(** The format enumerators, as [main.cpp] and [encoder.h] name them. *)
Inductive AlgorithmType8 : Type := UniformlySampled.
Inductive RotationFormat8 : Type := Quat_128 | Quat_96 | Quat_48 | Quat_32.
Inductive VectorFormat8 : Type := Vector3_96 | Vector3_48 | Vector3_32.

Definition VectorFormat8_eqb (a b : VectorFormat8) : bool :=
  match a, b with
  | Vector3_96, Vector3_96 | Vector3_48, Vector3_48 | Vector3_32, Vector3_32 => true
  | _, _ => false
  end.

(** [RangeReductionFlags8] is a [uint8_t] bit mask. *)
Definition RangeReductionFlags8 := Z.
Definition RangeReductionFlags8_None : RangeReductionFlags8 := 0.

(** [struct CompressionSettings] *)
Record CompressionSettings : Type := {
  rotation_format : RotationFormat8;
  translation_format : VectorFormat8;
  range_reduction : RangeReductionFlags8
}.

(** [CompressionSettings()] *)
Definition default_settings : CompressionSettings :=
  {| rotation_format := Quat_128;
     translation_format := Vector3_96;
     range_reduction := RangeReductionFlags8_None |}.

(** Modelled from the spec: [BoneStreams] (acl/compression/stream/track_stream.h
    is not among the sources).  Section 3: "per-bone columnar rotation &
    translation streams plus flags is_default_rotation,
    is_default_translation, is_constant_rotation, is_constant_translation".
    The sample storage itself is left abstract. *)
Record BoneStreams (Samples : Type) : Type := {
  rotations : Samples;
  translations : Samples;
  is_default_rotation : bool;
  is_default_translation : bool;
  is_constant_rotation : bool;
  is_constant_translation : bool
}.
Arguments rotations {Samples}.
Arguments translations {Samples}.
Arguments is_default_rotation {Samples}.
Arguments is_default_translation {Samples}.
Arguments is_constant_rotation {Samples}.
Arguments is_constant_translation {Samples}.

(** What [encoder.h] takes from headers that are not among the sources and
    that the specification does not pin down either: the clip and skeleton
    types with the three accessors [compress_clip] calls, two [sizeof]s, the
    values of the [RangeReductionFlags8] enumerators, and the stream passes,
    each a function from the stream array it is handed to the stream array it
    leaves behind. *)
Class Collaborators : Type := {
  AnimationClip : Type;
  RigidSkeleton : Type;
  Samples : Type;
  get_num_bones : AnimationClip -> Z;          (* uint16_t *)
  get_num_samples : AnimationClip -> Z;        (* uint32_t *)
  get_sample_rate : AnimationClip -> Z;        (* uint32_t *)
  sizeof_CompressedClip : Z;
  sizeof_FullPrecisionHeader : Z;
  Rotations : RangeReductionFlags8;
  Translations : RangeReductionFlags8;
  PerClip : RangeReductionFlags8;
  convert_clip_to_streams : AnimationClip -> list (BoneStreams Samples);
  convert_rotation_streams :
    list (BoneStreams Samples) -> Z -> RotationFormat8 -> list (BoneStreams Samples);
  compact_constant_streams :
    list (BoneStreams Samples) -> Z -> float -> list (BoneStreams Samples);
  normalize_rotation_streams :
    list (BoneStreams Samples) -> Z -> RangeReductionFlags8 -> RotationFormat8 ->
    list (BoneStreams Samples);
  normalize_translation_streams :
    list (BoneStreams Samples) -> Z -> RangeReductionFlags8 -> list (BoneStreams Samples);
  quantize_rotation_streams :
    list (BoneStreams Samples) -> Z -> RotationFormat8 -> list (BoneStreams Samples);
  quantize_translation_streams :
    list (BoneStreams Samples) -> Z -> VectorFormat8 -> list (BoneStreams Samples)
}.

(** Modelled from the spec: [ACL_TRY_ASSERT] (acl/core/error.h is not among
    the sources).  Section 7: a violated precondition "surface[s] as a
    fail-with-diagnostic ...; no artifact produced": the macro is true exactly
    when the asserted expression is false. *)
Definition ACL_TRY_ASSERT (expression : bool) : bool := negb expression.

(** Modelled from the spec: the flag tests of acl/core/enum_utils.h (not among
    the sources).  Section 3 "range reduction for translations must be
    enabled", section 4.4 "selected by ... flags": a flag is set when its bits
    meet the mask, a set of flags when all of its bits are in the mask. *)
Definition is_enum_flag_set (flags flag_to_test : Z) : bool :=
  negb (Z.land flags flag_to_test =? 0).

Definition are_enum_flags_set (flags flags_to_test : Z) : bool :=
  Z.land flags flags_to_test =? flags_to_test.

(** Modelled from the spec: the packed sample sizes of section 4.5's table,
    in bytes. *)
Definition get_packed_rotation_size (format : RotationFormat8) : Z :=
  match format with
  | Quat_128 => 16
  | Quat_96 => 12
  | Quat_48 => 6
  | Quat_32 => 4
  end.

Definition get_packed_vector_size (format : VectorFormat8) : Z :=
  match format with
  | Vector3_96 => 12
  | Vector3_48 => 6
  | Vector3_32 => 4
  end.

(** Modelled from the spec: section 4.4, a (min, extent) pair "using the
    storage shape of the chosen format at full precision": four 32-bit
    components for [Quat_128], three for the formats that drop w and for
    vectors. *)
Definition get_range_reduction_rotation_size (format : RotationFormat8) : Z :=
  match format with
  | Quat_128 => 2 * 16
  | _ => 2 * 12
  end.

Definition get_range_reduction_vector_size (format : VectorFormat8) : Z := 2 * 12.

(** Modelled from the spec: section 6, "bitset_size = ceil(num_bones * 2 / 32)
    words", two tracks per bone. *)
Definition NUM_TRACKS_PER_BONE : Z := 2.

Definition get_bitset_size (num_bits : Z) : Z := u32 (u32 (num_bits + 31) / 32).

Section Streams.
Context {S : Type}.

(** Modelled from the spec: the glossary's track kinds.  "Default dominates
    constant"; an animated track "is neither default nor constant". *)
Definition is_rotation_constant (b : BoneStreams S) : bool :=
  negb (is_default_rotation b) && is_constant_rotation b.
Definition is_translation_constant (b : BoneStreams S) : bool :=
  negb (is_default_translation b) && is_constant_translation b.
Definition is_rotation_animated (b : BoneStreams S) : bool :=
  negb (is_default_rotation b) && negb (is_constant_rotation b).
Definition is_translation_animated (b : BoneStreams S) : bool :=
  negb (is_default_translation b) && negb (is_constant_translation b).

(** The first [num_bones] entries of the stream array: what a loop
    [for (bone_index = 0; bone_index < num_bones; ++bone_index)] visits. *)
Definition bones (bone_streams : list (BoneStreams S)) (num_bones : Z) : list (BoneStreams S) :=
  firstn (Z.to_nat num_bones) bone_streams.

Definition count (p : BoneStreams S -> bool) (l : list (BoneStreams S)) : Z :=
  Z.of_nat (length (filter p l)).

(** The four [uint32_t] counters [get_num_animated_streams] fills in. *)
Record StreamCounts : Type := {
  num_constant_rotation_tracks : Z;
  num_constant_translation_tracks : Z;
  num_animated_rotation_tracks : Z;
  num_animated_translation_tracks : Z
}.

(** Modelled from the spec: [get_num_animated_streams]
    (acl/compression/stream/get_num_animated_streams.h is not among the
    sources) counts, over the bones, the tracks of each kind. *)
Definition get_num_animated_streams (bone_streams : list (BoneStreams S)) (num_bones : Z)
  : StreamCounts :=
  let bs := bones bone_streams num_bones in
  {| num_constant_rotation_tracks := u32 (count is_rotation_constant bs);
     num_constant_translation_tracks := u32 (count is_translation_constant bs);
     num_animated_rotation_tracks := u32 (count is_rotation_animated bs);
     num_animated_translation_tracks := u32 (count is_translation_animated bs) |}.

End Streams.

(** *** The effects of [compress_clip]

    A computation threads the log of the calls made so far, to the stream
    passes, the allocator and the writers, and yields what the code returns
    or the failure of an [ACL_ENSURE] (a fatal assertion: the call does not
    return). *)

Inductive Outcome (A : Type) : Type :=
| Returned (a : A)
| EnsureFailed.
Arguments Returned {A} a.
Arguments EnsureFailed {A}.

Definition Run (E A : Type) : Type := list E -> Outcome A * list E.

Definition ret {E A : Type} (a : A) : Run E A := fun log => (Returned a, log).

Definition bind {E A B : Type} (m : Run E A) (k : A -> Run E B) : Run E B :=
  fun log =>
    match m log with
    | (Returned a, log') => k a log'
    | (EnsureFailed, log') => (EnsureFailed, log')
    end.

Definition emit {E : Type} (e : E) : Run E unit := fun log => (Returned tt, log ++ [e]).

(** [ACL_ENSURE(expression, ...)] *)
Definition ACL_ENSURE {E : Type} (expression : bool) : Run E unit :=
  fun log => if expression then (Returned tt, log) else (EnsureFailed, log).

(** An [option] read as the outcome of a checked conversion. *)
Definition ensured {E A : Type} (o : option A) : Run E A :=
  fun log =>
    match o with
    | Some a => (Returned a, log)
    | None => (EnsureFailed, log)
    end.

(** A call, from an empty log. *)
Definition run {E A : Type} (m : Run E A) : Outcome A * list E := m [].

Notation "x <- m ;; k" := (bind m (fun x => k))
  (at level 61, m at next level, right associativity).
Notation "m ;;; k" := (bind m (fun _ => k))
  (at level 61, right associativity).

(** [FullPrecisionHeader], by the fields [compress_clip] assigns. *)
Record FullPrecisionHeader : Type := {
  header_num_bones : Z;
  header_rotation_format : RotationFormat8;
  header_translation_format : VectorFormat8;
  header_range_reduction : RangeReductionFlags8;
  header_num_samples : Z;
  header_sample_rate : Z;
  header_num_animated_rotation_tracks : Z;
  header_num_animated_translation_tracks : Z;
  default_tracks_bitset_offset : PtrOffset32;
  constant_tracks_bitset_offset : PtrOffset32;
  constant_track_data_offset : PtrOffset32;
  clip_range_data_offset : PtrOffset32;
  track_data_offset : PtrOffset32
}.

(** The artifact: the buffer [compress_clip] allocates, tagged with its size
    and algorithm by [make_compressed_clip], and the header written into
    it. *)
Record CompressedClip : Type := {
  buffer_size : Z;
  algorithm_type : AlgorithmType8;
  header : FullPrecisionHeader
}.

Section Compress.
Context {C : Collaborators}.

(** [BoneStreams*]: the array of per-bone streams. *)
Definition Streams : Type := list (BoneStreams Samples).

(** Modelled from the spec: [get_stream_range_data_size]
    (acl/compression/stream/write_range_data.h is not among the sources).
    Section 4.4: one (min, extent) pair per animated track of each kind whose
    flag is set. *)
Definition get_stream_range_data_size (bone_streams : Streams) (num_bones : Z)
    (range_reduction : RangeReductionFlags8)
    (rotation_format : RotationFormat8) (translation_format : VectorFormat8) : Z :=
  let rotation_size :=
    if is_enum_flag_set range_reduction Rotations
    then get_range_reduction_rotation_size rotation_format else 0 in
  let translation_size :=
    if is_enum_flag_set range_reduction Translations
    then get_range_reduction_vector_size translation_format else 0 in
  let bs := bones bone_streams num_bones in
  u32 (rotation_size * count is_rotation_animated bs
       + translation_size * count is_translation_animated bs).

(** The calls [compress_clip] makes, with the arguments it passes. *)
Inductive Call : Type :=
| call_convert_clip_to_streams (clip : AnimationClip)
| call_convert_rotation_streams (bone_streams : Streams) (num_bones : Z)
    (format : RotationFormat8)
| call_compact_constant_streams (bone_streams : Streams) (num_bones : Z)
    (threshold : float)
| call_normalize_rotation_streams (bone_streams : Streams) (num_bones : Z)
    (range_reduction : RangeReductionFlags8) (format : RotationFormat8)
| call_normalize_translation_streams (bone_streams : Streams) (num_bones : Z)
    (range_reduction : RangeReductionFlags8)
| call_quantize_rotation_streams (bone_streams : Streams) (num_bones : Z)
    (format : RotationFormat8)
| call_quantize_translation_streams (bone_streams : Streams) (num_bones : Z)
    (format : VectorFormat8)
| call_allocate (request : Allocation)
| call_write_default_track_bitset (bone_streams : Streams) (num_bones : Z)
    (offset : PtrOffset32) (bitset_size : Z)
| call_write_constant_track_bitset (bone_streams : Streams) (num_bones : Z)
    (offset : PtrOffset32) (bitset_size : Z)
| call_write_constant_track_data (bone_streams : Streams) (num_bones : Z)
    (offset : PtrOffset32) (size : Z)
| call_write_animated_track_data (bone_streams : Streams) (num_bones : Z)
    (offset : PtrOffset32) (size : Z)
| call_write_range_track_data (bone_streams : Streams) (num_bones : Z)
    (range_reduction : RangeReductionFlags8) (rotation_format : RotationFormat8)
    (translation_format : VectorFormat8) (offset : PtrOffset32) (size : Z)
| call_finalize_compressed_clip
| call_deallocate (bone_streams : Streams) (num_bones : Z).

(** A stream pass, run: the call is recorded and the streams it leaves are
    handed on. *)
Definition pass (c : Call) (result : Streams) : Run Call Streams :=
  emit c ;;; ret result.

(** [sizeof(uint8_t)] and [alignof(uint8_t)] *)
Definition sizeof_uint8_t : Z := 1.
Definition alignof_uint8_t : Z := 1.

(** [compress_clip(allocator, clip, skeleton, settings)]; [None] is
    [nullptr]. *)
Definition compress_clip (clip : AnimationClip) (skeleton : RigidSkeleton)
    (settings : CompressionSettings) : Run Call (option CompressedClip) :=
  let num_bones := get_num_bones clip in
  let num_samples := get_num_samples clip in
  if ACL_TRY_ASSERT (0 <? num_bones) then ret None else
  if ACL_TRY_ASSERT (0 <? num_samples) then ret None else
  if negb (VectorFormat8_eqb (translation_format settings) Vector3_96)
     && ACL_TRY_ASSERT (are_enum_flags_set (range_reduction settings)
                          (Z.lor PerClip Translations))
  then ret None else
  bone_streams <- pass (call_convert_clip_to_streams clip)
                       (convert_clip_to_streams clip) ;;
  bone_streams <- pass (call_convert_rotation_streams bone_streams num_bones
                          (rotation_format settings))
                       (convert_rotation_streams bone_streams num_bones
                          (rotation_format settings)) ;;
  bone_streams <- pass (call_compact_constant_streams bone_streams num_bones 0.00001%float)
                       (compact_constant_streams bone_streams num_bones 0.00001%float) ;;
  normalized <-
    (if is_enum_flag_set (range_reduction settings) PerClip then
       bone_streams <- pass (call_normalize_rotation_streams bone_streams num_bones
                               (range_reduction settings) (rotation_format settings))
                            (normalize_rotation_streams bone_streams num_bones
                               (range_reduction settings) (rotation_format settings)) ;;
       bone_streams <- pass (call_normalize_translation_streams bone_streams num_bones
                               (range_reduction settings))
                            (normalize_translation_streams bone_streams num_bones
                               (range_reduction settings)) ;;
       ret (bone_streams,
            get_stream_range_data_size bone_streams num_bones (range_reduction settings)
              (rotation_format settings) (translation_format settings))
     else ret (bone_streams, 0)) ;;
  let bone_streams := fst normalized in
  let clip_range_data_size := snd normalized in
  bone_streams <- pass (call_quantize_rotation_streams bone_streams num_bones
                          (rotation_format settings))
                       (quantize_rotation_streams bone_streams num_bones
                          (rotation_format settings)) ;;
  bone_streams <- pass (call_quantize_translation_streams bone_streams num_bones
                          (translation_format settings))
                       (quantize_translation_streams bone_streams num_bones
                          (translation_format settings)) ;;
  let counts := get_num_animated_streams bone_streams num_bones in
  let rotation_size := get_packed_rotation_size (rotation_format settings) in
  let translation_size := get_packed_vector_size (translation_format settings) in
  (* Constant translation tracks store the remaining sample with full precision *)
  let constant_translation_size := get_packed_vector_size Vector3_96 in
  let constant_data_size :=
    u32 (u32 (rotation_size * num_constant_rotation_tracks counts)
         + u32 (constant_translation_size * num_constant_translation_tracks counts)) in
  let animated_data_size :=
    u32 (u32 (rotation_size * num_animated_rotation_tracks counts)
         + u32 (translation_size * num_animated_translation_tracks counts)) in
  let animated_data_size := u32 (animated_data_size * num_samples) in
  let bitset_size := get_bitset_size (u32 (num_bones * NUM_TRACKS_PER_BONE)) in
  let buffer_size := 0 in
  let buffer_size := u32 (size_t (buffer_size + sizeof_CompressedClip)) in
  let buffer_size := u32 (size_t (buffer_size + sizeof_FullPrecisionHeader)) in
  let buffer_size := u32 (size_t (buffer_size + size_t (4 * bitset_size))) in
  let buffer_size := u32 (size_t (buffer_size + size_t (4 * bitset_size))) in
  let buffer_size := u32 (buffer_size + constant_data_size) in
  let buffer_size := align_to buffer_size 4 in
  let buffer_size := u32 (buffer_size + clip_range_data_size) in
  let buffer_size := align_to buffer_size 4 in
  let buffer_size := u32 (buffer_size + animated_data_size) in
  (* [allocate_type_array<uint8_t>(allocator, buffer_size, 16)], with
     [buffer_size] a [uint32_t] and [16] an [int]: both overloads are viable and
     convert [buffer_size] alike; the variadic one binds [16] to [int&&], an
     exact match, the other converts it to [size_t], so overload resolution
     takes the variadic one and [16] is a constructor argument (unused,
     [uint8_t] being trivially default constructible). *)
  emit (call_allocate (allocate_type_array sizeof_uint8_t alignof_uint8_t buffer_size)) ;;;
  default_tracks_bitset_offset <-
    ensured (PtrOffset_of_size_t sizeof_FullPrecisionHeader) ;;
  constant_tracks_bitset_offset <-
    ensured (PtrOffset_of_size_t
               (size_t (default_tracks_bitset_offset + size_t (4 * bitset_size)))) ;;
  constant_track_data_offset <-
    ensured (PtrOffset_of_size_t
               (size_t (constant_tracks_bitset_offset + size_t (4 * bitset_size)))) ;;
  clip_range_data_offset <-
    ensured (PtrOffset_of_size_t
               (align_to (u32 (constant_track_data_offset + constant_data_size)) 4)) ;;
  track_data_offset <-
    ensured (PtrOffset_of_size_t
               (align_to (u32 (clip_range_data_offset + clip_range_data_size)) 4)) ;;
  emit (call_write_default_track_bitset bone_streams num_bones
          default_tracks_bitset_offset bitset_size) ;;;
  emit (call_write_constant_track_bitset bone_streams num_bones
          constant_tracks_bitset_offset bitset_size) ;;;
  constant_track_data_offset <-
    (if 0 <? constant_data_size then
       emit (call_write_constant_track_data bone_streams num_bones
               constant_track_data_offset constant_data_size) ;;;
       ret constant_track_data_offset
     else ret InvalidPtrOffset) ;;
  track_data_offset <-
    (if 0 <? animated_data_size then
       emit (call_write_animated_track_data bone_streams num_bones
               track_data_offset animated_data_size) ;;;
       ret track_data_offset
     else ret InvalidPtrOffset) ;;
  clip_range_data_offset <-
    (if is_enum_flag_set (range_reduction settings) PerClip then
       emit (call_write_range_track_data bone_streams num_bones
               (range_reduction settings) (rotation_format settings)
               (translation_format settings) clip_range_data_offset
               clip_range_data_size) ;;;
       ret clip_range_data_offset
     else ret InvalidPtrOffset) ;;
  emit call_finalize_compressed_clip ;;;
  emit (call_deallocate bone_streams num_bones) ;;;
  ret (Some {| buffer_size := buffer_size;
               algorithm_type := UniformlySampled;
               header :=
                 {| header_num_bones := num_bones;
                    header_rotation_format := rotation_format settings;
                    header_translation_format := translation_format settings;
                    header_range_reduction := range_reduction settings;
                    header_num_samples := num_samples;
                    header_sample_rate := get_sample_rate clip;
                    header_num_animated_rotation_tracks :=
                      num_animated_rotation_tracks counts;
                    header_num_animated_translation_tracks :=
                      num_animated_translation_tracks counts;
                    default_tracks_bitset_offset := default_tracks_bitset_offset;
                    constant_tracks_bitset_offset := constant_tracks_bitset_offset;
                    constant_track_data_offset := constant_track_data_offset;
                    clip_range_data_offset := clip_range_data_offset;
                    track_data_offset := track_data_offset |} |}).

(** *** Vocabulary for the statements about [compress_clip] *)

(** The three guards of [compress_clip], as one condition. *)
Definition accepts (clip : AnimationClip) (settings : CompressionSettings) : bool :=
  (0 <? get_num_bones clip) && (0 <? get_num_samples clip)
  && (VectorFormat8_eqb (translation_format settings) Vector3_96
      || are_enum_flags_set (range_reduction settings) (Z.lor PerClip Translations)).

(** The calls that are stream passes. *)
Definition is_stream_pass (c : Call) : bool :=
  match c with
  | call_convert_clip_to_streams _ | call_convert_rotation_streams _ _ _
  | call_compact_constant_streams _ _ _ | call_normalize_rotation_streams _ _ _ _
  | call_normalize_translation_streams _ _ _ | call_quantize_rotation_streams _ _ _
  | call_quantize_translation_streams _ _ _ => true
  | _ => false
  end.

Definition stream_passes (trace : list Call) : list Call := filter is_stream_pass trace.

(** The allocation requests of a trace. *)
Definition allocations (trace : list Call) : list Allocation :=
  flat_map (fun c => match c with call_allocate r => [r] | _ => [] end) trace.

(** The sizes handed to the writers of the constant and of the animated
    region. *)
Definition constant_region_writes (trace : list Call) : list Z :=
  flat_map (fun c => match c with
                     | call_write_constant_track_data _ _ _ size => [size]
                     | _ => []
                     end) trace.

Definition animated_region_writes (trace : list Call) : list Z :=
  flat_map (fun c => match c with
                     | call_write_animated_track_data _ _ _ size => [size]
                     | _ => []
                     end) trace.

(** The streams each stage of the pipeline leaves behind. *)
Definition converted (clip : AnimationClip) (settings : CompressionSettings) : Streams :=
  convert_rotation_streams (convert_clip_to_streams clip) (get_num_bones clip)
    (rotation_format settings).

Definition compacted (clip : AnimationClip) (settings : CompressionSettings) : Streams :=
  compact_constant_streams (converted clip settings) (get_num_bones clip) 0.00001%float.

Definition normalized (clip : AnimationClip) (settings : CompressionSettings) : Streams :=
  if is_enum_flag_set (range_reduction settings) PerClip then
    normalize_translation_streams
      (normalize_rotation_streams (compacted clip settings) (get_num_bones clip)
         (range_reduction settings) (rotation_format settings))
      (get_num_bones clip) (range_reduction settings)
  else compacted clip settings.

Definition quantized (clip : AnimationClip) (settings : CompressionSettings) : Streams :=
  quantize_translation_streams
    (quantize_rotation_streams (normalized clip settings) (get_num_bones clip)
       (rotation_format settings))
    (get_num_bones clip) (translation_format settings).

(** The size of the range region: what [get_stream_range_data_size] finds
    after normalization, nothing when there is no per-clip range
    reduction. *)
Definition range_region_size (clip : AnimationClip) (settings : CompressionSettings) : Z :=
  if is_enum_flag_set (range_reduction settings) PerClip then
    get_stream_range_data_size (normalized clip settings) (get_num_bones clip)
      (range_reduction settings) (rotation_format settings) (translation_format settings)
  else 0.

(** The three kinds of track of the specification's glossary. *)
Inductive TrackKind : Type := Default | Constant | Animated.

Definition rotation_kind (b : BoneStreams Samples) : TrackKind :=
  if is_default_rotation b then Default
  else if is_constant_rotation b then Constant else Animated.

Definition translation_kind (b : BoneStreams Samples) : TrackKind :=
  if is_default_translation b then Default
  else if is_constant_translation b then Constant else Animated.

(** Bytes a track of kind [k] owes to the constant region (one sample of
    [sample_size] bytes when constant) and to the animated region
    ([num_samples] samples when animated). *)
Definition constant_bytes (k : TrackKind) (sample_size : Z) : Z :=
  match k with Constant => sample_size | _ => 0 end.

Definition animated_bytes (k : TrackKind) (sample_size num_samples : Z) : Z :=
  match k with Animated => num_samples * sample_size | _ => 0 end.

Definition sum_over (f : BoneStreams Samples -> Z) (l : Streams) : Z :=
  fold_right (fun b acc => f b + acc) 0 l.

(** The constant region, track by track: rotations at the chosen rotation
    width, translations at 12 bytes whatever the translation format. *)
Definition constant_region_size (clip : AnimationClip) (settings : CompressionSettings) : Z :=
  sum_over (fun b =>
              constant_bytes (rotation_kind b)
                (get_packed_rotation_size (rotation_format settings))
              + constant_bytes (translation_kind b) 12)
           (bones (quantized clip settings) (get_num_bones clip)).

(** The animated region, track by track. *)
Definition animated_region_size (clip : AnimationClip) (settings : CompressionSettings) : Z :=
  sum_over (fun b =>
              animated_bytes (rotation_kind b)
                (get_packed_rotation_size (rotation_format settings))
                (get_num_samples clip)
              + animated_bytes (translation_kind b)
                  (get_packed_vector_size (translation_format settings))
                  (get_num_samples clip))
           (bones (quantized clip settings) (get_num_bones clip)).

(** The words of one bitset. *)
Definition bitset_words (clip : AnimationClip) : Z :=
  get_bitset_size (u32 (get_num_bones clip * NUM_TRACKS_PER_BONE)).

(** The buffer size of section 4.6, on unbounded integers. *)
Definition artifact_size (clip : AnimationClip) (settings : CompressionSettings) : Z :=
  align_up
    (align_up
       (sizeof_CompressedClip + sizeof_FullPrecisionHeader
        + 4 * bitset_words clip + 4 * bitset_words clip
        + constant_region_size clip settings) 4
     + range_region_size clip settings) 4
  + animated_region_size clip settings.

End Compress.

(** *** A small instance, for concrete runs

    A clip is given by the streams it converts to, already classified; the
    passes leave the streams as they are.  The preamble is 16 bytes (section
    6) and the header 44. *)
Module Demo.

Record Clip : Type := {
  clip_streams : list (BoneStreams unit);
  clip_num_samples : Z;
  clip_sample_rate : Z
}.

#[export] Instance collaborators : Collaborators := {|
  AnimationClip := Clip;
  RigidSkeleton := unit;
  Samples := unit;
  get_num_bones := fun c => Z.of_nat (length (clip_streams c));
  get_num_samples := clip_num_samples;
  get_sample_rate := clip_sample_rate;
  sizeof_CompressedClip := 16;
  sizeof_FullPrecisionHeader := 44;
  Rotations := 1;
  Translations := 2;
  PerClip := 16;
  convert_clip_to_streams := clip_streams;
  convert_rotation_streams := fun s _ _ => s;
  compact_constant_streams := fun s _ _ => s;
  normalize_rotation_streams := fun s _ _ _ => s;
  normalize_translation_streams := fun s _ _ => s;
  quantize_rotation_streams := fun s _ _ => s;
  quantize_translation_streams := fun s _ _ => s
|}.

Definition bone (rotation translation : TrackKind) : BoneStreams unit :=
  {| rotations := tt;
     translations := tt;
     is_default_rotation := match rotation with Default => true | _ => false end;
     is_default_translation := match translation with Default => true | _ => false end;
     is_constant_rotation := match rotation with Animated => false | _ => true end;
     is_constant_translation := match translation with Animated => false | _ => true end |}.

(** One bone, two samples, both tracks default (scenario 1 of section 8). *)
Definition identity_clip : Clip :=
  {| clip_streams := [bone Default Default]; clip_num_samples := 2; clip_sample_rate := 30 |}.

(** Two bones, three samples: a constant rotation, an animated rotation and
    two animated translations. *)
Definition walk_clip : Clip :=
  {| clip_streams := [bone Constant Animated; bone Animated Animated];
     clip_num_samples := 3; clip_sample_rate := 30 |}.

(** A clip without bones, and one without samples. *)
Definition no_bones_clip : Clip :=
  {| clip_streams := []; clip_num_samples := 2; clip_sample_rate := 30 |}.

Definition no_samples_clip : Clip :=
  {| clip_streams := [bone Animated Animated]; clip_num_samples := 0; clip_sample_rate := 30 |}.

Definition settings (r : RotationFormat8) (t : VectorFormat8) (flags : Z)
  : CompressionSettings :=
  {| rotation_format := r; translation_format := t; range_reduction := flags |}.

(** Scenario 6 of section 8: quantized translations without range
    reduction. *)
Definition unreduced_settings : CompressionSettings := settings Quat_128 Vector3_48 0.

(** [Quat_128], [Vector3_48], [PerClip | Translations]. *)
Definition walk_settings : CompressionSettings := settings Quat_128 Vector3_48 18.

(** [Quat_128], [Vector3_96], [PerClip | Rotations]. *)
Definition per_clip_settings : CompressionSettings := settings Quat_128 Vector3_96 17.

(** What [compress_clip] returns for [walk_clip] under [walk_settings]. *)
Definition walk_artifact : CompressedClip :=
  {| buffer_size := 216;
     algorithm_type := UniformlySampled;
     header :=
       {| header_num_bones := 2;
          header_rotation_format := Quat_128;
          header_translation_format := Vector3_48;
          header_range_reduction := 18;
          header_num_samples := 3;
          header_sample_rate := 30;
          header_num_animated_rotation_tracks := 1;
          header_num_animated_translation_tracks := 2;
          default_tracks_bitset_offset := 44;
          constant_tracks_bitset_offset := 48;
          constant_track_data_offset := 52;
          clip_range_data_offset := 68;
          track_data_offset := 116 |} |}.

(** What it returns for [identity_clip] under [per_clip_settings]. *)
Definition identity_artifact : CompressedClip :=
  {| buffer_size := 68;
     algorithm_type := UniformlySampled;
     header :=
       {| header_num_bones := 1;
          header_rotation_format := Quat_128;
          header_translation_format := Vector3_96;
          header_range_reduction := 17;
          header_num_samples := 2;
          header_sample_rate := 30;
          header_num_animated_rotation_tracks := 0;
          header_num_animated_translation_tracks := 0;
          default_tracks_bitset_offset := 44;
          constant_tracks_bitset_offset := 48;
          constant_track_data_offset := InvalidPtrOffset;
          clip_range_data_offset := 52;
          track_data_offset := InvalidPtrOffset |} |}.

(** One bone whose rotation track is animated, with [2^28] samples: at 16
    bytes a sample the animated data is [2^32] bytes long. *)
Definition long_clip : Clip :=
  {| clip_streams := [bone Animated Default];
     clip_num_samples := 268435456; clip_sample_rate := 30 |}.

(** What [compress_clip] returns for [long_clip] under the default
    settings: 68 bytes, and no animated region. *)
Definition long_artifact : CompressedClip :=
  {| buffer_size := 68;
     algorithm_type := UniformlySampled;
     header :=
       {| header_num_bones := 1;
          header_rotation_format := Quat_128;
          header_translation_format := Vector3_96;
          header_range_reduction := 0;
          header_num_samples := 268435456;
          header_sample_rate := 30;
          header_num_animated_rotation_tracks := 1;
          header_num_animated_translation_tracks := 0;
          default_tracks_bitset_offset := 44;
          constant_tracks_bitset_offset := 48;
          constant_track_data_offset := InvalidPtrOffset;
          clip_range_data_offset := InvalidPtrOffset;
          track_data_offset := InvalidPtrOffset |} |}.

End Demo.

End Encoder.

(* ===================================================================== *)
(** ** The decoder

    Modelled from the spec: [decompress_pose] and [decompress_bone] (the
    decoder, acl/algorithm/uniformly_sampled/decoder.h, is not among the
    sources; [main.cpp] only calls it).  Sections 4.6 to 4.8 and 6: the
    payload is located through the header's offsets; the bitsets are packed
    32-bit little-endian words with bit index [bone_index * 2 + k], [k = 0]
    for the rotation and [k = 1] for the translation; the constant region is
    bone-major, rotation then translation, skipping defaults, a constant
    translation taking 12 bytes; the range region is bone-major, one (min,
    extent) pair per animated track whose kind is range reduced; the animated
    region is frame-major within bone.  [decompress_pose] decodes every bone
    in turn and hands it to the writer; [decompress_bone] does "the same math
    but only for bone b", after a seek that steps over the bones before it. *)
(* ===================================================================== *)

Module Decoder.

Import Encoder.

(** The working-precision values and the arithmetic on them, which the
    specification leaves to the math headers: the time-to-keys computation
    of section 4.8, steps 1 to 3, the dequantization of a packed sample, the
    inverse of the range reduction given the stored (min, extent) pair, and
    the two interpolations. *)
Class Numerics : Type := {
  Quat : Type;
  Vec3 : Type;
  Time : Type;
  Alpha : Type;
  quat_identity : Quat;
  vector_zero : Vec3;
  interpolation_keys : Z -> Z -> Time -> Z * Z * Alpha;
  unpack_rotation : RotationFormat8 -> list Z -> Quat;
  unpack_vector : VectorFormat8 -> list Z -> Vec3;
  expand_rotation : list Z -> Quat -> Quat;
  expand_vector : list Z -> Vec3 -> Vec3;
  interpolate_rotation : Quat -> Quat -> Alpha -> Quat;
  interpolate_translation : Vec3 -> Vec3 -> Alpha -> Vec3
}.

(** A validated artifact: its header and the bytes that start at the
    header. *)
Record Artifact : Type := {
  artifact_header : FullPrecisionHeader;
  payload : list Z
}.

(** [size] bytes at [offset]. *)
Definition slice (data : list Z) (offset size : Z) : list Z :=
  firstn (Z.to_nat size) (skipn (Z.to_nat offset) data).

(** The region an offset of the header points to; nothing at the
    sentinel. *)
Definition region (a : Artifact) (offset : PtrOffset32) : list Z :=
  if is_valid offset then skipn (Z.to_nat offset) (payload a) else [].

(** A little-endian 32-bit word. *)
Definition read_u32 (bytes : list Z) : Z :=
  nth 0 bytes 0 + Z.shiftl (nth 1 bytes 0) 8 + Z.shiftl (nth 2 bytes 0) 16
  + Z.shiftl (nth 3 bytes 0) 24.

(** Bit [bit_index] of a bitset. *)
Definition bitset_test (bitset : list Z) (bit_index : Z) : bool :=
  Z.testbit (read_u32 (slice bitset (4 * (bit_index / 32)) 4)) (bit_index mod 32).

(** The kind of a bone's track, read off the two bitsets. *)
Definition track_kind (a : Artifact) (bone k : Z) : TrackKind :=
  let h := artifact_header a in
  if bitset_test (region a (default_tracks_bitset_offset h)) (bone * 2 + k) then Default
  else if bitset_test (region a (constant_tracks_bitset_offset h)) (bone * 2 + k)
       then Constant else Animated.

(** Where the next constant sample, range pair and animated track start,
    each within its region. *)
Record Cursor : Type := {
  constant_cursor : Z;
  range_cursor : Z;
  animated_cursor : Z
}.

Definition start : Cursor :=
  {| constant_cursor := 0; range_cursor := 0; animated_cursor := 0 |}.

Section Decode.
Context {C : Collaborators} {N : Numerics}.

Definition rotations_reduced (h : FullPrecisionHeader) : bool :=
  is_enum_flag_set (header_range_reduction h) PerClip
  && is_enum_flag_set (header_range_reduction h) Rotations.

Definition translations_reduced (h : FullPrecisionHeader) : bool :=
  is_enum_flag_set (header_range_reduction h) PerClip
  && is_enum_flag_set (header_range_reduction h) Translations.

(** The rotation of one bone at the keys [(frame0, frame1, alpha)], and
    the cursor past its data. *)
Definition decode_rotation (a : Artifact) (keys : Z * Z * Alpha) (bone : Z) (c : Cursor)
  : Quat * Cursor :=
  let h := artifact_header a in
  let '(frame0, frame1, alpha) := keys in
  let size := get_packed_rotation_size (header_rotation_format h) in
  match track_kind a bone 0 with
  | Default => (quat_identity, c)
  | Constant =>
      (unpack_rotation (header_rotation_format h)
         (slice (region a (constant_track_data_offset h)) (constant_cursor c) size),
       {| constant_cursor := constant_cursor c + size;
          range_cursor := range_cursor c;
          animated_cursor := animated_cursor c |})
  | Animated =>
      let track := region a (track_data_offset h) in
      let sample frame :=
        unpack_rotation (header_rotation_format h)
          (slice track (animated_cursor c + frame * size) size) in
      let range_size := get_range_reduction_rotation_size (header_rotation_format h) in
      let range := slice (region a (clip_range_data_offset h)) (range_cursor c) range_size in
      let restore q := if rotations_reduced h then expand_rotation range q else q in
      (interpolate_rotation (restore (sample frame0)) (restore (sample frame1)) alpha,
       {| constant_cursor := constant_cursor c;
          range_cursor := if rotations_reduced h then range_cursor c + range_size
                          else range_cursor c;
          animated_cursor := animated_cursor c + header_num_samples h * size |})
  end.

(** The translation of one bone, likewise; a constant translation is stored
    as [Vector3_96]. *)
Definition decode_translation (a : Artifact) (keys : Z * Z * Alpha) (bone : Z) (c : Cursor)
  : Vec3 * Cursor :=
  let h := artifact_header a in
  let '(frame0, frame1, alpha) := keys in
  let size := get_packed_vector_size (header_translation_format h) in
  match track_kind a bone 1 with
  | Default => (vector_zero, c)
  | Constant =>
      let constant_size := get_packed_vector_size Vector3_96 in
      (unpack_vector Vector3_96
         (slice (region a (constant_track_data_offset h)) (constant_cursor c) constant_size),
       {| constant_cursor := constant_cursor c + constant_size;
          range_cursor := range_cursor c;
          animated_cursor := animated_cursor c |})
  | Animated =>
      let track := region a (track_data_offset h) in
      let sample frame :=
        unpack_vector (header_translation_format h)
          (slice track (animated_cursor c + frame * size) size) in
      let range_size := get_range_reduction_vector_size (header_translation_format h) in
      let range := slice (region a (clip_range_data_offset h)) (range_cursor c) range_size in
      let restore v := if translations_reduced h then expand_vector range v else v in
      (interpolate_translation (restore (sample frame0)) (restore (sample frame1)) alpha,
       {| constant_cursor := constant_cursor c;
          range_cursor := if translations_reduced h then range_cursor c + range_size
                          else range_cursor c;
          animated_cursor := animated_cursor c + header_num_samples h * size |})
  end.

(** The seek of [decompress_bone] steps over a bone by the sizes of its
    tracks alone. *)
Definition skip_bone (a : Artifact) (bone : Z) (c : Cursor) : Cursor :=
  let h := artifact_header a in
  let rotation_size := get_packed_rotation_size (header_rotation_format h) in
  let translation_size := get_packed_vector_size (header_translation_format h) in
  let rotation := track_kind a bone 0 in
  let translation := track_kind a bone 1 in
  {| constant_cursor :=
       constant_cursor c + constant_bytes rotation rotation_size
       + constant_bytes translation 12;
     range_cursor :=
       range_cursor c
       + (if rotations_reduced h
          then match rotation with
               | Animated => get_range_reduction_rotation_size (header_rotation_format h)
               | _ => 0
               end
          else 0)
       + (if translations_reduced h
          then match translation with
               | Animated => get_range_reduction_vector_size (header_translation_format h)
               | _ => 0
               end
          else 0);
     animated_cursor :=
       animated_cursor c
       + animated_bytes rotation rotation_size (header_num_samples h)
       + animated_bytes translation translation_size (header_num_samples h) |}.

Fixpoint seek (a : Artifact) (count : nat) (bone : Z) (c : Cursor) : Cursor :=
  match count with
  | O => c
  | S count' => seek a count' (bone + 1) (skip_bone a bone c)
  end.

(** The calls of the writer, section 6. *)
Inductive WriterCall : Type :=
| write_bone_rotation (bone_index : Z) (rotation : Quat)
| write_bone_translation (bone_index : Z) (translation : Vec3).

(** The loop of [decompress_pose] over [count] bones from [bone] on. *)
Fixpoint pose_loop (a : Artifact) (keys : Z * Z * Alpha) (count : nat) (bone : Z) (c : Cursor)
  : list WriterCall :=
  match count with
  | O => []
  | S count' =>
      let rotation := decode_rotation a keys bone c in
      let translation := decode_translation a keys bone (snd rotation) in
      write_bone_rotation bone (fst rotation)
      :: write_bone_translation bone (fst translation)
      :: pose_loop a keys count' (bone + 1) (snd translation)
  end.

(** [decompress_pose(blob, t, writer)]: the calls it makes to the writer. *)
Definition decompress_pose (a : Artifact) (t : Time) : list WriterCall :=
  let h := artifact_header a in
  let keys := interpolation_keys (header_num_samples h) (header_sample_rate h) t in
  pose_loop a keys (Z.to_nat (header_num_bones h)) 0 start.

(** [decompress_bone(blob, t, b, &q, &v)] *)
Definition decompress_bone (a : Artifact) (t : Time) (sample_bone_index : Z) : Quat * Vec3 :=
  let h := artifact_header a in
  let keys := interpolation_keys (header_num_samples h) (header_sample_rate h) t in
  let c := seek a (Z.to_nat sample_bone_index) 0 start in
  let rotation := decode_rotation a keys sample_bone_index c in
  let translation := decode_translation a keys sample_bone_index (snd rotation) in
  (fst rotation, fst translation).

(** A pose buffer, one transform per bone, and the writer that fills it:
    like [OutputWriterImpl] of [main.cpp], it [ACL_ENSURE]s the bone index
    ([None] is the failed assertion) and stores what it is given in
    [m_transforms[bone_index]]. *)
Definition Transform : Type := (Quat * Vec3)%type.

Fixpoint store (pose : list Transform) (index : nat) (f : Transform -> Transform)
  : list Transform :=
  match pose, index with
  | [], _ => []
  | x :: rest, O => f x :: rest
  | x :: rest, S index' => x :: store rest index' f
  end.

Definition write (pose : list Transform) (call : WriterCall) : option (list Transform) :=
  match call with
  | write_bone_rotation bone_index rotation =>
      if (0 <=? bone_index) && (bone_index <? Z.of_nat (length pose))
      then Some (store pose (Z.to_nat bone_index) (fun x => (rotation, snd x)))
      else None
  | write_bone_translation bone_index translation =>
      if (0 <=? bone_index) && (bone_index <? Z.of_nat (length pose))
      then Some (store pose (Z.to_nat bone_index) (fun x => (fst x, translation)))
      else None
  end.

Fixpoint write_all (pose : list Transform) (calls : list WriterCall)
  : option (list Transform) :=
  match calls with
  | [] => Some pose
  | call :: rest =>
      match write pose call with
      | Some pose' => write_all pose' rest
      | None => None
      end
  end.

(** What bone [bone] decodes to when its data starts at [c]. *)
Definition decode_bone (a : Artifact) (keys : Z * Z * Alpha) (bone : Z) (c : Cursor)
  : Transform :=
  let rotation := decode_rotation a keys bone c in
  (fst rotation, fst (decode_translation a keys bone (snd rotation))).

(** The pose [decompress_pose] leaves in a buffer of [num_bones]
    transforms. *)
Definition decompressed_pose (a : Artifact) (t : Time) : option (list Transform) :=
  write_all (repeat (quat_identity, vector_zero)
               (Z.to_nat (header_num_bones (artifact_header a))))
            (decompress_pose a t).

End Decode.

(** *** A small instance, for concrete runs

    Samples stay the bytes they are stored as; restoring the range prefixes
    the (min, extent) bytes; the keys are frames [t] and [t + 1], capped at
    the last frame, with alpha 0; interpolating at alpha 0 keeps the first
    sample. *)
Module Demo.

#[export] Instance numerics : Numerics := {|
  Quat := list Z;
  Vec3 := list Z;
  Time := Z;
  Alpha := Z;
  quat_identity := [];
  vector_zero := [];
  interpolation_keys :=
    fun num_samples _ t =>
      (Z.min t (num_samples - 1), Z.min (t + 1) (num_samples - 1), 0);
  unpack_rotation := fun _ bytes => bytes;
  unpack_vector := fun _ bytes => bytes;
  expand_rotation := fun range q => range ++ q;
  expand_vector := fun range v => range ++ v;
  interpolate_rotation := fun q0 q1 alpha => if alpha =? 0 then q0 else q1;
  interpolate_translation := fun v0 v1 alpha => if alpha =? 0 then v0 else v1
|}.

(** An artifact with the header [compress_clip] gives the two-bone clip of
    [Encoder.Demo]: bone 0 has a constant rotation, every other track is
    animated.  Byte [i] of the payload is [i], but for the two bitset
    words. *)
Definition walk_blob : Artifact :=
  {| artifact_header := header Encoder.Demo.walk_artifact;
     payload :=
       map Z.of_nat (seq 0 44) ++ [0; 0; 0; 0] ++ [1; 0; 0; 0]
       ++ map Z.of_nat (seq 52 148) |}.

End Demo.

End Decoder.

(* ===================================================================== *)

(* ===================================================================== *)
(** ** acl/core/memory.h, continued: pointers, offsets and releases

    A pointer is its address, a [uintptr_t] of the width of [size_t];
    [nullptr] is the address 0. *)
(* ===================================================================== *)

Module Pointers.

Definition nullptr : Z := 0.

(** [safe_ptr_cast<DestPtrType>(input)], for a pointer and for an integral
    input alike: [ACL_ENSURE]s that the address is aligned to
    [alignof(DestPtrType)]; [None] is the failed assertion. *)
Definition safe_ptr_cast (alignof_Dest input : Z) : option Z :=
  if is_aligned_to input alignof_Dest then Some input else None.

(** [add_offset_to_ptr<OutputPtrType>(ptr, offset)]: the sum is a
    [uintptr_t]. *)
Definition add_offset_to_ptr (alignof_Output ptr offset : Z) : option Z :=
  safe_ptr_cast alignof_Output (size_t (ptr + offset)).

(** [PtrOffset::add_to(ptr)]: [ACL_ENSURE]s that the offset is valid. *)
Definition add_to (alignof_Data : Z) (offset : PtrOffset32) (ptr : Z) : option Z :=
  if is_valid offset then add_offset_to_ptr alignof_Data ptr offset else None.

(** [PtrOffset::safe_add_to(ptr)]: [nullptr] for an invalid offset. *)
Definition safe_add_to (alignof_Data : Z) (offset : PtrOffset32) (ptr : Z) : option Z :=
  if is_valid offset then add_offset_to_ptr alignof_Data ptr offset else Some nullptr.

(** [allocate_type<T>(allocator, args...)] and
    [allocate_type<T>(allocator, alignment, args...)] *)
Definition allocate_type (sizeof_T alignof_T : Z) : Allocation :=
  {| allocation_size := sizeof_T; allocation_alignment := alignof_T |}.

Definition allocate_type_aligned (sizeof_T alignof_T alignment : Z) : option Allocation :=
  if is_alignment_valid alignof_T alignment
  then Some {| allocation_size := sizeof_T; allocation_alignment := alignment |}
  else None.

(** A call to [Allocator::deallocate(ptr, size)]. *)
Record Deallocation : Type := {
  deallocation_ptr : Z;
  deallocation_size : Z
}.

(** [deallocate_type<T>(allocator, ptr)]: no call for [nullptr]. *)
Definition deallocate_type (sizeof_T ptr : Z) : list Deallocation :=
  if ptr =? nullptr then []
  else [{| deallocation_ptr := ptr; deallocation_size := sizeof_T |}].

(** [deallocate_type_array<T>(allocator, elements, num_elements)] *)
Definition deallocate_type_array (sizeof_T elements num_elements : Z) : list Deallocation :=
  if elements =? nullptr then []
  else [{| deallocation_ptr := elements;
           deallocation_size := size_t (sizeof_T * num_elements) |}].

(** [Deleter<T>::operator()(ptr)] *)
Definition Deleter (sizeof_T ptr : Z) : list Deallocation :=
  if ptr =? nullptr then []
  else [{| deallocation_ptr := ptr; deallocation_size := sizeof_T |}].

(** [make_unique_array<T>(allocator, num_elements, args...)]: the request it
    makes, and what the [unique_ptr] it returns does to the pointer [ptr] the
    allocator gave when it is destroyed. *)
Definition make_unique_array (sizeof_T alignof_T num_elements : Z) : Allocation :=
  allocate_type_array sizeof_T alignof_T num_elements.

Definition make_unique_array_release (sizeof_T ptr : Z) : list Deallocation :=
  Deleter sizeof_T ptr.

End Pointers.

(* ===================================================================== *)
(** ** acl/compression/animation_track.h, continued: writing samples *)
(* ===================================================================== *)

Module TrackWrites.
Import Track.

(** [array[index] = value]; the array is left alone when the index is not in
    it (the code would write past the end). *)
Fixpoint assign (array : list scalar) (index : nat) (value : scalar) : list scalar :=
  match array, index with
  | [], _ => []
  | _ :: rest, O => value :: rest
  | first :: rest, S index => first :: assign rest index value
  end.

Definition with_sample_data (track : AnimationTrack) (data : list scalar) : AnimationTrack :=
  {| m_allocator := m_allocator track;
     m_sample_data := data;
     m_num_samples := m_num_samples track;
     m_sample_rate := m_sample_rate track;
     m_type := m_type track |}.

(** [class AnimationRotationTrack] *)
Module AnimationRotationTrack.
Section Checks.

(** [quat_is_valid] and [quat_is_normalized] of acl/math/quat_64.h, which is
    not among the sources. *)
Variables quat_is_valid quat_is_normalized : Quat_64 -> bool.

(** [set_sample]; [None] is a failed [ACL_ENSURE]. *)
Definition set_sample (track : AnimationTrack) (sample_index : Z) (rotation : Quat_64)
  : option AnimationTrack :=
  if negb (is_initialized track) then None
  else if negb (sample_index <? m_num_samples track) then None
  else if negb (quat_is_valid rotation) then None
  else if negb (quat_is_normalized rotation) then None
  else
    let sample_size := get_animation_track_sample_size (m_type track) in
    if negb (sample_size =? 4)%Z then None
    else
      let sample := Z.to_nat (size_t (sample_index * sample_size)) in
      let data := m_sample_data track in
      let data := assign data (sample + 0) (qx rotation) in
      let data := assign data (sample + 1) (qy rotation) in
      let data := assign data (sample + 2) (qz rotation) in
      let data := assign data (sample + 3) (qw rotation) in
      Some (with_sample_data track data).

End Checks.
End AnimationRotationTrack.

(** [class AnimationTranslationTrack] *)
Module AnimationTranslationTrack.
Section Checks.

(** [vector_is_valid3] of acl/math/vector4_64.h, which is not among the
    sources. *)
Variable vector_is_valid3 : Vector4_64 -> bool.

(** [set_sample] *)
Definition set_sample (track : AnimationTrack) (sample_index : Z) (translation : Vector4_64)
  : option AnimationTrack :=
  if negb (is_initialized track) then None
  else if negb (sample_index <? m_num_samples track) then None
  else if negb (vector_is_valid3 translation) then None
  else
    let sample_size := get_animation_track_sample_size (m_type track) in
    if negb (sample_size =? 3)%Z then None
    else
      let sample := Z.to_nat (size_t (sample_index * sample_size)) in
      let data := m_sample_data track in
      let data := assign data (sample + 0) (vx translation) in
      let data := assign data (sample + 1) (vy translation) in
      let data := assign data (sample + 2) (vz translation) in
      Some (with_sample_data track data).

End Checks.
End AnimationTranslationTrack.

(** The array of a track holds [m_num_samples] samples of the size of its
    type, as the constructor allocates it. *)
Definition holds_its_samples (track : AnimationTrack) : Prop :=
  (0 <= m_num_samples track < 2 ^ 32)%Z
  /\ List.length (m_sample_data track)
     = Z.to_nat (m_num_samples track * get_animation_track_sample_size (m_type track)).

(** For concrete runs: checks that pass every value, and a rotation to
    store. *)
Definition every_quat (rotation : Quat_64) : bool := true.
Definition every_vector (translation : Vector4_64) : bool := true.
Definition quarter_turn : Quat_64 :=
  {| qx := 0%float; qy := 1%float; qz := 0%float; qw := 0%float |}.
Definition step_aside : Vector4_64 :=
  {| vx := 1%float; vy := 1%float; vz := 0%float; vw := 0%float |}.

End TrackWrites.

(* ===================================================================== *)
(** ** acl/compression/animation_track.h, continued: ownership

    Here a track is the object itself: [m_allocator] and [m_sample_data]
    are the pointers the object holds. *)
(* ===================================================================== *)

Module TrackOwnership.
Import Pointers.

Record AnimationTrack : Type := {
  m_allocator : Z;
  m_sample_data : Z;
  m_num_samples : Z;
  m_sample_rate : Z;
  m_type : Track.AnimationTrackType8
}.

Definition is_initialized (track : AnimationTrack) : bool :=
  negb (m_allocator track =? nullptr).

(** [sizeof(double)] *)
Definition sizeof_double : Z := 8.

(** [AnimationTrack(AnimationTrack&& track)]: the new object; [track] is
    not written to. *)
Definition move_constructed (track : AnimationTrack) : AnimationTrack :=
  {| m_allocator := m_allocator track;
     m_sample_data := m_sample_data track;
     m_num_samples := m_num_samples track;
     m_sample_rate := m_sample_rate track;
     m_type := m_type track |}.

(** [operator=(AnimationTrack&& track)]: [*this] and [track] afterwards. *)
Definition move_assigned (this track : AnimationTrack) : AnimationTrack * AnimationTrack :=
  ({| m_allocator := m_allocator track;
      m_sample_data := m_sample_data track;
      m_num_samples := m_num_samples track;
      m_sample_rate := m_sample_rate track;
      m_type := m_type track |},
   {| m_allocator := m_allocator this;
      m_sample_data := m_sample_data this;
      m_num_samples := m_num_samples this;
      m_sample_rate := m_sample_rate this;
      m_type := m_type this |}).

(** [~AnimationTrack()]: the calls that reach the allocator. *)
Definition destroyed (track : AnimationTrack) : list Deallocation :=
  if is_initialized track
  then deallocate_type_array sizeof_double (m_sample_data track)
         (size_t (m_num_samples track
                  * Track.get_animation_track_sample_size (m_type track)))
  else [].

(** For concrete runs: a rotation track of two samples whose array is at
    address 4096, and a default-constructed one. *)
Definition loaded_track : AnimationTrack :=
  {| m_allocator := 64; m_sample_data := 4096; m_num_samples := 2; m_sample_rate := 30;
     m_type := Track.Rotation |}.

Definition unloaded_track : AnimationTrack :=
  {| m_allocator := 0; m_sample_data := 0; m_num_samples := 0; m_sample_rate := 0;
     m_type := Track.Rotation |}.

End TrackOwnership.

(* ===================================================================== *)
(** ** tools/acl_compressor/sources/main.cpp *)
(* ===================================================================== *)

Module Main.

(** *** The configurations [main] tries *)

Section Configurations.
Import Encoder.
Context {C : Collaborators}.

(** [UniformlySampledAlgorithm(rotation_format, translation_format,
    range_reduction)]: the settings it hands to [compress_clip]. *)
Definition UniformlySampledAlgorithm (rotation_format : RotationFormat8)
    (translation_format : VectorFormat8) (range_reduction : RangeReductionFlags8)
  : CompressionSettings :=
  {| rotation_format := rotation_format;
     translation_format := translation_format;
     range_reduction := range_reduction |}.

Definition None_ : RangeReductionFlags8 := RangeReductionFlags8_None.
Definition PerClip_Rotations : RangeReductionFlags8 := Z.lor PerClip Rotations.
Definition PerClip_Translations : RangeReductionFlags8 := Z.lor PerClip Translations.
Definition PerClip_Rotations_Translations : RangeReductionFlags8 :=
  Z.lor (Z.lor PerClip Rotations) Translations.

(** [uniform_tests] *)
Definition uniform_tests : list CompressionSettings :=
  [ UniformlySampledAlgorithm Quat_128 Vector3_96 None_;
    UniformlySampledAlgorithm Quat_128 Vector3_96 PerClip_Rotations;
    UniformlySampledAlgorithm Quat_128 Vector3_96 PerClip_Translations;
    UniformlySampledAlgorithm Quat_128 Vector3_96 PerClip_Rotations_Translations;
    UniformlySampledAlgorithm Quat_128 Vector3_48 PerClip_Translations;
    UniformlySampledAlgorithm Quat_128 Vector3_48 PerClip_Rotations_Translations;
    UniformlySampledAlgorithm Quat_128 Vector3_32 PerClip_Translations;
    UniformlySampledAlgorithm Quat_128 Vector3_32 PerClip_Rotations_Translations;
    UniformlySampledAlgorithm Quat_96 Vector3_96 None_;
    UniformlySampledAlgorithm Quat_96 Vector3_96 PerClip_Rotations;
    UniformlySampledAlgorithm Quat_96 Vector3_96 PerClip_Translations;
    UniformlySampledAlgorithm Quat_96 Vector3_96 PerClip_Rotations_Translations;
    UniformlySampledAlgorithm Quat_96 Vector3_48 PerClip_Translations;
    UniformlySampledAlgorithm Quat_96 Vector3_48 PerClip_Rotations_Translations;
    UniformlySampledAlgorithm Quat_96 Vector3_32 PerClip_Translations;
    UniformlySampledAlgorithm Quat_96 Vector3_32 PerClip_Rotations_Translations;
    UniformlySampledAlgorithm Quat_48 Vector3_96 None_;
    UniformlySampledAlgorithm Quat_48 Vector3_96 PerClip_Rotations;
    UniformlySampledAlgorithm Quat_48 Vector3_96 PerClip_Translations;
    UniformlySampledAlgorithm Quat_48 Vector3_96 PerClip_Rotations_Translations;
    UniformlySampledAlgorithm Quat_48 Vector3_48 PerClip_Translations;
    UniformlySampledAlgorithm Quat_48 Vector3_48 PerClip_Rotations_Translations;
    UniformlySampledAlgorithm Quat_48 Vector3_32 PerClip_Translations;
    UniformlySampledAlgorithm Quat_48 Vector3_32 PerClip_Rotations_Translations;
    UniformlySampledAlgorithm Quat_32 Vector3_96 None_;
    UniformlySampledAlgorithm Quat_32 Vector3_96 PerClip_Rotations;
    UniformlySampledAlgorithm Quat_32 Vector3_96 PerClip_Translations;
    UniformlySampledAlgorithm Quat_32 Vector3_96 PerClip_Rotations_Translations;
    UniformlySampledAlgorithm Quat_32 Vector3_48 PerClip_Translations;
    UniformlySampledAlgorithm Quat_32 Vector3_48 PerClip_Rotations_Translations;
    UniformlySampledAlgorithm Quat_32 Vector3_32 PerClip_Translations;
    UniformlySampledAlgorithm Quat_32 Vector3_32 PerClip_Rotations_Translations ].

End Configurations.

(** *** The command line

    An argument is a C string: a [string] without the terminating NUL. *)

Section CommandLine.
Import Stdlib.Strings.String Stdlib.Strings.Ascii.
Local Open Scope string_scope.

(** [std::FILE*] that is not [nullptr]. *)
Inductive File : Type := stdout | opened (filename : string).

(** [struct Options]; [None] is [nullptr]. *)
Record Options : Type := {
  input_filename : option string;
  output_stats : bool;
  output_stats_filename : option string;
  output_stats_file : option File
}.

(** [Options()] *)
Definition Options_new : Options :=
  {| input_filename := None;
     output_stats := false;
     output_stats_filename := None;
     output_stats_file := None |}.

(** What the tool does to its surroundings. *)
Inductive Effect : Type :=
| printf (text : string)
| fopen_s (filename : string) (mode : string).

(** Whether [fopen_s(&file, filename, "w")] leaves a file in [file]. *)
Variable can_open : string -> bool.

(** [Options::open_output_stats_file] *)
Definition open_output_stats_file (options : Options) : Options * list Effect :=
  let '(file, effects) :=
    match output_stats_filename options with
    | Some filename =>
        (if can_open filename then Some (opened filename) else None,
         [fopen_s filename "w"])
    | None => (None, [])
    end in
  ({| input_filename := input_filename options;
      output_stats := output_stats options;
      output_stats_filename := output_stats_filename options;
      output_stats_file := Some match file with Some file => file | None => stdout end |},
   effects).

Definition ACL_INPUT_FILE_OPTION : string := "-acl=".
Definition STATS_OUTPUT_OPTION : string := "-stats".

Definition newline : string := String (ascii_of_nat 10) EmptyString.

(** [std::strncmp(argument, option, std::strlen(option)) == 0] *)
Definition starts_with (option argument : string) : bool := prefix option argument.

(** [argument + offset], for an offset within the string. *)
Definition from (offset : nat) (argument : string) : string :=
  substring offset (length argument - offset) argument.

(** The loop of [parse_options] over [argv[arg_index]], [argv[arg_index + 1]],
    ...: whether it ran to the end, the options and the effects. *)
Fixpoint parse_arguments (arguments : list string) (options : Options)
  : bool * Options * list Effect :=
  match arguments with
  | [] => (true, options, [])
  | argument :: arguments =>
      let option_length := length ACL_INPUT_FILE_OPTION in
      if starts_with ACL_INPUT_FILE_OPTION argument then
        parse_arguments arguments
          {| input_filename := Some (from option_length argument);
             output_stats := output_stats options;
             output_stats_filename := output_stats_filename options;
             output_stats_file := output_stats_file options |}
      else
        let option_length := length STATS_OUTPUT_OPTION in
        if starts_with STATS_OUTPUT_OPTION argument then
          let options :=
            {| input_filename := input_filename options;
               output_stats := true;
               output_stats_filename :=
                 match get option_length argument with
                 | Some "="%char => Some (from (option_length + 1) argument)
                 | _ => None
                 end;
               output_stats_file := output_stats_file options |} in
          let '(options, opening) := open_output_stats_file options in
          let '(finished, options, effects) := parse_arguments arguments options in
          (finished, options, (opening ++ effects)%list)
        else
          (false, options, [printf ("Unrecognized option " ++ argument ++ newline)])
  end.

(** [parse_options(argc, argv, options)], [argv] holding [argc] strings. *)
Definition parse_options (argv : list string) (options : Options)
  : bool * Options * list Effect :=
  let '(finished, options, effects) := parse_arguments (tl argv) options in
  if negb finished then (false, options, effects)
  else
    let required := (effects ++ [printf ("An input file is required." ++ newline)])%list in
    match input_filename options with
    | None => (false, options, required)
    | Some filename =>
        if (length filename =? 0)%nat then (false, options, required)
        else (true, options, effects)
    end.

(** The arguments [parse_options] knows. *)
Definition is_input_file (argument : string) : bool :=
  starts_with ACL_INPUT_FILE_OPTION argument.

Definition is_stats (argument : string) : bool :=
  negb (is_input_file argument) && starts_with STATS_OUTPUT_OPTION argument.

Definition recognized (argument : string) : bool :=
  is_input_file argument || is_stats argument.

(** The file name an argument gives for the statistics, if any. *)
Definition stats_filename (argument : string) : option string :=
  match get (length STATS_OUTPUT_OPTION) argument with
  | Some "="%char => Some (from (length STATS_OUTPUT_OPTION + 1) argument)
  | _ => None
  end.

(** The file [open_output_stats_file] leaves in [output_stats_file] for a
    statistics argument, and the files it opens for it. *)
Definition stats_file (argument : string) : File :=
  match stats_filename argument with
  | Some filename => if can_open filename then opened filename else stdout
  | None => stdout
  end.

Definition stats_opening (argument : string) : list Effect :=
  match stats_filename argument with
  | Some filename => [fopen_s filename "w"]
  | None => []
  end.

(** The options after an input-file argument, and after a statistics
    argument. *)
Definition with_input_filename (options : Options) (argument : string) : Options :=
  {| input_filename := Some (from (length ACL_INPUT_FILE_OPTION) argument);
     output_stats := output_stats options;
     output_stats_filename := output_stats_filename options;
     output_stats_file := output_stats_file options |}.

Definition with_stats (options : Options) (argument : string) : Options :=
  {| input_filename := input_filename options;
     output_stats := true;
     output_stats_filename := stats_filename argument;
     output_stats_file := Some (stats_file argument) |}.

End CommandLine.

(** For concrete runs: a file system where every file can be opened, and a
    command line. *)
Section Runs.
Import Stdlib.Strings.String.
Local Open Scope string_scope.

Definition every_file (filename : string) : bool := true.

Definition command_line : list string :=
  ["acl_compressor"; "-acl=clip.acl"; "-stats=first.txt"; "-stats=second.txt";
   "-stats-on-screen"].

End Runs.

(** *** The output writers *)

Section Writers.
Context {Rotation Translation : Type}.

(** [Transform_64] *)
Record Transform : Type := {
  rotation : Rotation;
  translation : Translation
}.

(** [struct RawOutputWriterImpl], without the allocator. *)
Record RawOutputWriterImpl : Type := {
  m_transforms : list Transform;
  m_num_bones : Z
}.

(** [m_transforms[index]] replaced by [change] of it; the array is left alone
    when the index is not in it. *)
Fixpoint update (transforms : list Transform) (index : nat) (change : Transform -> Transform)
  : list Transform :=
  match transforms, index with
  | [], _ => []
  | first :: rest, O => change first :: rest
  | first :: rest, S index => first :: update rest index change
  end.

(** [RawOutputWriterImpl(allocator, num_bones)]: the array is allocated, and
    holds whatever [uninitialized] the memory holds. *)
Definition RawOutputWriterImpl_new (uninitialized : Transform) (num_bones : Z)
  : RawOutputWriterImpl :=
  {| m_transforms := repeat uninitialized (Z.to_nat (size_t num_bones));
     m_num_bones := num_bones |}.

(** [write_bone_rotation(bone_index, rotation)]; [None] is the failed
    [ACL_ENSURE]. *)
Definition write_bone_rotation (writer : RawOutputWriterImpl) (bone_index : Z)
    (value : Rotation) : option RawOutputWriterImpl :=
  if bone_index <? m_num_bones writer then
    Some {| m_transforms :=
              update (m_transforms writer) (Z.to_nat bone_index)
                (fun transform =>
                   {| rotation := value; translation := translation transform |});
            m_num_bones := m_num_bones writer |}
  else None.

(** [write_bone_translation(bone_index, translation)] *)
Definition write_bone_translation (writer : RawOutputWriterImpl) (bone_index : Z)
    (value : Translation) : option RawOutputWriterImpl :=
  if bone_index <? m_num_bones writer then
    Some {| m_transforms :=
              update (m_transforms writer) (Z.to_nat bone_index)
                (fun transform =>
                   {| rotation := rotation transform; translation := value |});
            m_num_bones := m_num_bones writer |}
  else None.

End Writers.
Arguments Transform : clear implicits.
Arguments RawOutputWriterImpl : clear implicits.

End Main.

(** * Proofs *)
(* ===================================================================== *)

(** *** Arithmetic facts about wrap-around and alignment *)

Lemma wrap_range w x : 0 <= w -> 0 <= wrap w x < 2 ^ w.
Proof. intros Hw. unfold wrap. apply Z.mod_pos_bound. apply Z.pow_pos_nonneg; lia. Qed.

Lemma u32_range x : 0 <= u32 x < 2 ^ 32.
Proof. apply wrap_range; lia. Qed.

Lemma u32_small x : 0 <= x < 2 ^ 32 -> u32 x = x.
Proof. intros H. unfold u32, wrap. now apply Z.mod_small. Qed.

Lemma u32_size_t x : u32 (size_t x) = u32 x.
Proof.
  unfold u32, size_t, wrap.
  change (2 ^ 64) with (2 ^ 32 * 2 ^ 32).
  rewrite Z.rem_mul_r by lia.
  rewrite Z.mul_comm, Z.mod_add by lia.
  apply Z.mod_mod. lia.
Qed.

Lemma u32_idem x : u32 (u32 x) = u32 x.
Proof. unfold u32, wrap. apply Z.mod_mod. lia. Qed.

Lemma u32_add_l x y : u32 (u32 x + y) = u32 (x + y).
Proof. unfold u32, wrap. now rewrite Z.add_mod_idemp_l by lia. Qed.

Lemma u32_add_r x y : u32 (x + u32 y) = u32 (x + y).
Proof. unfold u32, wrap. now rewrite Z.add_mod_idemp_r by lia. Qed.

Lemma u32_mul_l x y : u32 (u32 x * y) = u32 (x * y).
Proof. unfold u32, wrap. now rewrite Z.mul_mod_idemp_l by lia. Qed.

Lemma u32_mul_r x y : u32 (x * u32 y) = u32 (x * y).
Proof. unfold u32, wrap. now rewrite Z.mul_mod_idemp_r by lia. Qed.

Lemma size_t_small x : 0 <= x < 2 ^ 64 -> size_t x = x.
Proof. intros H. unfold size_t, wrap. now apply Z.mod_small. Qed.

(** Masking with [~3] on 64 bits clears the two low bits. *)
Lemma land_not3 y : 0 <= y < 2 ^ 64 -> Z.land y (size_t (Z.lnot 3)) = 4 * (y / 4).
Proof.
  intros Hy.
  change (size_t (Z.lnot 3)) with (Z.lnot 3 mod 2 ^ 64).
  rewrite <- Z.land_ones by lia.
  rewrite Z.land_assoc, (Z.land_comm y), <- Z.land_assoc.
  rewrite (Z.land_ones y 64) by lia.
  rewrite Z.mod_small by lia.
  rewrite Z.land_comm.
  change (Z.land y (Z.lnot 3)) with (Z.ldiff y (Z.ones 2)).
  rewrite Z.ldiff_ones_r by lia.
  rewrite Z.shiftl_mul_pow2, Z.shiftr_div_pow2 by lia.
  change (2 ^ 2) with 4. lia.
Qed.

(** [align_to] at alignment 4 is "align up", modulo [2^32]. *)
Lemma align_to_4 v : 0 <= v < 2 ^ 32 -> align_to v 4 = u32 (align_up v 4).
Proof.
  intros Hv. unfold align_to, align_up.
  change (4 - 1) with 3.
  rewrite (size_t_small 3) by lia.
  rewrite (size_t_small v) by lia.
  rewrite (size_t_small (v + 3)) by lia.
  rewrite land_not3 by lia. reflexivity.
Qed.

Lemma align_up_4_mod x : align_up (x mod 2 ^ 32) 4 mod 2 ^ 32 = align_up x 4 mod 2 ^ 32.
Proof.
  unfold align_up. change (4 - 1) with 3.
  pose proof (Z.div_mod x (2 ^ 32) ltac:(lia)) as E.
  set (r := x mod 2 ^ 32) in *. set (q := x / 2 ^ 32) in *.
  replace (x + 3) with (r + 3 + (q * 2 ^ 30) * 4) by (change (2 ^ 32) with (2 ^ 30 * 4) in E; lia).
  rewrite Z.div_add by lia.
  replace (4 * ((r + 3) / 4 + q * 2 ^ 30)) with (4 * ((r + 3) / 4) + q * 2 ^ 32)
    by (change (2 ^ 32) with (2 ^ 30 * 4); lia).
  now rewrite Z.mod_add by lia.
Qed.

Lemma align_to_4_u32 x : align_to (u32 x) 4 = u32 (align_up x 4).
Proof.
  rewrite align_to_4 by apply u32_range.
  unfold u32, wrap. apply align_up_4_mod.
Qed.

(** *** The encoder *)

Import Encoder.

Section EncoderFacts.
Context {C : Collaborators}.

(** Calls that fail a guard return [nullptr] and do nothing else. *)
Lemma compress_clip_refuses clip skeleton settings :
  accepts clip settings = false ->
  run (compress_clip clip skeleton settings) = (Returned None, []).
Proof.
  unfold run, accepts, compress_clip, ACL_TRY_ASSERT. intros H.
  destruct (0 <? get_num_bones clip); [|reflexivity].
  destruct (0 <? get_num_samples clip); [|reflexivity].
  cbn [negb andb] in *.
  destruct (VectorFormat8_eqb (translation_format settings) Vector3_96); [discriminate|].
  cbn [orb negb andb] in *. rewrite H. reflexivity.
Qed.

(** *** Counting tracks and summing their bytes *)

Lemma count_cons (p : BoneStreams Samples -> bool) b l :
  count p (b :: l) = (if p b then 1 else 0) + count p l.
Proof.
  unfold count. cbn [filter]. destruct (p b); cbn [length]; lia.
Qed.

Lemma constant_bytes_sum rs ts l :
  rs * count is_rotation_constant l + ts * count is_translation_constant l
  = sum_over (fun b => constant_bytes (rotation_kind b) rs
                       + constant_bytes (translation_kind b) ts) l.
Proof.
  induction l as [|b l IH]; [unfold count; cbn; lia|].
  rewrite !count_cons. cbn [sum_over fold_right]. fold (sum_over (fun b => constant_bytes (rotation_kind b) rs
                       + constant_bytes (translation_kind b) ts) l).
  rewrite <- IH.
  generalize (count is_rotation_constant l), (count is_translation_constant l).
  intros c1 c2.
  unfold is_rotation_constant, is_translation_constant, rotation_kind, translation_kind.
  destruct (is_default_rotation b), (is_constant_rotation b),
    (is_default_translation b), (is_constant_translation b);
    cbn [negb andb constant_bytes]; lia.
Qed.

Lemma animated_bytes_sum rs ts n l :
  (rs * count is_rotation_animated l + ts * count is_translation_animated l) * n
  = sum_over (fun b => animated_bytes (rotation_kind b) rs n
                       + animated_bytes (translation_kind b) ts n) l.
Proof.
  induction l as [|b l IH]; [unfold count; cbn; lia|].
  rewrite !count_cons. cbn [sum_over fold_right]. fold (sum_over (fun b => animated_bytes (rotation_kind b) rs n
                       + animated_bytes (translation_kind b) ts n) l).
  rewrite <- IH.
  generalize (count is_rotation_animated l), (count is_translation_animated l).
  intros c1 c2.
  unfold is_rotation_animated, is_translation_animated, rotation_kind, translation_kind.
  destruct (is_default_rotation b), (is_constant_rotation b),
    (is_default_translation b), (is_constant_translation b);
    cbn [negb andb animated_bytes]; lia.
Qed.

Lemma u32_add_size_t_r x y : u32 (x + size_t y) = u32 (x + y).
Proof. rewrite <- u32_add_r, u32_size_t, u32_add_r. reflexivity. Qed.

Lemma u32_strip x y : u32 x = u32 y -> u32 (u32 x) = u32 y.
Proof. now rewrite u32_idem. Qed.

Lemma u32_add_congr a a' b b' :
  u32 a = u32 a' -> u32 b = u32 b' -> u32 (a + b) = u32 (a' + b').
Proof.
  intros Ha Hb. rewrite <- u32_add_l, <- u32_add_r, Ha, Hb.
  now rewrite u32_add_l, u32_add_r.
Qed.

Lemma u32_mul_congr a a' b b' :
  u32 a = u32 a' -> u32 b = u32 b' -> u32 (a * b) = u32 (a' * b').
Proof.
  intros Ha Hb. rewrite <- u32_mul_l, <- u32_mul_r, Ha, Hb.
  now rewrite u32_mul_l, u32_mul_r.
Qed.

(** Equal modulo [2^32], up to the truncations inside. *)
Ltac u32_congr :=
  repeat first [ reflexivity | apply u32_strip | apply u32_add_congr | apply u32_mul_congr ].

(** The byte counts [compress_clip] computes are the track-by-track sums,
    modulo [2^32]. *)
Lemma constant_data_size_sum clip settings :
  let counts := get_num_animated_streams (quantized clip settings) (get_num_bones clip) in
  u32 (u32 (get_packed_rotation_size (rotation_format settings)
            * num_constant_rotation_tracks counts)
       + u32 (get_packed_vector_size Vector3_96 * num_constant_translation_tracks counts))
  = u32 (constant_region_size clip settings).
Proof.
  cbn zeta. unfold get_num_animated_streams, constant_region_size.
  cbn [num_constant_rotation_tracks num_constant_translation_tracks].
  rewrite <- constant_bytes_sum.
  change (get_packed_vector_size Vector3_96) with 12.
  u32_congr.
Qed.

Lemma animated_data_size_sum clip settings :
  let counts := get_num_animated_streams (quantized clip settings) (get_num_bones clip) in
  u32 (u32 (u32 (get_packed_rotation_size (rotation_format settings)
                 * num_animated_rotation_tracks counts)
            + u32 (get_packed_vector_size (translation_format settings)
                   * num_animated_translation_tracks counts))
       * get_num_samples clip)
  = u32 (animated_region_size clip settings).
Proof.
  cbn zeta. unfold get_num_animated_streams, animated_region_size.
  cbn [num_animated_rotation_tracks num_animated_translation_tracks].
  rewrite <- animated_bytes_sum.
  u32_congr.
Qed.

(** The running total of [buffer_size], modulo [2^32]. *)
Lemma buffer_size_sum P H w c r d :
  u32 (align_to (u32 (align_to
         (u32 (u32 (size_t (u32 (size_t (u32 (size_t (u32 (size_t (0 + P)) + H))
                                         + size_t (4 * w)))
                            + size_t (4 * w)))
               + u32 c)) 4 + r)) 4 + u32 d)
  = u32 (align_up (align_up (P + H + 4 * w + 4 * w + c) 4 + r) 4 + d).
Proof.
  rewrite u32_add_r.
  rewrite !u32_size_t.
  rewrite Z.add_0_l.
  rewrite (u32_add_l P H).
  rewrite (u32_add_size_t_r (u32 (P + H))), (u32_add_l (P + H)).
  rewrite (u32_add_size_t_r (u32 (P + H + 4 * w))), (u32_add_l (P + H + 4 * w)).
  rewrite u32_add_r, u32_add_l.
  rewrite (align_to_4_u32 (P + H + 4 * w + 4 * w + c)), u32_add_l.
  rewrite align_to_4_u32, u32_add_l.
  reflexivity.
Qed.

Lemma bitset_words_range clip : 0 <= bitset_words clip < 2 ^ 27.
Proof.
  unfold bitset_words, get_bitset_size.
  pose proof (u32_range (u32 (get_num_bones clip * NUM_TRACKS_PER_BONE) + 31)) as R.
  assert (0 <= u32 (u32 (get_num_bones clip * NUM_TRACKS_PER_BONE) + 31) / 32 < 2 ^ 27) as Q.
  { split; [apply Z.div_pos; lia|]. apply Z.div_lt_upper_bound; [lia|].
    change (32 * 2 ^ 27) with (2 ^ 32). lia. }
  rewrite u32_small by lia. exact Q.
Qed.

(** A checked conversion that succeeds returns its argument. *)
Lemma PtrOffset_of_size_t_Some v o :
  PtrOffset_of_size_t v = Some o -> 0 <= v <= UINT32_MAX /\ o = v.
Proof.
  unfold PtrOffset_of_size_t, safe_static_cast_u32.
  destruct (0 <=? v) eqn:E1; [|discriminate].
  destruct (v <=? UINT32_MAX) eqn:E2; [|discriminate].
  cbn [andb]. intros [= <-].
  apply Z.leb_le in E1, E2. split; [lia|].
  apply u32_small. unfold UINT32_MAX in E2. lia.
Qed.


Lemma PtrOffset_of_align_to v : PtrOffset_of_size_t (align_to v 4) = Some (align_to v 4).
Proof.
  unfold align_to. set (x := Z.land _ _).
  unfold PtrOffset_of_size_t, safe_static_cast_u32.
  pose proof (u32_range x) as R.
  replace (0 <=? u32 x) with true by (symmetry; apply Z.leb_le; lia).
  replace (u32 x <=? UINT32_MAX) with true
    by (symmetry; apply Z.leb_le; unfold UINT32_MAX; lia).
  cbn [andb]. now rewrite u32_idem.
Qed.

Lemma accepts_guards clip settings :
  accepts clip settings = true ->
  (0 <? get_num_bones clip) = true /\ (0 <? get_num_samples clip) = true /\
  negb (VectorFormat8_eqb (translation_format settings) Vector3_96)
  && ACL_TRY_ASSERT (are_enum_flags_set (range_reduction settings)
                       (Z.lor PerClip Translations)) = false.
Proof.
  unfold accepts, ACL_TRY_ASSERT. intros H.
  apply andb_prop in H as [H H3]. apply andb_prop in H as [H1 H2].
  repeat split; try assumption.
  now rewrite <- negb_orb, H3.
Qed.

Lemma allocate_buffer x :
  allocate_type_array sizeof_uint8_t alignof_uint8_t (u32 x)
  = {| allocation_size := u32 x; allocation_alignment := alignof_uint8_t |}.
Proof.
  unfold allocate_type_array, sizeof_uint8_t. rewrite Z.mul_1_l.
  rewrite size_t_small; [reflexivity|]. pose proof (u32_range x). lia.
Qed.


(** *** Running [compress_clip], one call at a time *)

Section Stepping.
Context {E A B : Type}.

Lemma bind_ret (a : A) (k : A -> Run E B) log : bind (ret a) k log = k a log.
Proof. reflexivity. Qed.

Lemma bind_emit (e : E) (k : unit -> Run E B) log : bind (emit e) k log = k tt (log ++ [e]).
Proof. reflexivity. Qed.

Lemma bind_ensured_Some (a : A) (k : A -> Run E B) log :
  bind (ensured (Some a)) k log = k a log.
Proof. reflexivity. Qed.

Lemma bind_ensured_None (k : A -> Run E B) log :
  bind (ensured None) k log = (EnsureFailed, log).
Proof. reflexivity. Qed.

Lemma bind_assoc {D : Type} (m : Run E A) (k : A -> Run E B) (h : B -> Run E D) log :
  bind (bind m k) h log = bind m (fun a => bind (k a) h) log.
Proof. unfold bind. destruct (m log) as [[a|] log']; reflexivity. Qed.

Lemma returned_inj (x y : A) (l l' : list E) :
  (Returned (Some x), l) = (Returned (Some y), l') -> x = y /\ l = l'.
Proof. intros H. injection H as H1 H2. now split. Qed.

End Stepping.

Lemma bind_pass {B : Type} (c : Call) (r : Streams) (k : Streams -> Run Call B) log :
  bind (pass c r) k log = k r (log ++ [c]).
Proof. reflexivity. Qed.


Ltac steps H :=
  repeat first [ rewrite bind_pass in H | rewrite bind_emit in H | rewrite bind_ret in H
               | rewrite bind_ensured_Some in H | rewrite bind_assoc in H ].

Ltac next_offset H o E :=
  match type of H with
  | bind (ensured (PtrOffset_of_size_t ?x)) _ _ = _ =>
      destruct (PtrOffset_of_size_t x) as [o|] eqn:E;
      [ apply PtrOffset_of_size_t_Some in E
      | rewrite bind_ensured_None in H; discriminate ]
  end; steps H.

Lemma compress_clip_success clip skeleton settings a tr :
  run (compress_clip clip skeleton settings) = (Returned (Some a), tr) ->
  let nb := get_num_bones clip in
  let q := quantized clip settings in
  let w := bitset_words clip in
  let H := sizeof_FullPrecisionHeader in
  let cds := u32 (constant_region_size clip settings) in
  let rds := range_region_size clip settings in
  let ads := u32 (animated_region_size clip settings) in
  let range_offset := u32 (align_up (H + 4 * w + 4 * w + cds) 4) in
  let data_offset := u32 (align_up (range_offset + rds) 4) in
  let per_clip := is_enum_flag_set (range_reduction settings) PerClip in
  accepts clip settings = true /\
  0 <= H /\ H + 4 * w + 4 * w <= UINT32_MAX /\
  a = {| buffer_size := u32 (artifact_size clip settings);
         algorithm_type := UniformlySampled;
         header :=
           {| header_num_bones := nb;
              header_rotation_format := rotation_format settings;
              header_translation_format := translation_format settings;
              header_range_reduction := range_reduction settings;
              header_num_samples := get_num_samples clip;
              header_sample_rate := get_sample_rate clip;
              header_num_animated_rotation_tracks :=
                num_animated_rotation_tracks (get_num_animated_streams q nb);
              header_num_animated_translation_tracks :=
                num_animated_translation_tracks (get_num_animated_streams q nb);
              default_tracks_bitset_offset := H;
              constant_tracks_bitset_offset := H + 4 * w;
              constant_track_data_offset :=
                if 0 <? cds then H + 4 * w + 4 * w else InvalidPtrOffset;
              clip_range_data_offset :=
                if per_clip then range_offset else InvalidPtrOffset;
              track_data_offset :=
                if 0 <? ads then data_offset else InvalidPtrOffset |} |} /\
  tr = [call_convert_clip_to_streams clip;
        call_convert_rotation_streams (convert_clip_to_streams clip) nb
          (rotation_format settings);
        call_compact_constant_streams (converted clip settings) nb 0.00001%float]
       ++ (if per_clip then
             [call_normalize_rotation_streams (compacted clip settings) nb
                (range_reduction settings) (rotation_format settings);
              call_normalize_translation_streams
                (normalize_rotation_streams (compacted clip settings) nb
                   (range_reduction settings) (rotation_format settings))
                nb (range_reduction settings)]
           else [])
       ++ [call_quantize_rotation_streams (normalized clip settings) nb
             (rotation_format settings);
           call_quantize_translation_streams
             (quantize_rotation_streams (normalized clip settings) nb
                (rotation_format settings))
             nb (translation_format settings);
           call_allocate {| allocation_size := u32 (artifact_size clip settings);
                            allocation_alignment := alignof_uint8_t |};
           call_write_default_track_bitset q nb H w;
           call_write_constant_track_bitset q nb (H + 4 * w) w]
       ++ (if 0 <? cds then [call_write_constant_track_data q nb (H + 4 * w + 4 * w) cds]
           else [])
       ++ (if 0 <? ads then [call_write_animated_track_data q nb data_offset ads] else [])
       ++ (if per_clip then
             [call_write_range_track_data q nb (range_reduction settings)
                (rotation_format settings) (translation_format settings)
                range_offset rds]
           else [])
       ++ [call_finalize_compressed_clip; call_deallocate q nb].
Proof.
  intros Hrun. cbn zeta.
  destruct (accepts clip settings) eqn:Hacc.
  2:{ rewrite compress_clip_refuses in Hrun by assumption. discriminate. }
  destruct (accepts_guards _ _ Hacc) as (G1 & G2 & G3).
  pose proof (bitset_words_range clip) as Hw.
  pose proof (constant_data_size_sum clip settings) as Hc.
  pose proof (animated_data_size_sum clip settings) as Ha.
  cbn zeta in Hc, Ha.
  assert (Hs : forall x, 0 <= x <= UINT32_MAX ->
            size_t (x + size_t (4 * bitset_words clip)) = x + 4 * bitset_words clip).
  { unfold UINT32_MAX. intros x Hx.
    rewrite (size_t_small (4 * _)) by lia. apply size_t_small. lia. }
  unfold run, compress_clip in Hrun. cbv zeta in Hrun.
  unfold ACL_TRY_ASSERT at 1 2 in Hrun.
  rewrite G1, G2, G3 in Hrun. cbn [negb] in Hrun.
  fold (bitset_words clip) in Hrun.
  unfold artifact_size, range_region_size, quantized, normalized in *.
  fold (converted clip settings) in *. fold (compacted clip settings) in *.
  destruct (is_enum_flag_set (range_reduction settings) PerClip) eqn:Hpc;
    steps Hrun; cbn [fst snd] in Hrun; steps Hrun;
    fold (converted clip settings) in Hrun; fold (compacted clip settings) in Hrun;
    rewrite Hc, Ha, buffer_size_sum, allocate_buffer in Hrun;
    match type of Hrun with
    | context [call_deallocate ?s _] => set (q := s) in *
    end;
    next_offset Hrun o1 E1; destruct E1 as [B1 ->];
    rewrite (Hs _ B1) in Hrun;
    next_offset Hrun o2 E2; destruct E2 as [B2 ->];
    rewrite (Hs _ B2) in Hrun;
    next_offset Hrun o3 E3; destruct E3 as [B3 ->];
    rewrite PtrOffset_of_align_to in Hrun; steps Hrun;
    rewrite PtrOffset_of_align_to in Hrun; steps Hrun;
    rewrite !align_to_4_u32 in Hrun;
    (destruct (0 <? u32 (constant_region_size clip settings));
     destruct (0 <? u32 (animated_region_size clip settings));
     steps Hrun; unfold ret in Hrun; cbn [app] in Hrun;
     apply returned_inj in Hrun; destruct Hrun as [<- <-];
     (split; [reflexivity|]); (split; [lia|]); (split; [lia|]);
     split; reflexivity).
Qed.

(** *** What the specification says about [compress_clip] *)

Ltac steps_goal :=
  repeat first [ rewrite bind_pass | rewrite bind_emit | rewrite bind_ret
               | rewrite bind_ensured_Some | rewrite bind_assoc ].

Ltac passes_done :=
  unfold ret; cbn [snd app]; unfold stream_passes; cbn [filter is_stream_pass];
  reflexivity.

Ltac next_offset_goal :=
  match goal with
  | |- context [bind (ensured (PtrOffset_of_size_t ?x)) _ _] =>
      destruct (PtrOffset_of_size_t x);
      [ steps_goal | rewrite bind_ensured_None; passes_done ]
  end.

(** The stream passes an accepted call runs, whether or not it goes on to
    return an artifact. *)
Lemma accepted_stream_passes clip skeleton settings :
  accepts clip settings = true ->
  stream_passes (snd (run (compress_clip clip skeleton settings))) =
    [call_convert_clip_to_streams clip;
     call_convert_rotation_streams (convert_clip_to_streams clip) (get_num_bones clip)
       (rotation_format settings);
     call_compact_constant_streams (converted clip settings) (get_num_bones clip)
       0.00001%float]
    ++ (if is_enum_flag_set (range_reduction settings) PerClip then
          [call_normalize_rotation_streams (compacted clip settings) (get_num_bones clip)
             (range_reduction settings) (rotation_format settings);
           call_normalize_translation_streams
             (normalize_rotation_streams (compacted clip settings) (get_num_bones clip)
                (range_reduction settings) (rotation_format settings))
             (get_num_bones clip) (range_reduction settings)]
        else [])
    ++ [call_quantize_rotation_streams (normalized clip settings) (get_num_bones clip)
          (rotation_format settings);
        call_quantize_translation_streams
          (quantize_rotation_streams (normalized clip settings) (get_num_bones clip)
             (rotation_format settings))
          (get_num_bones clip) (translation_format settings)].
Proof.
  intros Hacc.
  destruct (accepts_guards _ _ Hacc) as (G1 & G2 & G3).
  unfold run, compress_clip. cbv zeta.
  unfold ACL_TRY_ASSERT at 1 2.
  rewrite G1, G2, G3. cbn [negb].
  unfold normalized, compacted, converted.
  destruct (is_enum_flag_set (range_reduction settings) PerClip);
    steps_goal; cbn [fst snd]; steps_goal;
    do 5 next_offset_goal;
    match goal with
    | |- context [0 <? ?c] => destruct (0 <? c); steps_goal
    end;
    match goal with
    | |- context [0 <? ?c] => destruct (0 <? c); steps_goal
    end;
    passes_done.
Qed.


(** C1.  Whatever the clip and the skeleton, settings whose translation
    format is not [Vector3_96] and whose range-reduction flags do not include
    both [PerClip] and [Translations] make [compress_clip] fail: it returns
    [nullptr] and has made no call at all, so no buffer was allocated. *)
Theorem compress_clip_needs_translation_range_reduction clip skeleton settings :
  translation_format settings <> Vector3_96 ->
  are_enum_flags_set (range_reduction settings) (Z.lor PerClip Translations) = false ->
  run (compress_clip clip skeleton settings) = (Returned None, [])
  /\ allocations (snd (run (compress_clip clip skeleton settings))) = [].
Proof.
  intros Hformat Hflags.
  assert (Hrefused : accepts clip settings = false).
  { unfold accepts. rewrite Hflags.
    destruct (translation_format settings); [congruence| |];
      cbn [VectorFormat8_eqb orb]; apply andb_false_r. }
  rewrite (compress_clip_refuses clip skeleton settings Hrefused).
  split; reflexivity.
Qed.

(** C6.  A clip with zero bones or zero samples makes [compress_clip] fail at
    once: it returns [nullptr] and has made no call, neither to a stream pass
    nor to the allocator. *)
Theorem compress_clip_rejects_empty_clip clip skeleton settings :
  get_num_bones clip = 0 \/ get_num_samples clip = 0 ->
  run (compress_clip clip skeleton settings) = (Returned None, [])
  /\ stream_passes (snd (run (compress_clip clip skeleton settings))) = []
  /\ allocations (snd (run (compress_clip clip skeleton settings))) = [].
Proof.
  intros Hempty.
  assert (Hrefused : accepts clip settings = false).
  { unfold accepts. destruct Hempty as [-> | ->]; cbn [Z.ltb Z.compare andb];
      [reflexivity|]. now rewrite andb_false_r. }
  rewrite (compress_clip_refuses clip skeleton settings Hrefused).
  repeat split.
Qed.

(** C7.  The stream passes of a [compress_clip] call, in the order they are
    run: clip-to-stream conversion, rotation conversion, constant-track
    compaction with threshold 0.00001, then, only when the [PerClip] flag is
    set, rotation and translation normalization, then rotation and
    translation quantization; each pass is handed the streams its predecessor
    left.  A call that fails a guard runs none. *)
Theorem compress_clip_stage_order clip skeleton settings :
  stream_passes (snd (run (compress_clip clip skeleton settings))) =
    if accepts clip settings then
      let num_bones := get_num_bones clip in
      let s0 := convert_clip_to_streams clip in
      let s1 := convert_rotation_streams s0 num_bones (rotation_format settings) in
      let s2 := compact_constant_streams s1 num_bones 0.00001%float in
      let s3 := normalize_rotation_streams s2 num_bones (range_reduction settings)
                  (rotation_format settings) in
      let s4 := normalize_translation_streams s3 num_bones (range_reduction settings) in
      let per_clip := is_enum_flag_set (range_reduction settings) PerClip in
      let s5 := if per_clip then s4 else s2 in
      let s6 := quantize_rotation_streams s5 num_bones (rotation_format settings) in
      [call_convert_clip_to_streams clip;
       call_convert_rotation_streams s0 num_bones (rotation_format settings);
       call_compact_constant_streams s1 num_bones 0.00001%float]
      ++ (if per_clip then
            [call_normalize_rotation_streams s2 num_bones (range_reduction settings)
               (rotation_format settings);
             call_normalize_translation_streams s3 num_bones (range_reduction settings)]
          else [])
      ++ [call_quantize_rotation_streams s5 num_bones (rotation_format settings);
          call_quantize_translation_streams s6 num_bones (translation_format settings)]
    else [].
Proof.
  destruct (accepts clip settings) eqn:Hacc.
  - rewrite (accepted_stream_passes clip skeleton settings Hacc).
    cbv zeta. unfold normalized, compacted, converted. reflexivity.
  - now rewrite (compress_clip_refuses clip skeleton settings Hacc).
Qed.

(** C3, with the range data's sentinel where the code puts it.  In the header of every artifact [compress_clip] returns,
    the default-tracks bitset starts right after the header, the
    constant-tracks bitset right after it, the constant data right after the
    two bitsets, the range data at the end of the constant data aligned up to
    4 bytes and the animated data at the end of the range data aligned up to
    4 bytes (sums and alignment in 32-bit arithmetic).  The constant-data and
    animated-data offsets are the all-ones sentinel instead when their region
    is empty; the range-data offset is the sentinel instead exactly when the
    [PerClip] flag is not set, in which case the range region is empty. *)
Theorem compress_clip_region_offsets clip skeleton settings a tr :
  run (compress_clip clip skeleton settings) = (Returned (Some a), tr) ->
  let H := sizeof_FullPrecisionHeader in
  let w := bitset_words clip in
  let constant_size := u32 (constant_region_size clip settings) in
  let range_size := range_region_size clip settings in
  let animated_size := u32 (animated_region_size clip settings) in
  let range_start := u32 (align_up (H + 4 * w + 4 * w + constant_size) 4) in
  let animated_start := u32 (align_up (range_start + range_size) 4) in
  let per_clip := is_enum_flag_set (range_reduction settings) PerClip in
  default_tracks_bitset_offset (header a) = H
  /\ constant_tracks_bitset_offset (header a) = H + 4 * w
  /\ constant_track_data_offset (header a)
     = (if 0 <? constant_size then H + 4 * w + 4 * w else InvalidPtrOffset)
  /\ clip_range_data_offset (header a)
     = (if per_clip then range_start else InvalidPtrOffset)
  /\ track_data_offset (header a)
     = (if 0 <? animated_size then animated_start else InvalidPtrOffset)
  /\ (per_clip = false -> range_size = 0).
Proof.
  intros Hrun. cbv zeta.
  destruct (compress_clip_success _ _ _ _ _ Hrun) as (_ & _ & _ & -> & _).
  cbn [header default_tracks_bitset_offset constant_tracks_bitset_offset
         constant_track_data_offset clip_range_data_offset track_data_offset].
  repeat split.
  unfold range_region_size. now intros ->.
Qed.

(** C4: what the code does.  For every artifact [compress_clip] returns, the
    buffer size is the preamble plus the header plus two bitsets of
    [bitset_size] 32-bit words plus the constant data, aligned up to 4, plus
    the range data, aligned up to 4, plus the animated data (32-bit
    arithmetic; exactly that sum when it fits 32 bits).  The one allocation
    asks for that many bytes at alignment [alignof(uint8_t)], which is 1 and
    not 16. *)
Theorem compress_clip_allocation clip skeleton settings a tr :
  run (compress_clip clip skeleton settings) = (Returned (Some a), tr) ->
  buffer_size a = u32 (artifact_size clip settings)
  /\ (0 <= artifact_size clip settings < 2 ^ 32 ->
      buffer_size a = artifact_size clip settings)
  /\ allocations tr = [{| allocation_size := buffer_size a; allocation_alignment := 1 |}].
Proof.
  intros Hrun.
  destruct (compress_clip_success _ _ _ _ _ Hrun) as (_ & _ & _ & -> & ->).
  cbn [buffer_size]. split; [reflexivity|]. split; [apply u32_small|].
  unfold allocations. rewrite !flat_map_app.
  destruct (is_enum_flag_set (range_reduction settings) PerClip),
    (0 <? u32 (constant_region_size clip settings)),
    (0 <? u32 (animated_region_size clip settings)); reflexivity.
Qed.

(** The sizes handed to the writers of the constant and animated regions. *)
Lemma compress_clip_region_writes clip skeleton settings a tr :
  run (compress_clip clip skeleton settings) = (Returned (Some a), tr) ->
  constant_region_writes tr
  = (if 0 <? u32 (constant_region_size clip settings)
     then [u32 (constant_region_size clip settings)] else [])
  /\ animated_region_writes tr
     = (if 0 <? u32 (animated_region_size clip settings)
        then [u32 (animated_region_size clip settings)] else []).
Proof.
  intros Hrun.
  destruct (compress_clip_success _ _ _ _ _ Hrun) as (_ & _ & _ & _ & ->).
  unfold constant_region_writes, animated_region_writes. rewrite !flat_map_app.
  destruct (is_enum_flag_set (range_reduction settings) PerClip),
    (0 <? u32 (constant_region_size clip settings)),
    (0 <? u32 (animated_region_size clip settings)); split; reflexivity.
Qed.

(** C5, with the sizes in 32 bits.  For every artifact [compress_clip]
    returns, the constant region it writes holds, per bone, one sample of
    the chosen rotation format's packed size for a constant rotation and one
    sample of 12 bytes, whatever the translation format, for a constant
    translation; the animated region holds [num_samples] samples at the
    chosen formats' widths per animated track; default tracks add nothing
    to either.  The code computes both sizes in [uint32_t] (lines 127-130),
    so the sizes written are these sums modulo [2^32], and the sums
    themselves whenever they are below [2^32]; a region whose size is zero,
    or wraps to zero, is not written. *)
Theorem compress_clip_region_sizes clip skeleton settings a tr :
  run (compress_clip clip skeleton settings) = (Returned (Some a), tr) ->
  let final := bones (quantized clip settings) (get_num_bones clip) in
  let rotation_size := get_packed_rotation_size (rotation_format settings) in
  let translation_size := get_packed_vector_size (translation_format settings) in
  let constant_sum :=
    sum_over (fun b => constant_bytes (rotation_kind b) rotation_size
                       + constant_bytes (translation_kind b) 12) final in
  let animated_sum :=
    sum_over (fun b => animated_bytes (rotation_kind b) rotation_size
                         (get_num_samples clip)
                       + animated_bytes (translation_kind b) translation_size
                           (get_num_samples clip)) final in
  let written (size : Z) := if 0 <? size then [size] else [] in
  constant_region_writes tr = written (u32 constant_sum)
  /\ animated_region_writes tr = written (u32 animated_sum)
  /\ (0 <= constant_sum < 2 ^ 32 -> constant_region_writes tr = written constant_sum)
  /\ (0 <= animated_sum < 2 ^ 32 -> animated_region_writes tr = written animated_sum).
Proof.
  intros Hrun. cbv zeta.
  destruct (compress_clip_region_writes _ _ _ _ _ Hrun) as [Hconstant Hanimated].
  fold (constant_region_size clip settings). fold (animated_region_size clip settings).
  repeat split; try assumption.
  - intros Hfits. rewrite Hconstant, (u32_small _ Hfits). reflexivity.
  - intros Hfits. rewrite Hanimated, (u32_small _ Hfits). reflexivity.
Qed.

End EncoderFacts.

(** *** Concrete runs *)

Section DemoRuns.

Local Abbreviation compress_clip := (@compress_clip Demo.collaborators).
Local Abbreviation range_region_size := (@range_region_size Demo.collaborators).
Local Abbreviation get_num_bones := (@get_num_bones Demo.collaborators).
Local Abbreviation get_num_samples := (@get_num_samples Demo.collaborators).
Local Abbreviation PerClip := (@PerClip Demo.collaborators).
Local Abbreviation Translations := (@Translations Demo.collaborators).
Local Abbreviation allocations := (@allocations Demo.collaborators).
Local Abbreviation stream_passes := (@stream_passes Demo.collaborators).
Local Abbreviation constant_region_writes := (@constant_region_writes Demo.collaborators).
Local Abbreviation animated_region_writes := (@animated_region_writes Demo.collaborators).

Lemma walk_clip_run :
  run (compress_clip Demo.walk_clip tt Demo.walk_settings)
  = (Returned (Some Demo.walk_artifact),
     snd (run (compress_clip Demo.walk_clip tt Demo.walk_settings))).
Proof. vm_compute. reflexivity. Qed.

Lemma identity_clip_run :
  run (compress_clip Demo.identity_clip tt Demo.per_clip_settings)
  = (Returned (Some Demo.identity_artifact),
     snd (run (compress_clip Demo.identity_clip tt Demo.per_clip_settings))).
Proof. vm_compute. reflexivity. Qed.

Lemma compress_clip_needs_translation_range_reduction_witness :
  translation_format Demo.unreduced_settings <> Vector3_96
  /\ are_enum_flags_set (range_reduction Demo.unreduced_settings)
       (Z.lor PerClip Translations) = false
  /\ run (compress_clip Demo.walk_clip tt Demo.unreduced_settings) = (Returned None, [])
  /\ allocations (snd (run (compress_clip Demo.walk_clip tt Demo.unreduced_settings))) = [].
Proof.
  split; [discriminate|]. split; [reflexivity|].
  apply (@compress_clip_needs_translation_range_reduction Demo.collaborators
           Demo.walk_clip tt Demo.unreduced_settings);
    [discriminate | reflexivity].
Defined.

Lemma compress_clip_rejects_empty_clip_witness :
  (get_num_bones Demo.no_bones_clip = 0 \/ get_num_samples Demo.no_bones_clip = 0)
  /\ run (compress_clip Demo.no_bones_clip tt default_settings) = (Returned None, [])
  /\ stream_passes (snd (run (compress_clip Demo.no_bones_clip tt default_settings))) = []
  /\ allocations (snd (run (compress_clip Demo.no_bones_clip tt default_settings))) = [].
Proof.
  split; [left; reflexivity|].
  apply (@compress_clip_rejects_empty_clip Demo.collaborators Demo.no_bones_clip tt default_settings).
  left. reflexivity.
Defined.

Lemma compress_clip_region_offsets_witness :
  run (compress_clip Demo.walk_clip tt Demo.walk_settings)
  = (Returned (Some Demo.walk_artifact),
     snd (run (compress_clip Demo.walk_clip tt Demo.walk_settings)))
  /\ default_tracks_bitset_offset (header Demo.walk_artifact) = 44
  /\ constant_tracks_bitset_offset (header Demo.walk_artifact) = 44 + 4 * 1
  /\ constant_track_data_offset (header Demo.walk_artifact) = 44 + 4 * 1 + 4 * 1
  /\ clip_range_data_offset (header Demo.walk_artifact) = 68
  /\ track_data_offset (header Demo.walk_artifact) = 116
  /\ (is_enum_flag_set (range_reduction Demo.walk_settings) PerClip = false ->
      range_region_size Demo.walk_clip Demo.walk_settings = 0).
Proof.
  split; [exact walk_clip_run|].
  exact (@compress_clip_region_offsets Demo.collaborators Demo.walk_clip tt Demo.walk_settings
           Demo.walk_artifact _ walk_clip_run).
Defined.

(** C3 does not hold for the range data as written: under [PerClip | Rotations] the clip whose tracks
    are all default has an empty range region, and the artifact's range-data
    offset is 52, not the sentinel. *)
Lemma empty_range_region_keeps_its_offset :
  ~ (forall a tr,
       run (compress_clip Demo.identity_clip tt Demo.per_clip_settings)
       = (Returned (Some a), tr) ->
       range_region_size Demo.identity_clip Demo.per_clip_settings = 0 ->
       clip_range_data_offset (header a) = InvalidPtrOffset).
Proof.
  intros Hclaim.
  specialize (Hclaim _ _ identity_clip_run eq_refl).
  discriminate Hclaim.
Qed.

Lemma compress_clip_allocation_witness :
  run (compress_clip Demo.walk_clip tt Demo.walk_settings)
  = (Returned (Some Demo.walk_artifact),
     snd (run (compress_clip Demo.walk_clip tt Demo.walk_settings)))
  /\ buffer_size Demo.walk_artifact = 216
  /\ (0 <= 216 < 2 ^ 32 -> buffer_size Demo.walk_artifact = 216)
  /\ allocations (snd (run (compress_clip Demo.walk_clip tt Demo.walk_settings)))
     = [{| allocation_size := 216; allocation_alignment := 1 |}].
Proof.
  split; [exact walk_clip_run|].
  exact (@compress_clip_allocation Demo.collaborators Demo.walk_clip tt Demo.walk_settings
           Demo.walk_artifact _ walk_clip_run).
Defined.

Lemma compress_clip_region_sizes_witness :
  run (compress_clip Demo.walk_clip tt Demo.walk_settings)
  = (Returned (Some Demo.walk_artifact),
     snd (run (compress_clip Demo.walk_clip tt Demo.walk_settings)))
  /\ constant_region_writes (snd (run (compress_clip Demo.walk_clip tt Demo.walk_settings)))
     = [16]
  /\ animated_region_writes (snd (run (compress_clip Demo.walk_clip tt Demo.walk_settings)))
     = [84]
  /\ (0 <= 16 < 2 ^ 32 ->
      constant_region_writes
        (snd (run (compress_clip Demo.walk_clip tt Demo.walk_settings))) = [16])
  /\ (0 <= 84 < 2 ^ 32 ->
      animated_region_writes
        (snd (run (compress_clip Demo.walk_clip tt Demo.walk_settings))) = [84]).
Proof.
  split; [exact walk_clip_run|].
  exact (@compress_clip_region_sizes Demo.collaborators Demo.walk_clip tt Demo.walk_settings
           Demo.walk_artifact _ walk_clip_run).
Defined.

Lemma long_clip_run :
  run (compress_clip Demo.long_clip tt default_settings)
  = (Returned (Some Demo.long_artifact),
     snd (run (compress_clip Demo.long_clip tt default_settings))).
Proof. vm_compute. reflexivity. Qed.

(** C5 does not hold as written when the animated bytes do not fit in 32
    bits: one animated [Quat_128] rotation track with [2^28] samples owes
    [2^28 * 16 = 2^32] bytes, the [uint32_t] product of line 130 is 0,
    [compress_clip] succeeds with a buffer of 68 bytes and writes no
    animated region at all. *)
Lemma animated_region_size_wraps :
  ~ (forall a tr,
       run (compress_clip Demo.long_clip tt default_settings) = (Returned (Some a), tr) ->
       animated_region_writes tr
       = [@animated_region_size Demo.collaborators Demo.long_clip default_settings]).
Proof.
  intros Hclaim.
  specialize (Hclaim _ _ long_clip_run).
  vm_compute in Hclaim. discriminate Hclaim.
Qed.

End DemoRuns.

(** *** Binary64 arithmetic

    Comparisons, and rounding to nearest even, as the standard library
    specifies them for its primitive floats ([SpecFloat]). *)

Section Binary64Comparisons.
Local Open Scope float_scope.

Lemma SFcompare_refl p : p <> S754_nan -> SFcompare p p = Some Eq.
Proof.
  destruct p as [s|s| |s m e]; intros H; try congruence; cbn.
  - reflexivity.
  - now destruct s.
  - rewrite Z.compare_refl.
    change (PosDef.Pos.compare_cont Eq m m) with (Pos.compare m m).
    rewrite Pos.compare_refl. now destruct s.
Qed.

Lemma SFcompare_antisym a b c :
  SFcompare a b = Some c -> SFcompare b a = Some (CompOpp c).
Proof.
  destruct a as [sa|sa| |sa ma ea], b as [sb|sb| |sb mb eb]; cbn;
    try discriminate; intros [= <-]; try (destruct sa; reflexivity);
    try (destruct sb; reflexivity); try (destruct sa, sb; reflexivity).
  change (PosDef.Pos.compare_cont Eq ma mb) with (Pos.compare ma mb).
  change (PosDef.Pos.compare_cont Eq mb ma) with (Pos.compare mb ma).
  rewrite (Z.compare_antisym ea eb), (Pos.compare_antisym ma mb).
  destruct sa, sb; try reflexivity;
    destruct (ea ?= eb)%Z; cbn; try reflexivity;
    destruct (ma ?= mb)%positive; reflexivity.
Qed.

Lemma is_nan_spec f : is_nan f = true <-> Prim2SF f = S754_nan.
Proof.
  unfold is_nan. rewrite negb_true_iff, eqb_spec. unfold SFeqb. split.
  - intros H. destruct (Prim2SF f) eqn:E; try reflexivity;
      rewrite SFcompare_refl in H by discriminate; discriminate.
  - intros ->. reflexivity.
Qed.

Lemma is_nan_false_spec f : is_nan f = false <-> Prim2SF f <> S754_nan.
Proof.
  rewrite <- is_nan_spec. destruct (is_nan f); split; congruence.
Qed.

Lemma ltb_nan_l a b : is_nan a = true -> (a <? b) = false.
Proof. intros H. apply is_nan_spec in H. rewrite ltb_spec, H. reflexivity. Qed.

Lemma ltb_nan_r a b : is_nan b = true -> (a <? b) = false.
Proof.
  intros H. apply is_nan_spec in H. rewrite ltb_spec, H. unfold SFltb.
  now destruct (Prim2SF a).
Qed.

Lemma leb_not_nan a b : (a <=? b) = true -> is_nan a = false /\ is_nan b = false.
Proof.
  rewrite leb_spec, !is_nan_false_spec. unfold SFleb.
  destruct (Prim2SF a), (Prim2SF b); cbn; intros H; split; congruence.
Qed.

Lemma leb_refl a : is_nan a = false -> (a <=? a) = true.
Proof.
  intros H. apply is_nan_false_spec in H. rewrite leb_spec. unfold SFleb.
  now rewrite SFcompare_refl.
Qed.

(** Among numbers, "not below" is "at least". *)
Lemma ltb_false_leb a b :
  is_nan a = false -> is_nan b = false -> (a <? b) = false -> (b <=? a) = true.
Proof.
  rewrite !is_nan_false_spec, ltb_spec, leb_spec. unfold SFltb, SFleb.
  intros Ha Hb H.
  destruct (SFcompare (Prim2SF a) (Prim2SF b)) as [c|] eqn:E.
  - rewrite (SFcompare_antisym _ _ _ E). now destruct c.
  - destruct (Prim2SF a), (Prim2SF b); cbn in E; congruence.
Qed.

Lemma leb_ltb_false a b : (a <=? b) = true -> (b <? a) = false.
Proof.
  rewrite ltb_spec, leb_spec. unfold SFltb, SFleb.
  destruct (SFcompare (Prim2SF a) (Prim2SF b)) as [c|] eqn:E; [|discriminate].
  rewrite (SFcompare_antisym _ _ _ E). now destruct c.
Qed.




End Binary64Comparisons.

Section Binary64Rounding.
Local Open Scope Z_scope.

Lemma digits2_pos_bounds p :
  2 ^ (Z.pos (digits2_pos p) - 1) <= Z.pos p < 2 ^ Z.pos (digits2_pos p).
Proof.
  induction p as [p IH|p IH|]; cbn [digits2_pos].
  - rewrite Pos2Z.inj_succ, (Pos2Z.inj_xI p).
    replace (Z.succ (Z.pos (digits2_pos p)) - 1) with (Z.succ (Z.pos (digits2_pos p) - 1)) by lia.
    rewrite !Z.pow_succ_r by lia.
    destruct IH as [IHl IHu]. revert IHl IHu.
    generalize (2 ^ (Z.pos (digits2_pos p) - 1)) (2 ^ Z.pos (digits2_pos p)).
    intros; lia.
  - rewrite Pos2Z.inj_succ, (Pos2Z.inj_xO p).
    replace (Z.succ (Z.pos (digits2_pos p)) - 1) with (Z.succ (Z.pos (digits2_pos p) - 1)) by lia.
    rewrite !Z.pow_succ_r by lia.
    destruct IH as [IHl IHu]. revert IHl IHu.
    generalize (2 ^ (Z.pos (digits2_pos p) - 1)) (2 ^ Z.pos (digits2_pos p)).
    intros; lia.
  - cbn. lia.
Qed.

Lemma Zdigits2_bounds z :
  0 < z -> 2 ^ (Zdigits2 z - 1) <= z < 2 ^ Zdigits2 z.
Proof.
  destruct z as [|p|p]; try lia. intros _. apply digits2_pos_bounds.
Qed.

Lemma Zdigits2_lower z k : 0 < z -> 2 ^ (k - 1) <= z -> k <= Zdigits2 z.
Proof.
  intros Hz Hk. destruct (Zdigits2_bounds z Hz) as [_ Hu].
  destruct (Z_le_gt_dec k (Zdigits2 z)) as [|Hgt]; [assumption|exfalso].
  assert (2 ^ Zdigits2 z <= 2 ^ (k - 1)) by (apply Z.pow_le_mono_r; lia). lia.
Qed.

Lemma Zdigits2_upper z k : 0 < z -> z < 2 ^ k -> Zdigits2 z <= k.
Proof.
  intros Hz Hk. destruct (Zdigits2_bounds z Hz) as [Hl _].
  destruct (Z_le_gt_dec (Zdigits2 z) k) as [|Hgt]; [assumption|exfalso].
  assert (2 ^ k <= 2 ^ (Zdigits2 z - 1)) by (apply Z.pow_le_mono_r; lia).
  lia.
Qed.

Lemma shr_1_m mrs : 0 <= shr_m mrs -> shr_m (shr_1 mrs) = shr_m mrs / 2.
Proof.
  destruct mrs as [m r s]. cbn [shr_m]. intros Hm.
  destruct m as [|[p|p|]|p]; cbn [shr_1 shr_m]; try lia.
  - reflexivity.
  - rewrite (Pos2Z.inj_xI p). apply Z.div_unique with 1; lia.
  - rewrite (Pos2Z.inj_xO p). apply Z.div_unique with 0; lia.
  - reflexivity.
Qed.

Lemma iter_shr_1_m p : forall mrs,
  0 <= shr_m mrs -> shr_m (iter_pos shr_1 p mrs) = shr_m mrs / 2 ^ Z.pos p.
Proof.
  induction p as [p IH|p IH|]; intros mrs Hm; cbn [iter_pos].
  - assert (H1 : 0 <= shr_m (shr_1 mrs)) by (rewrite shr_1_m by assumption; apply Z.div_pos; lia).
    assert (H2 : 0 <= shr_m (iter_pos shr_1 p (shr_1 mrs)))
      by (rewrite IH by assumption; apply Z.div_pos; [assumption|apply Z.pow_pos_nonneg; lia]).
    rewrite IH, IH, shr_1_m by assumption.
    rewrite !Z.div_div by (try apply Z.pow_pos_nonneg; lia).
    f_equal. rewrite (Pos2Z.inj_xI p).
    replace (2 * Z.pos p + 1) with (1 + Z.pos p + Z.pos p) by lia.
    rewrite !Z.pow_add_r by lia. lia.
  - assert (H2 : 0 <= shr_m (iter_pos shr_1 p mrs))
      by (rewrite IH by assumption; apply Z.div_pos; [assumption|apply Z.pow_pos_nonneg; lia]).
    rewrite IH, IH by assumption.
    rewrite !Z.div_div by (try apply Z.pow_pos_nonneg; lia).
    f_equal. rewrite (Pos2Z.inj_xO p).
    replace (2 * Z.pos p) with (Z.pos p + Z.pos p) by lia.
    rewrite !Z.pow_add_r by lia. lia.
  - rewrite shr_1_m by assumption. reflexivity.
Qed.

Lemma shr_m_of_loc m l : shr_m (shr_record_of_loc m l) = m.
Proof. destruct l as [|[]]; reflexivity. Qed.

(** Shifting a record right: the mantissa is divided, the exponent grows. *)
Lemma shr_spec mrs n :
  0 <= shr_m mrs -> 0 <= n ->
  exists mrs', (forall e', shr mrs e' n = (mrs', e' + n))
               /\ shr_m mrs' = shr_m mrs / 2 ^ n.
Proof.
  intros Hm Hn. destruct n as [|p|p]; try lia.
  - exists mrs. split; [intros e'; cbn; f_equal; lia|]. now rewrite Z.pow_0_r, Z.div_1_r.
  - exists (iter_pos shr_1 p mrs). split; [reflexivity|]. now apply iter_shr_1_m.
Qed.

Lemma round_nearest_even_bounds m l :
  m <= round_nearest_even m l <= m + 1.
Proof.
  destruct l as [|[]]; cbn [round_nearest_even]; try lia.
  destruct (Z.even m); lia.
Qed.

Lemma fexp_unclamped e :
  emin prec emax <= e - prec -> fexp prec emax e = e - prec.
Proof. unfold fexp. intros H. apply Z.max_l. exact H. Qed.


Lemma pow2_split d :
  53 <= d -> 2 ^ (d - 1) = 2 ^ (d - 53) * 2 ^ 52 /\ 2 ^ d = 2 ^ (d - 53) * 2 ^ 53.
Proof.
  intros Hd. rewrite <- !Z.pow_add_r by lia. split; f_equal; lia.
Qed.

(** Rounding a mantissa of at least 53 digits, away from the subnormal range
    and from overflow: the mantissa of the result does not depend on the
    exponent, which is carried along. *)
Lemma binary_round_aux_normal s q l :
  0 < q -> 53 <= Zdigits2 q ->
  exists m' k,
    Zdigits2 q - 53 <= k <= Zdigits2 q - 52
    /\ Zdigits2 (Z.pos m') = 53
    /\ q - 2 ^ (Zdigits2 q - 53) < Z.pos m' * 2 ^ k <= q + 2 ^ (Zdigits2 q - 53)
    /\ forall e,
         -1074 <= Zdigits2 q + e - 53 ->
         Zdigits2 q + e - 52 <= 971 ->
         binary_round_aux prec emax s q e l = S754_finite s m' (e + k).
Proof.
  intros Hq Hd. set (d := Zdigits2 q) in *.
  destruct (shr_spec (shr_record_of_loc q l) (d - 53)) as (M1 & Hshr1 & Hm1);
    [rewrite shr_m_of_loc; lia | lia |].
  rewrite shr_m_of_loc in Hm1.
  assert (HM1 : 2 ^ 52 <= shr_m M1 < 2 ^ 53).
  { destruct (Zdigits2_bounds q Hq) as [Hl Hu]. fold d in Hl, Hu.
    destruct (pow2_split d Hd) as [El Eu]. rewrite El in Hl. rewrite Eu in Hu.
    assert (0 < 2 ^ (d - 53)) by (apply Z.pow_pos_nonneg; lia).
    rewrite Hm1. split.
    - apply Z.div_le_lower_bound; assumption.
    - apply Z.div_lt_upper_bound; assumption. }
  set (m2 := round_nearest_even (shr_m M1) (loc_of_shr_record M1)).
  assert (Hm2 : 2 ^ 52 <= m2 <= 2 ^ 53).
  { pose proof (round_nearest_even_bounds (shr_m M1) (loc_of_shr_record M1)) as H.
    fold m2 in H. lia. }
  assert (Hstage1 : forall e, -1074 <= d + e - 53 ->
            shr_fexp prec emax q e l = (M1, e + (d - 53))).
  { intros e He. unfold shr_fexp. fold d.
    rewrite fexp_unclamped by (change prec with 53; change emax with 1024; unfold emin; lia).
    change prec with 53. replace (d + e - 53 - e) with (d - 53) by lia. apply Hshr1. }
  assert (Hvalue : q - 2 ^ (d - 53) < m2 * 2 ^ (d - 53) <= q + 2 ^ (d - 53)).
  { pose proof (round_nearest_even_bounds (shr_m M1) (loc_of_shr_record M1)) as H.
    fold m2 in H. rewrite Hm1 in H.
    assert (Hp : 0 < 2 ^ (d - 53)) by (apply Z.pow_pos_nonneg; lia).
    pose proof (Z.mul_div_le q (2 ^ (d - 53)) Hp) as Hle.
    pose proof (Z.mul_succ_div_gt q (2 ^ (d - 53)) Hp) as Hgt.
    revert H Hle Hgt. generalize (q / 2 ^ (d - 53)). intros q1 H Hle Hgt. nia. }
  destruct (Z.eq_dec m2 (2 ^ 53)) as [Etop|Hbelow].
  - exists (4503599627370496%positive), (d - 52). split; [lia|]. split; [reflexivity|].
    split.
    { replace (d - 52) with (1 + (d - 53)) by lia. rewrite Z.pow_add_r by lia.
      rewrite Etop in Hvalue. change (2 ^ 53) with (4503599627370496 * 2 ^ 1) in Hvalue.
      rewrite Z.mul_assoc. exact Hvalue. }
    intros e He Ho. unfold binary_round_aux. rewrite (Hstage1 e He). fold m2. rewrite Etop.
    unfold shr_fexp. change (Zdigits2 (2 ^ 53)) with 54.
    rewrite fexp_unclamped by (change prec with 53; change emax with 1024; unfold emin; lia).
    change prec with 53. replace (54 + (e + (d - 53)) - 53 - (e + (d - 53))) with 1 by lia.
    cbn [shr shr_record_of_loc iter_pos]. change (shr_m (shr_1 _)) with (Z.pos 4503599627370496).
    cbv beta iota.
    replace (e + (d - 53) + 1 <=? emax - 53) with true
      by (symmetry; apply Z.leb_le; change emax with 1024; lia).
    f_equal. lia.
  - assert (Hdigits : Zdigits2 m2 = 53).
    { apply Z.le_antisymm.
      - apply Zdigits2_upper; lia.
      - apply Zdigits2_lower; [lia|]. change (2 ^ (53 - 1)) with (2 ^ 52). lia. }
    destruct m2 as [|m'|m'] eqn:Em2; try lia.
    exists m', (d - 53). split; [lia|]. split; [exact Hdigits|].
    split; [exact Hvalue|].
    intros e He Ho. unfold binary_round_aux. rewrite (Hstage1 e He). fold m2. rewrite Em2.
    unfold shr_fexp. rewrite Hdigits.
    rewrite fexp_unclamped by (change prec with 53; change emax with 1024; unfold emin; lia).
    change prec with 53. replace (53 + (e + (d - 53)) - 53 - (e + (d - 53))) with 0 by lia.
    cbn [shr shr_record_of_loc shr_m].
    replace (e + (d - 53) <=? emax - 53) with true
      by (symmetry; apply Z.leb_le; change emax with 1024; lia).
    reflexivity.
Qed.

Lemma div_eucl_pair a b : Z.div_eucl a b = (a / b, a mod b).
Proof. unfold Z.div, Z.modulo. destruct (Z.div_eucl a b). reflexivity. Qed.

Lemma Zdigits2_53 m : Zdigits2 (Z.pos m) = 53 -> 2 ^ 52 <= Z.pos m < 2 ^ 53.
Proof.
  intros H. pose proof (Zdigits2_bounds (Z.pos m) eq_refl) as B. rewrite H in B. exact B.
Qed.

(** The quotient of two 53-digit mantissas: the same digits whatever the
    exponents, which only move the exponent of the result. *)
Lemma SFdiv_core_binary_normal m1 m2 :
  Zdigits2 (Z.pos m1) = 53 -> Zdigits2 (Z.pos m2) = 53 ->
  exists q l,
    0 < q /\ 53 <= Zdigits2 q <= 54
    /\ q * Z.pos m2 <= Z.pos m1 * 2 ^ 53 < (q + 1) * Z.pos m2
    /\ forall e1 e2, -1074 <= e1 - e2 - 53 ->
         SFdiv_core_binary prec emax (Z.pos m1) e1 (Z.pos m2) e2 = (q, e1 - e2 - 53, l).
Proof.
  intros H1 H2.
  pose proof (Zdigits2_53 m1 H1) as B1. pose proof (Zdigits2_53 m2 H2) as B2.
  change (2 ^ 52) with 4503599627370496 in *. change (2 ^ 53) with 9007199254740992 in *.
  set (a := Z.pos m1 * 2 ^ 53).
  assert (Hq : 2 ^ 52 <= a / Z.pos m2 < 2 ^ 54).
  { unfold a. change (2 ^ 52) with 4503599627370496. change (2 ^ 53) with 9007199254740992.
    change (2 ^ 54) with 18014398509481984. split.
    - apply Z.div_le_lower_bound; [lia|]. nia.
    - apply Z.div_lt_upper_bound; [lia|]. nia. }
  exists (a / Z.pos m2), (new_location (Z.pos m2) (a mod Z.pos m2)).
  split; [change (2 ^ 52) with 4503599627370496 in Hq; lia|]. split.
  - split.
    + apply Zdigits2_lower; [change (2 ^ 52) with 4503599627370496 in Hq; lia|].
      change (53 - 1) with 52. lia.
    + apply Zdigits2_upper; [change (2 ^ 52) with 4503599627370496 in Hq; lia|]. lia.
  - split.
    { pose proof (Z.mul_div_le a (Z.pos m2) eq_refl) as Hle.
      pose proof (Z.mul_succ_div_gt a (Z.pos m2) eq_refl) as Hgt.
      unfold a in *. lia. }
    intros e1 e2 He. unfold SFdiv_core_binary. rewrite H1, H2. cbv zeta.
    rewrite fexp_unclamped by (change prec with 53; change emax with 1024; unfold emin; lia).
    change prec with 53.
    replace (Z.min (53 + e1 - (53 + e2) - 53) (e1 - e2)) with (e1 - e2 - 53) by lia.
    replace (e1 - e2 - (e1 - e2 - 53)) with 53 by lia.
    cbv iota. rewrite Z.shiftl_mul_pow2 by lia. fold a.
    rewrite div_eucl_pair. reflexivity.
Qed.

(** Dividing a normal number by two lowers its exponent. *)
Lemma SFdiv_by_two s m e :
  Zdigits2 (Z.pos m) = 53 -> -1072 <= e -> e <= 972 ->
  SFdiv prec emax (S754_finite s m e) (S754_finite false 4503599627370496 (-51))
  = S754_finite s m (e - 1).
Proof.
  intros Hm Hlow Hhigh. unfold SFdiv, SFdiv_core_binary.
  rewrite Hm. change (Zdigits2 (Z.pos 4503599627370496)) with 53. cbv zeta.
  rewrite fexp_unclamped by (change prec with 53; change emax with 1024; unfold emin; lia).
  change prec with 53.
  replace (Z.min (53 + e - (53 + -51) - 53) (e - -51)) with (e - 2) by lia.
  replace (e - -51 - (e - 2)) with 53 by lia.
  cbv iota. rewrite Z.shiftl_mul_pow2 by lia. rewrite div_eucl_pair.
  replace (Z.pos m * 2 ^ 53 / 4503599627370496) with (Z.pos m~0)
    by (apply Z.div_unique with 0; [lia|]; rewrite (Pos2Z.inj_xO m);
        change (2 ^ 53) with 9007199254740992; lia).
  replace ((Z.pos m * 2 ^ 53) mod 4503599627370496) with 0
    by (apply Z.mod_unique with (Z.pos m~0); [lia|]; rewrite (Pos2Z.inj_xO m);
        change (2 ^ 53) with 9007199254740992; lia).
  change (new_location 4503599627370496 0) with loc_Exact.
  unfold binary_round_aux, shr_fexp.
  assert (Hd : Zdigits2 (Z.pos m~0) = 54).
  { cbn [Zdigits2 digits2_pos] in Hm |- *. rewrite Pos2Z.inj_succ, Hm. reflexivity. }
  rewrite Hd.
  rewrite fexp_unclamped by (change prec with 53; change emax with 1024; unfold emin; lia).
  change prec with 53. replace (54 + (e - 2) - 53 - (e - 2)) with 1 by lia.
  cbn [shr shr_record_of_loc iter_pos shr_1 shr_m shr_r shr_s orb loc_of_shr_record
       round_nearest_even].
  rewrite Hm.
  rewrite fexp_unclamped by (change prec with 53; change emax with 1024; unfold emin; lia).
  change prec with 53.
  replace (53 + (e - 2 + 1) - 53 - (e - 2 + 1)) with 0 by lia.
  cbn [shr shr_m]. rewrite ?Bool.xorb_false_r.
  replace (e - 2 + 1 <=? emax - 53) with true
    by (symmetry; apply Z.leb_le; change emax with 1024; lia).
  f_equal. lia.
Qed.



End Binary64Rounding.

Section Binary64Bounds.
Local Open Scope Z_scope.





(** The product of two 53-digit mantissas. *)
Lemma Zdigits2_product m1 m2 :
  Zdigits2 (Z.pos m1) = 53 -> Zdigits2 (Z.pos m2) = 53 ->
  105 <= Zdigits2 (Z.pos (m1 * m2)) <= 106.
Proof.
  intros H1 H2.
  pose proof (Zdigits2_53 m1 H1) as B1. pose proof (Zdigits2_53 m2 H2) as B2.
  change (2 ^ 52) with 4503599627370496 in *. change (2 ^ 53) with 9007199254740992 in *.
  rewrite Pos2Z.inj_mul. split.
  - apply Zdigits2_lower; [lia|].
    change (2 ^ (105 - 1)) with (4503599627370496 * 4503599627370496). nia.
  - apply Zdigits2_upper; [lia|].
    change (2 ^ 106) with (9007199254740992 * 9007199254740992). nia.
Qed.

End Binary64Bounds.

(** *** Raw tracks *)

Section TrackFacts.
Import Track.
Local Open Scope float_scope.





Lemma to_uint32_range value k : to_uint32 value = Some k -> (0 <= k < 2 ^ 32)%Z.
Proof.
  unfold to_uint32. destruct value as [v|]; [|discriminate].
  destruct (0 <=? v)%Z eqn:E1; [|discriminate].
  destruct (v <? 2 ^ 32)%Z eqn:E2; [|discriminate].
  intros [= <-]. apply Z.leb_le in E1. apply Z.ltb_lt in E2. lia.
Qed.





(** The keys of a track with [n] samples, in terms of the frame position. *)
Lemma interpolation_keys n duration t :
  (0 < n < 2 ^ 32)%Z ->
  let position := Scalar64.clamp t 0 duration * (of_uint32 (n - 1) / duration) in
  calculate_interpolation_keys n duration t
  = match to_uint32 (floor position) with
    | None => None
    | Some frame0 =>
        Some (frame0, Z.min (u32 (frame0 + 1)) (n - 1), position - of_uint32 frame0)
    end.
Proof.
  intros Hn. cbv zeta. unfold calculate_interpolation_keys.
  rewrite (u32_small (n - 1)) by lia. reflexivity.
Qed.











End TrackFacts.

(** *** The decoder: seeking one bone against decoding the pose *)

Section DecoderFacts.
Import Decoder.
Context {C : Collaborators} {N : Numerics}.

(** Decoding a bone moves the cursor as stepping over it does. *)
Lemma decode_moves_as_skip a keys bone c :
  snd (decode_translation a keys bone (snd (decode_rotation a keys bone c)))
  = skip_bone a bone c.
Proof.
  destruct keys as [[frame0 frame1] alpha]. destruct c as [cc rc ac].
  unfold decode_translation, decode_rotation, skip_bone.
  destruct (track_kind a bone 0), (track_kind a bone 1),
    (rotations_reduced (artifact_header a)), (translations_reduced (artifact_header a));
    cbn [snd fst constant_cursor range_cursor animated_cursor constant_bytes
           animated_bytes get_packed_vector_size];
    f_equal; lia.
Qed.

Lemma store_length (pose : list Transform) i f : length (store pose i f) = length pose.
Proof.
  revert i. induction pose as [|x rest IH]; intros [|i]; cbn [store length];
    try reflexivity. now rewrite IH.
Qed.

Lemma store_same (pose : list Transform) i f x :
  nth_error pose i = Some x -> nth_error (store pose i f) i = Some (f x).
Proof.
  revert i. induction pose as [|y rest IH]; intros [|i]; cbn [store nth_error];
    try discriminate.
  - now intros [= ->].
  - apply IH.
Qed.

Lemma store_other (pose : list Transform) i j f :
  i <> j -> nth_error (store pose i f) j = nth_error pose j.
Proof.
  revert i j. induction pose as [|y rest IH]; intros [|i] [|j] Hne;
    cbn [store nth_error]; try reflexivity; try congruence.
  apply IH. congruence.
Qed.

(** Writing the two halves of bone [bone]. *)
Lemma write_bone (pose : list Transform) bone (x : Transform) old :
  (0 <= bone)%Z -> nth_error pose (Z.to_nat bone) = Some old ->
  exists pose',
    write_all pose [write_bone_rotation bone (fst x); write_bone_translation bone (snd x)]
    = Some pose'
    /\ length pose' = length pose
    /\ nth_error pose' (Z.to_nat bone) = Some x
    /\ (forall j, j <> Z.to_nat bone -> nth_error pose' j = nth_error pose j).
Proof.
  intros Hbone Hold.
  assert (Hlt : (Z.to_nat bone < length pose)%nat).
  { apply nth_error_Some. congruence. }
  assert (Hin : forall l : list Transform, length l = length pose ->
                  (0 <=? bone) && (bone <? Z.of_nat (length l)) = true).
  { intros l Hl. rewrite Hl. apply andb_true_intro. split;
      [apply Z.leb_le | apply Z.ltb_lt]; lia. }
  eexists. cbn [write_all write].
  rewrite (Hin pose eq_refl), (Hin _ (store_length pose _ _)).
  split; [reflexivity|].
  split; [now rewrite !store_length|].
  split.
  - erewrite store_same; [|erewrite store_same; [reflexivity | exact Hold]].
    now destruct x.
  - intros j Hj. rewrite !store_other by congruence. reflexivity.
Qed.

Lemma write_all_app (pose : list Transform) calls1 calls2 :
  write_all pose (calls1 ++ calls2)
  = match write_all pose calls1 with
    | Some pose' => write_all pose' calls2
    | None => None
    end.
Proof.
  revert pose. induction calls1 as [|call rest IH]; intros pose; cbn [write_all app].
  - reflexivity.
  - destruct (write pose call); [apply IH | reflexivity].
Qed.

(** The pose loop over [count] bones from [bone] on fills exactly their
    slots of the buffer, each with what the bone decodes to at the cursor
    the seek reaches. *)
Lemma pose_loop_fills a keys count :
  forall bone c (pose : list Transform),
    (0 <= bone)%Z -> (Z.to_nat bone + count <= length pose)%nat ->
    exists pose',
      write_all pose (pose_loop a keys count bone c) = Some pose'
      /\ length pose' = length pose
      /\ (forall k, (k < count)%nat ->
            nth_error pose' (Z.to_nat bone + k)
            = Some (decode_bone a keys (bone + Z.of_nat k) (seek a k bone c)))
      /\ (forall j, (j < Z.to_nat bone)%nat -> nth_error pose' j = nth_error pose j).
Proof.
  induction count as [|count IH]; intros bone c pose Hbone Hlen.
  - exists pose. cbn [pose_loop write_all]. repeat split; trivial. intros k Hk. lia.
  - cbn [pose_loop].
    destruct (nth_error pose (Z.to_nat bone)) as [old|] eqn:Hold.
    2:{ apply nth_error_None in Hold. lia. }
    destruct (write_bone pose bone (decode_bone a keys bone c) old Hbone Hold)
      as (pose1 & Hw1 & Hl1 & Hat1 & Hother1).
    destruct (IH (bone + 1)%Z
                 (snd (decode_translation a keys bone (snd (decode_rotation a keys bone c))))
                 pose1 ltac:(lia) ltac:(rewrite Hl1; lia))
      as (pose2 & Hw2 & Hl2 & Hat2 & Hother2).
    exists pose2.
    split.
    { change (write_all pose
                ([write_bone_rotation bone (fst (decode_bone a keys bone c));
                  write_bone_translation bone (snd (decode_bone a keys bone c))]
                 ++ pose_loop a keys count (bone + 1)
                      (snd (decode_translation a keys bone
                              (snd (decode_rotation a keys bone c))))) = Some pose2).
      now rewrite write_all_app, Hw1. }
    split; [congruence|].
    split.
    + intros [|k] Hk.
      * rewrite Nat.add_0_r, Z.add_0_r. cbn [seek].
        rewrite Hother2 by lia. exact Hat1.
      * specialize (Hat2 k ltac:(lia)).
        replace (Z.to_nat bone + S k)%nat with (Z.to_nat (bone + 1) + k)%nat by lia.
        rewrite Hat2. cbn [seek]. rewrite decode_moves_as_skip.
        f_equal. f_equal. lia.
    + intros j Hj. rewrite Hother2 by lia. apply Hother1. lia.
Qed.

(** C9.  For every artifact, sample time [t] and bone index [b] below the
    bone count, [decompress_pose] fills the pose buffer, and what it leaves
    for bone [b] is exactly the rotation and translation [decompress_bone]
    returns for [b] at [t]. *)
Theorem decompress_bone_matches_pose a t b :
  (0 <= b < header_num_bones (artifact_header a))%Z ->
  exists pose,
    decompressed_pose a t = Some pose
    /\ nth_error pose (Z.to_nat b) = Some (decompress_bone a t b).
Proof.
  intros Hb. unfold decompressed_pose, decompress_pose.
  set (keys := interpolation_keys _ _ t).
  set (count := Z.to_nat (header_num_bones (artifact_header a))).
  destruct (pose_loop_fills a keys count 0 start
              (repeat (quat_identity, vector_zero) count) ltac:(lia)
              ltac:(rewrite repeat_length; cbn; lia))
    as (pose & Hw & _ & Hat & _).
  exists pose. split; [exact Hw|].
  specialize (Hat (Z.to_nat b) ltac:(lia)).
  cbn [Z.to_nat Nat.add] in Hat. rewrite Hat.
  rewrite Z.add_0_l, Z2Nat.id by lia. reflexivity.
Qed.

End DecoderFacts.

(** The hypothesis of C9 at a concrete artifact: the second of two bones. *)
Lemma decompress_bone_matches_pose_witness :
  (0 <= 1 < header_num_bones (Decoder.artifact_header Decoder.Demo.walk_blob))%Z
  /\ exists pose,
       Decoder.decompressed_pose (C:=Encoder.Demo.collaborators)
         (N:=Decoder.Demo.numerics) Decoder.Demo.walk_blob 1 = Some pose
       /\ nth_error pose (Z.to_nat 1)
          = Some (Decoder.decompress_bone (C:=Encoder.Demo.collaborators)
                    (N:=Decoder.Demo.numerics) Decoder.Demo.walk_blob 1 1).
Proof.
  assert (Hb : (0 <= 1 < header_num_bones
                           (Decoder.artifact_header Decoder.Demo.walk_blob))%Z)
    by (cbn; lia).
  split; [exact Hb|].
  exact (decompress_bone_matches_pose (C:=Encoder.Demo.collaborators)
           (N:=Decoder.Demo.numerics) Decoder.Demo.walk_blob 1 1 Hb).
Defined.

(** *** Scalars and quaternions *)

Section DegreesFacts.
Local Open Scope Z_scope.

(** [(x / 360) * pi] and [(x / 180) * pi] on a normal [x] of exponent at
    least -1065: 360 and 180 have the same mantissa, so have the two
    quotients, and the two products; the exponents are one apart. *)
Lemma SFmul_SFdiv_360_180 s m e :
  Zdigits2 (Z.pos m) = 53 -> -1065 <= e -> e <= 971 ->
  exists m' e',
    Zdigits2 (Z.pos m') = 53 /\ -1072 <= e' <= 972
    /\ SFmul prec emax
         (SFdiv prec emax (S754_finite s m e) (S754_finite false 6333186975989760 (-44)))
         (S754_finite false 7074237752952144 (-51))
       = S754_finite s m' (e' - 1)
    /\ SFmul prec emax
         (SFdiv prec emax (S754_finite s m e) (S754_finite false 6333186975989760 (-45)))
         (S754_finite false 7074237752952144 (-51))
       = S754_finite s m' e'.
Proof.
  intros Hm Hlow Hhigh.
  destruct (SFdiv_core_binary_normal m 6333186975989760 Hm eq_refl)
    as (q & l & Hq & Hdq & _ & Hcore).
  destruct (binary_round_aux_normal (xorb s false) q l Hq (proj1 Hdq))
    as (my & k & Hk & Hmy & _ & Hquotient).
  pose proof (Zdigits2_product my 7074237752952144 Hmy eq_refl) as Hdp.
  destruct (binary_round_aux_normal (xorb (xorb s false) false)
              (Z.pos (my * 7074237752952144)) loc_Exact eq_refl)
    as (mz & k' & Hk' & Hmz & _ & Hproduct); [lia|].
  exists mz, (e - -45 - 53 + k + -51 + k'). split; [exact Hmz|]. split; [lia|].
  unfold SFdiv. rewrite !Hcore by lia. rewrite !Hquotient by lia.
  unfold SFmul. rewrite !Hproduct by lia.
  rewrite !Bool.xorb_false_r. split; f_equal; lia.
Qed.

Lemma normal_mantissa m e :
  bounded prec emax m e = true -> -1074 < e -> Zdigits2 (Z.pos m) = 53 /\ e <= 971.
Proof.
  unfold bounded, canonical_mantissa, fexp, emin. change prec with 53. change emax with 1024.
  intros H He. apply andb_prop in H. destruct H as [Hc Hb].
  apply Z.eqb_eq in Hc. apply Z.leb_le in Hb. cbn [Zdigits2]. lia.
Qed.

End DegreesFacts.

Import Scalar64 Quat32.

(** In binary64, [deg2rad] is exactly half of [(deg / 180) * ACL_PI_64] on
    every input of magnitude at least [2^-1013], infinities included. *)
Lemma deg2rad_half (deg : float) :
  (0x1p-1013 <=? abs deg)%float = true ->
  deg2rad deg = (conventional_deg2rad deg / 2)%float.
Proof.
  intros Hdeg. apply Prim2SF_inj. unfold deg2rad, conventional_deg2rad.
  rewrite !div_spec, !mul_spec, !div_spec.
  rewrite leb_spec, abs_spec in Hdeg.
  pose proof (Prim2SF_valid deg) as Hvalid.
  change (Prim2SF 360) with (S754_finite false 6333186975989760 (-44)).
  change (Prim2SF 180) with (S754_finite false 6333186975989760 (-45)).
  change (Prim2SF ACL_PI_64) with (S754_finite false 7074237752952144 (-51)).
  change (Prim2SF 2) with (S754_finite false 4503599627370496 (-51)).
  destruct (Prim2SF deg) as [s|s| |s m e].
  - discriminate Hdeg.
  - destruct s; reflexivity.
  - discriminate Hdeg.
  - assert (He : (-1065 <= e)%Z).
    { revert Hdeg. vm_compute (Prim2SF 0x1p-1013). unfold SFleb, SFabs, SFcompare.
      destruct (Z.compare_spec (-1065) e); first [lia | discriminate]. }
    destruct (normal_mantissa m e Hvalid) as [Hm Hhigh]; [lia|].
    unfold SF64mul, SF64div.
    destruct (SFmul_SFdiv_360_180 s m e Hm He Hhigh) as (m' & e' & Hm' & He' & -> & ->).
    symmetry. apply SFdiv_by_two; [exact Hm'|lia|lia].
Qed.

(** C10, as amended.  [deg2rad(deg)] is [(deg / 360) * ACL_PI_64] in
    binary64, the constant being the double nearest 3.141592654.  It is
    exactly half of the conventional conversion evaluated as [(deg / 180) *
    ACL_PI_64] for every input that is at least [2^-1013], about
    [1.14e-305], in magnitude (the infinities included), that is a zero, or
    that is the NaN.  At 180 degrees
    it evaluates to [ACL_PI_64 / 2 = 1.570796327] and not to [ACL_PI_64],
    and is half of the conversion evaluated in the other order, [deg *
    ACL_PI_64 / 180], too. *)
Theorem deg2rad_is_half_of_conventional :
  (forall deg : float, deg2rad deg = (deg / 360 * ACL_PI_64)%float)
  /\ (exists pi : Q, exact_value (Prim2SF ACL_PI_64) = Some pi
                     /\ (Qabs (pi - 3.141592654) < 1 # 10 ^ 15)%Q)
  /\ (forall deg : float,
        (0x1p-1013 <=? abs deg)%float = true \/ (deg =? 0)%float = true \/ deg = nan ->
        deg2rad deg = (conventional_deg2rad deg / 2)%float)
  /\ deg2rad 180 = (ACL_PI_64 / 2)%float
  /\ deg2rad 180 = (conventional_deg2rad_multiplying_first 180 / 2)%float
  /\ deg2rad 180 = 1.570796327%float
  /\ deg2rad 180 <> ACL_PI_64.
Proof.
  split; [intros deg; reflexivity|].
  split.
  { eexists. split; [vm_compute; reflexivity|]. vm_compute. reflexivity. }
  split.
  { intros deg [Hnormal|[Hzero| ->]].
    - now apply deg2rad_half.
    - apply Prim2SF_inj. unfold deg2rad, conventional_deg2rad.
      rewrite !div_spec, !mul_spec, !div_spec.
      rewrite eqb_spec in Hzero. change (Prim2SF 0) with (S754_zero false) in Hzero.
      destruct (Prim2SF deg) as [[]|[]| |[]]; try discriminate Hzero; reflexivity.
    - reflexivity. }
  repeat split; try (vm_compute; reflexivity).
  intros Heq. apply (f_equal Prim2SF) in Heq. vm_compute in Heq. discriminate Heq.
Qed.

(** The hypothesis of C10 at 3 degrees. *)
Lemma deg2rad_is_half_of_conventional_witness :
  ((0x1p-1013 <=? abs 3)%float = true \/ (3 =? 0)%float = true \/ 3%float = nan)
  /\ deg2rad 3 = (conventional_deg2rad 3 / 2)%float.
Proof.
  assert (H : (0x1p-1013 <=? abs 3)%float = true \/ (3 =? 0)%float = true \/ 3%float = nan)
    by (left; reflexivity).
  split; [exact H|].
  exact (proj1 (proj2 (proj2 deg2rad_is_half_of_conventional)) 3%float H).
Defined.

(** C10, as stated, fails for some doubles: at [7e-306] the quotient by 360
    is below the normal range, and is rounded at another bit than the
    quotient by 180; and the conversion evaluated as [deg * ACL_PI_64 / 180]
    rounds differently from [deg2rad] already at 3 degrees. *)
Lemma deg2rad_half_fails_by_rounding :
  ~ (forall deg : float, deg2rad deg = (conventional_deg2rad deg / 2)%float)
  /\ ~ (forall deg : float,
          deg2rad deg = (conventional_deg2rad_multiplying_first deg / 2)%float).
Proof.
  split; intros Hclaim.
  - specialize (Hclaim 7e-306%float). apply (f_equal Prim2SF) in Hclaim.
    vm_compute in Hclaim. discriminate Hclaim.
  - specialize (Hclaim 3%float). apply (f_equal Prim2SF) in Hclaim.
    vm_compute in Hclaim. discriminate Hclaim.
Qed.

(** C2: what the code does.  [quat_normalize] maps the identity quaternion
    [(0, 0, 0, 1)], whose length is 1, to [(0, 0, 0, 0.70710677)]: the length
    it divides by is [sqrt(0*0 + (0+0) + (0+0) + (1+1))].  The exact squared
    length of the result is below 0.51, and [quat_length] itself gives it
    [1.1892071], not 1. *)
Theorem quat_normalize_identity_is_not_unit :
  quat_normalize quat_identity
  = quat_set f32_zero f32_zero f32_zero (S754_finite false 11863283 (-24))
  /\ (exists n, exact_length_squared (quat_normalize quat_identity) = Some n
                /\ (n < 51 # 100)%Q)
  /\ quat_length (quat_normalize quat_identity) = S754_finite false 9975792 (-23)
  /\ quat_length (quat_normalize quat_identity) <> f32_one.
Proof.
  split; [vm_compute; reflexivity|].
  split.
  { eexists. split; [vm_compute; reflexivity|]. reflexivity. }
  split; [vm_compute; reflexivity|].
  vm_compute. discriminate.
Qed.

(** * Further properties of the code *)

(** ** acl/core/memory.h *)

Section MemoryFacts.
Import Pointers.

Lemma pow2_land_pred k : 0 <= k -> Z.land (2 ^ k) (2 ^ k - 1) = 0.
Proof.
  intros Hk. replace (2 ^ k - 1) with (Z.ones k) by (rewrite Z.ones_equiv; lia).
  rewrite Z.land_ones by lia.
  apply Z.mod_same. apply Z.pow_nonzero; lia.
Qed.

Lemma land_pred_pow2 n : 0 < n -> Z.land n (n - 1) = 0 -> n = 2 ^ Z.log2 n.
Proof.
  intros Hn Hland.
  pose proof (Z.log2_spec n Hn) as [Hlo Hhi].
  pose proof (Z.log2_nonneg n) as Hk.
  destruct (Z.eq_dec n (2 ^ Z.log2 n)) as [|Hne]; [assumption|exfalso].
  assert (Hlog : Z.log2 (n - 1) = Z.log2 n).
  { apply Z.log2_unique; [assumption|]. lia. }
  assert (Hb1 : Z.testbit n (Z.log2 n) = true) by (apply Z.bit_log2; lia).
  assert (Hb2 : Z.testbit (n - 1) (Z.log2 n) = true).
  { rewrite <- Hlog. apply Z.bit_log2.
    assert (0 < 2 ^ Z.log2 n) by (apply Z.pow_pos_nonneg; lia). lia. }
  apply (f_equal (fun v => Z.testbit v (Z.log2 n))) in Hland.
  rewrite Z.land_spec, Hb1, Hb2, Z.bits_0 in Hland. discriminate.
Qed.

(** The bit test of [is_power_of_two], on an in-range [size_t]. *)
Lemma is_power_of_two_spec n :
  0 <= n < 2 ^ 64 ->
  is_power_of_two n = true <-> exists k, 0 <= k < 64 /\ n = 2 ^ k.
Proof.
  intros Hn. unfold is_power_of_two. split.
  - intros H. apply andb_prop in H as [Hnz Hland].
    apply negb_true_iff, Z.eqb_neq in Hnz. apply Z.eqb_eq in Hland.
    rewrite size_t_small in Hland by lia.
    assert (Hpos : 0 < n) by lia.
    pose proof (land_pred_pow2 n Hpos Hland) as E.
    exists (Z.log2 n). split; [|assumption].
    split; [apply Z.log2_nonneg|].
    apply Z.log2_lt_pow2; lia.
  - intros (k & Hk & ->).
    assert (0 < 2 ^ k) by (apply Z.pow_pos_nonneg; lia).
    rewrite size_t_small by lia.
    rewrite pow2_land_pred by lia.
    replace (2 ^ k =? 0) with false by (symmetry; apply Z.eqb_neq; lia).
    reflexivity.
Qed.

(** X1.  [is_power_of_two] is true of exactly the 64 powers of two a [size_t]
    holds; in particular it is false of 0. *)
Theorem is_power_of_two_iff (input : Z) :
  is_power_of_two (size_t input) = true
  <-> exists k, 0 <= k < 64 /\ size_t input = 2 ^ k.
Proof.
  apply is_power_of_two_spec. unfold size_t. apply wrap_range. lia.
Qed.


(** Masking with [~(2^k - 1)] on 64 bits clears the [k] low bits. *)
Lemma land_not_low_bits y k :
  0 <= k < 64 -> 0 <= y < 2 ^ 64 ->
  Z.land y (size_t (Z.lnot (size_t (2 ^ k - 1)))) = 2 ^ k * (y / 2 ^ k).
Proof.
  intros Hk Hy.
  assert (Hp : 0 < 2 ^ k) by (apply Z.pow_pos_nonneg; lia).
  assert (Hp64 : 2 ^ k < 2 ^ 64) by (apply Z.pow_lt_mono_r; lia).
  rewrite (size_t_small (2 ^ k - 1)) by lia.
  unfold size_t, wrap.
  rewrite <- Z.land_ones by lia.
  rewrite Z.land_assoc, (Z.land_comm y), <- Z.land_assoc.
  rewrite (Z.land_ones y 64) by lia.
  rewrite Z.mod_small by lia.
  rewrite Z.land_comm.
  replace (2 ^ k - 1) with (Z.ones k) by (rewrite Z.ones_equiv; lia).
  rewrite <- Z.ldiff_land.
  rewrite Z.ldiff_ones_r by lia.
  rewrite Z.shiftl_mul_pow2, Z.shiftr_div_pow2 by lia. lia.
Qed.

(** [align_to] at a power of two is "align up", modulo [2^32]. *)
Lemma align_to_pow2 v k :
  0 <= v < 2 ^ 32 -> 0 <= k < 64 -> align_to v (2 ^ k) = u32 (align_up v (2 ^ k)).
Proof.
  intros Hv Hk. unfold align_to, align_up.
  assert (Hp : 0 < 2 ^ k) by (apply Z.pow_pos_nonneg; lia).
  assert (Hp63 : 2 ^ k <= 2 ^ 63) by (apply Z.pow_le_mono_r; lia).
  rewrite (size_t_small v) by lia.
  rewrite (size_t_small (v + (2 ^ k - 1))) by lia.
  rewrite land_not_low_bits by lia. reflexivity.
Qed.

Lemma align_up_bounds x a : 0 < a -> x <= align_up x a < x + a /\ align_up x a mod a = 0.
Proof.
  intros Ha. unfold align_up.
  pose proof (Z.div_mod (x + (a - 1)) a ltac:(lia)).
  pose proof (Z.mod_pos_bound (x + (a - 1)) a Ha).
  split; [lia|]. rewrite Z.mul_comm. apply Z.mod_mul. lia.
Qed.

Lemma is_aligned_to_pow2 v k :
  0 <= k < 64 -> is_aligned_to v (2 ^ k) = (size_t v mod 2 ^ k =? 0).
Proof.
  intros Hk. unfold is_aligned_to.
  assert (Hp : 0 < 2 ^ k) by (apply Z.pow_pos_nonneg; lia).
  assert (Hp64 : 2 ^ k < 2 ^ 64) by (apply Z.pow_lt_mono_r; lia).
  rewrite (size_t_small (2 ^ k - 1)) by lia.
  replace (2 ^ k - 1) with (Z.ones k) by (rewrite Z.ones_equiv; lia).
  now rewrite Z.land_ones by lia.
Qed.

Lemma pow2_divides_u32 x k : 0 <= k <= 32 -> x mod 2 ^ k = 0 -> u32 x mod 2 ^ k = 0.
Proof.
  intros Hk Hx. unfold u32, wrap.
  assert (Hp : 0 < 2 ^ k) by (apply Z.pow_pos_nonneg; lia).
  replace (2 ^ 32) with (2 ^ k * 2 ^ (32 - k))
    by (rewrite <- Z.pow_add_r by lia; f_equal; lia).
  assert (0 < 2 ^ (32 - k)) by (apply Z.pow_pos_nonneg; lia).
  rewrite Z.rem_mul_r by lia.
  rewrite Hx. rewrite Z.add_0_l, Z.mul_comm. apply Z.mod_mul. lia.
Qed.

(** X2.  [align_to] on a [uint32_t], at a power-of-two alignment and away from
    the top of the range: the result is the least multiple of the alignment
    that is not below the value. *)
Theorem align_to_rounds_up (value k : Z) :
  0 <= k -> 0 <= value <= 2 ^ 32 - 2 ^ k ->
  let result := align_to value (2 ^ k) in
  value <= result < value + 2 ^ k
  /\ result mod 2 ^ k = 0
  /\ (forall m, value <= m -> m mod 2 ^ k = 0 -> result <= m).
Proof.
  intros Hk Hv. cbv zeta.
  assert (Hp : 0 < 2 ^ k) by (apply Z.pow_pos_nonneg; lia).
  assert (Hk32 : k <= 32).
  { destruct (Z.le_gt_cases k 32); [assumption|].
    assert (2 ^ 33 <= 2 ^ k) by (apply Z.pow_le_mono_r; lia). lia. }
  rewrite align_to_pow2 by lia.
  destruct (align_up_bounds value (2 ^ k) Hp) as [Hb Hm].
  rewrite u32_small by lia.
  split; [assumption|]. split; [assumption|].
  intros m Hm1 Hm2.
  apply Z.mod_divide in Hm, Hm2; try lia.
  destruct Hm as [q Hq], Hm2 as [q' Hq'].
  assert (Hlt : q * 2 ^ k < (q' + 1) * 2 ^ k) by lia.
  apply Z.mul_lt_mono_pos_r in Hlt; [|assumption].
  rewrite Hq, Hq'. apply Z.mul_le_mono_nonneg_r; lia.
Qed.

Lemma align_to_rounds_up_witness :
  (0 <= 4) /\ (0 <= 52 <= 2 ^ 32 - 2 ^ 4)
  /\ 52 <= align_to 52 (2 ^ 4) < 52 + 2 ^ 4
  /\ align_to 52 (2 ^ 4) mod 2 ^ 4 = 0
  /\ (forall m, 52 <= m -> m mod 2 ^ 4 = 0 -> align_to 52 (2 ^ 4) <= m).
Proof.
  split; [lia|]. split; [lia|].
  apply (align_to_rounds_up 52 4); lia.
Defined.

(** X3.  Near the top of the range the sum wraps: a [uint32_t] above the last
    multiple of the alignment is "aligned" to 0. *)
Theorem align_to_wraps_to_zero (value k : Z) :
  0 <= k <= 32 -> 2 ^ 32 - 2 ^ k < value < 2 ^ 32 ->
  align_to value (2 ^ k) = 0.
Proof.
  intros Hk Hv.
  assert (Hp : 0 < 2 ^ k) by (apply Z.pow_pos_nonneg; lia).
  assert (Hp32 : 2 ^ k <= 2 ^ 32) by (apply Z.pow_le_mono_r; lia).
  rewrite align_to_pow2 by lia.
  assert (E : 2 ^ 32 = 2 ^ k * 2 ^ (32 - k))
    by (rewrite <- Z.pow_add_r by lia; f_equal; lia).
  assert (Hq : (value + (2 ^ k - 1)) / 2 ^ k = 2 ^ (32 - k)).
  { symmetry. apply (Z.div_unique _ _ _ (value + (2 ^ k - 1) - 2 ^ 32)); lia. }
  unfold align_up. rewrite Hq, <- E. reflexivity.
Qed.

Lemma align_to_wraps_to_zero_witness :
  (0 <= 2 <= 32) /\ (2 ^ 32 - 2 ^ 2 < 4294967294 < 2 ^ 32)
  /\ align_to 4294967294 (2 ^ 2) = 0.
Proof.
  split; [lia|]. split; [lia|].
  apply (align_to_wraps_to_zero 4294967294 2); lia.
Defined.

(** X4.  Whatever the [uint32_t], wrapped or not, [is_aligned_to] accepts what
    [align_to] returns at the same power-of-two alignment. *)
Theorem align_to_is_aligned (value k : Z) :
  0 <= k <= 32 ->
  is_aligned_to (align_to (u32 value) (2 ^ k)) (2 ^ k) = true.
Proof.
  intros Hk.
  assert (Hp : 0 < 2 ^ k) by (apply Z.pow_pos_nonneg; lia).
  rewrite align_to_pow2 by (try apply u32_range; lia).
  rewrite is_aligned_to_pow2 by lia.
  pose proof (u32_range (align_up (u32 value) (2 ^ k))) as R.
  rewrite size_t_small by lia.
  apply Z.eqb_eq. apply pow2_divides_u32; [assumption|].
  apply align_up_bounds. assumption.
Qed.

Lemma align_to_is_aligned_witness :
  (0 <= 4 <= 32) /\ is_aligned_to (align_to (u32 4294967290) (2 ^ 4)) (2 ^ 4) = true.
Proof.
  split; [lia|]. apply (align_to_is_aligned 4294967290 4). lia.
Defined.

(** X5.  A [PtrOffset32] built from a [size_t] holds that value; it is the
    invalid offset exactly when the value is [UINT32_MAX], which passes the
    cast. *)
Theorem PtrOffset_sentinel_collision (value : Z) (offset : PtrOffset32) :
  PtrOffset_of_size_t value = Some offset ->
  offset = value /\ (is_valid offset = false <-> value = UINT32_MAX).
Proof.
  intros H. apply PtrOffset_of_size_t_Some in H as [Hv ->].
  split; [reflexivity|]. unfold is_valid.
  rewrite negb_false_iff. apply Z.eqb_eq.
Qed.

Lemma PtrOffset_sentinel_collision_witness :
  PtrOffset_of_size_t 4294967295 = Some 4294967295
  /\ 4294967295 = 4294967295
  /\ (is_valid 4294967295 = false <-> 4294967295 = UINT32_MAX).
Proof.
  split; [reflexivity|].
  apply (PtrOffset_sentinel_collision 4294967295 4294967295). reflexivity.
Defined.

(** X6.  An offset that [align_to] produced, added to a base pointer aligned at
    least as strictly as the data, passes the alignment check of [add_to],
    which returns the base plus the offset. *)
Theorem add_to_aligned_offset (value k j ptr : Z) :
  0 <= j <= k -> k <= 32 ->
  0 <= ptr -> ptr + 2 ^ 32 <= 2 ^ 64 -> ptr mod 2 ^ j = 0 ->
  is_valid (align_to (u32 value) (2 ^ k)) = true ->
  add_to (2 ^ j) (align_to (u32 value) (2 ^ k)) ptr
  = Some (ptr + align_to (u32 value) (2 ^ k)).
Proof.
  intros Hj Hk Hptr Hfit Hmod Hvalid.
  unfold add_to. rewrite Hvalid. unfold add_offset_to_ptr, safe_ptr_cast.
  assert (Hpk : 0 < 2 ^ k) by (apply Z.pow_pos_nonneg; lia).
  assert (Hpj : 0 < 2 ^ j) by (apply Z.pow_pos_nonneg; lia).
  rewrite align_to_pow2 in * by (try apply u32_range; lia).
  set (o := u32 (align_up (u32 value) (2 ^ k))) in *.
  pose proof (u32_range (align_up (u32 value) (2 ^ k))) as R. fold o in R.
  assert (Ho : o mod 2 ^ k = 0).
  { apply pow2_divides_u32; [lia|]. apply align_up_bounds. assumption. }
  rewrite (size_t_small (ptr + o)) by lia.
  rewrite is_aligned_to_pow2 by lia.
  rewrite (size_t_small (ptr + o)) by lia.
  assert (Hoj : o mod 2 ^ j = 0).
  { apply Z.mod_divide in Ho; [|lia]. destruct Ho as [q ->].
    replace (2 ^ k) with (2 ^ (k - j) * 2 ^ j)
      by (rewrite <- Z.pow_add_r by lia; f_equal; lia).
    rewrite Z.mul_assoc. apply Z.mod_mul. lia. }
  replace ((ptr + o) mod 2 ^ j) with 0.
  - reflexivity.
  - symmetry. rewrite Z.add_mod by lia. rewrite Hmod, Hoj. reflexivity.
Qed.

Lemma add_to_aligned_offset_witness :
  (0 <= 2 <= 2) /\ 2 <= 32 /\ 0 <= 4096 /\ 4096 + 2 ^ 32 <= 2 ^ 64 /\ 4096 mod 2 ^ 2 = 0
  /\ is_valid (align_to (u32 65) (2 ^ 2)) = true
  /\ add_to (2 ^ 2) (align_to (u32 65) (2 ^ 2)) 4096
     = Some (4096 + align_to (u32 65) (2 ^ 2)).
Proof.
  do 2 (split; [lia|]). split; [lia|]. split; [lia|]. split; [reflexivity|].
  split; [reflexivity|].
  apply (add_to_aligned_offset 65 2 2 4096); try lia; reflexivity.
Defined.

(** X7.  The array overload that takes an alignment accepts it exactly when it
    is a power of two not below [alignof(T)]; it then asks the allocator for
    the bytes the plain overload asks for, at that alignment. *)
Theorem allocate_type_array_alignment (sizeof_T alignof_T num_elements alignment : Z) :
  ((exists request,
       allocate_type_array_aligned sizeof_T alignof_T num_elements (size_t alignment)
       = Some request)
   <-> (exists k, 0 <= k < 64 /\ size_t alignment = 2 ^ k /\ alignof_T <= 2 ^ k))
  /\ (forall request,
        allocate_type_array_aligned sizeof_T alignof_T num_elements (size_t alignment)
        = Some request ->
        request
        = {| allocation_size :=
               allocation_size (allocate_type_array sizeof_T alignof_T num_elements);
             allocation_alignment := size_t alignment |}).
Proof.
  unfold allocate_type_array_aligned, is_alignment_valid. split; [split|].
  - intros [request H].
    destruct (is_power_of_two (size_t alignment)) eqn:Hp; [|discriminate].
    destruct (alignof_T <=? size_t alignment) eqn:Ha; [|discriminate].
    apply is_power_of_two_spec in Hp; [|unfold size_t; apply wrap_range; lia].
    destruct Hp as (k & Hk & E). exists k.
    apply Z.leb_le in Ha. rewrite E in Ha. auto.
  - intros (k & Hk & E & Ha).
    assert (Hp : is_power_of_two (size_t alignment) = true).
    { apply is_power_of_two_spec; [unfold size_t; apply wrap_range; lia|]. eauto. }
    rewrite Hp. rewrite E.
    replace (alignof_T <=? 2 ^ k) with true by (symmetry; apply Z.leb_le; lia).
    eexists. reflexivity.
  - intros request H.
    destruct (is_power_of_two (size_t alignment) && (alignof_T <=? size_t alignment));
      [|discriminate].
    injection H as <-. reflexivity.
Qed.

(** X8.  [deallocate_type_array] hands the allocator the byte count
    [allocate_type_array] asked for with the same element count; the deleter
    of [make_unique_array] hands it [sizeof(T)], the byte count of the
    request only when the array has one element. *)
Theorem array_release_sizes (sizeof_T alignof_T num_elements ptr : Z) :
  ptr <> nullptr -> 0 < sizeof_T -> 0 <= num_elements ->
  sizeof_T * num_elements < 2 ^ 64 ->
  map deallocation_size (deallocate_type_array sizeof_T ptr num_elements)
  = [allocation_size (allocate_type_array sizeof_T alignof_T num_elements)]
  /\ (map deallocation_size (make_unique_array_release sizeof_T ptr)
      = [allocation_size (make_unique_array sizeof_T alignof_T num_elements)]
      <-> num_elements = 1).
Proof.
  intros Hptr Hs Hn Hfit.
  unfold deallocate_type_array, make_unique_array_release, Deleter, make_unique_array,
    allocate_type_array.
  replace (ptr =? nullptr) with false by (symmetry; apply Z.eqb_neq; assumption).
  cbn [map deallocation_size allocation_size].
  split; [reflexivity|].
  rewrite size_t_small by nia.
  split.
  - intros [= E]. nia.
  - intros ->. now rewrite Z.mul_1_r.
Qed.

Lemma array_release_sizes_witness :
  4096 <> nullptr /\ 0 < 8 /\ 0 <= 12 /\ 8 * 12 < 2 ^ 64
  /\ map deallocation_size (deallocate_type_array 8 4096 12)
     = [allocation_size (allocate_type_array 8 8 12)]
  /\ (map deallocation_size (make_unique_array_release 8 4096)
      = [allocation_size (make_unique_array 8 8 12)]
      <-> 12 = 1).
Proof.
  split; [discriminate|]. do 3 (split; [lia|]).
  apply (array_release_sizes 8 8 12 4096); [discriminate|lia|lia|lia].
Defined.

End MemoryFacts.

(** ** acl/math/scalar_64.h *)

Section ScalarFacts.
Local Open Scope float_scope.

(** X9.  [clamp] on numbers: with [min <= max] and an input that is not a NaN,
    the result lies between the bounds, and is the input itself when the
    input does. *)
Theorem clamp_within_bounds (input lo hi : float) :
  is_nan input = false -> (lo <=? hi) = true ->
  (lo <=? Scalar64.clamp input lo hi) = true
  /\ (Scalar64.clamp input lo hi <=? hi) = true
  /\ ((lo <=? input) = true -> (input <=? hi) = true ->
      Scalar64.clamp input lo hi = input).
Proof.
  intros Hin Hle.
  destruct (leb_not_nan _ _ Hle) as [Hlo Hhi].
  unfold Scalar64.clamp, Scalar64.min, Scalar64.max.
  assert (Hm : is_nan (if input <? lo then lo else input) = false)
    by (destruct (input <? lo); assumption).
  split; [|split].
  - destruct (hi <? (if input <? lo then lo else input)); [assumption|].
    destruct (input <? lo) eqn:E; [now apply leb_refl|].
    now apply ltb_false_leb.
  - destruct (hi <? (if input <? lo then lo else input)) eqn:E; [now apply leb_refl|].
    now apply ltb_false_leb.
  - intros H1 H2.
    rewrite (leb_ltb_false _ _ H1). now rewrite (leb_ltb_false _ _ H2).
Qed.

Lemma clamp_within_bounds_witness :
  is_nan 7.5 = false /\ (0 <=? 1) = true
  /\ (0 <=? Scalar64.clamp 7.5 0 1) = true
  /\ (Scalar64.clamp 7.5 0 1 <=? 1) = true
  /\ ((0 <=? 7.5) = true -> (7.5 <=? 1) = true -> Scalar64.clamp 7.5 0 1 = 7.5).
Proof.
  split; [reflexivity|]. split; [reflexivity|].
  apply (clamp_within_bounds 7.5 0 1); reflexivity.
Defined.

(** X10.  A NaN on either side makes [min] and [max] return their first argument;
    so [clamp] hands a NaN input back and ignores a NaN bound. *)
Theorem min_max_clamp_with_nan (left right input lo hi : float) :
  (is_nan left = true \/ is_nan right = true ->
   Scalar64.max left right = left /\ Scalar64.min left right = left)
  /\ (is_nan input = true -> Scalar64.clamp input lo hi = input)
  /\ (is_nan lo = true -> Scalar64.clamp input lo hi = Scalar64.min input hi)
  /\ (is_nan hi = true -> Scalar64.clamp input lo hi = Scalar64.max input lo).
Proof.
  unfold Scalar64.clamp, Scalar64.min, Scalar64.max. repeat split.
  - destruct H as [H|H]; [now rewrite ltb_nan_l|now rewrite ltb_nan_r].
  - destruct H as [H|H]; [now rewrite ltb_nan_r|now rewrite ltb_nan_l].
  - intros H. rewrite (ltb_nan_l _ lo H). now rewrite (ltb_nan_r hi _ H).
  - intros H. now rewrite (ltb_nan_r input _ H).
  - intros H. now rewrite (ltb_nan_l _ (if input <? lo then lo else input) H).
Qed.

(** X11.  [sqrt_reciprocal] has no guard: a negative input gives a NaN, and the
    two zeros give the two infinities. *)
Theorem sqrt_reciprocal_edges :
  (forall input : float, (input <? 0) = true -> is_nan (sqrt_reciprocal input) = true)
  /\ sqrt_reciprocal 0 = infinity
  /\ sqrt_reciprocal (-0) = neg_infinity.
Proof.
  split; [|split; reflexivity].
  intros input H. apply is_nan_spec.
  unfold sqrt_reciprocal. rewrite div_spec, sqrt_spec.
  rewrite ltb_spec in H. unfold SFltb in H.
  change (Prim2SF 0) with (S754_zero false) in H.
  destruct (Prim2SF input) as [s|s| |s m e]; cbn in H; try discriminate;
    destruct s; try discriminate; reflexivity.
Qed.

End ScalarFacts.

(** ** acl/compression/animation_track.h *)

Section TrackWriteFacts.
Import Track TrackWrites.

Lemma assign_length (a : list scalar) i v : List.length (assign a i v) = List.length a.
Proof.
  revert i. induction a as [|h a IH]; intros [|i]; cbn; try reflexivity.
  now rewrite IH.
Qed.

Lemma nth_assign_same (a : list scalar) i v d :
  (i < List.length a)%nat -> nth i (assign a i v) d = v.
Proof.
  revert i. induction a as [|h a IH]; intros [|i] H; cbn in *; try lia; try reflexivity.
  apply IH. lia.
Qed.

Lemma nth_assign_other (a : list scalar) i j v d :
  i <> j -> nth j (assign a i v) d = nth j a d.
Proof.
  revert i j. induction a as [|h a IH]; intros [|i] [|j] H; cbn; try reflexivity;
    try congruence.
  apply IH. congruence.
Qed.

Lemma nth_skipn_add (l : list scalar) b k d : nth k (skipn b l) d = nth (b + k) l d.
Proof.
  revert l. induction b as [|b IH]; intros [|h l]; cbn; try reflexivity.
  - now destruct k.
  - apply IH.
Qed.

(** The first array index of a sample that is in range. *)
Lemma sample_start track i :
  holds_its_samples track -> (0 <= i < m_num_samples track)%Z ->
  let size := get_animation_track_sample_size (m_type track) in
  Z.to_nat (size_t (i * size)) = (Z.to_nat i * Z.to_nat size)%nat
  /\ (Z.to_nat i * Z.to_nat size + Z.to_nat size <= List.length (m_sample_data track))%nat.
Proof.
  intros [Hn Hlen] Hi. cbv zeta.
  assert (Hs : (3 <= get_animation_track_sample_size (m_type track) <= 4)%Z)
    by (destruct (m_type track); cbn; lia).
  rewrite size_t_small by (change (2 ^ 64)%Z with 18446744073709551616%Z in *;
                           change (2 ^ 32)%Z with 4294967296%Z in *; nia).
  rewrite Hlen. split; [apply Z2Nat.inj_mul; lia|].
  rewrite <- Z2Nat.inj_mul, <- Z2Nat.inj_add by lia.
  apply Z2Nat.inj_le; nia.
Qed.

Section Rotation.
Variables quat_is_valid quat_is_normalized : Quat_64 -> bool.

Local Abbreviation set_sample :=
  (AnimationRotationTrack.set_sample quat_is_valid quat_is_normalized).

Lemma rotation_set_sample_inv track i q track' :
  set_sample track i q = Some track' ->
  is_initialized track = true /\ (i < m_num_samples track)%Z
  /\ m_type track = Rotation
  /\ track' =
     with_sample_data track
       (assign (assign (assign (assign (m_sample_data track)
          (Z.to_nat (size_t (i * 4)) + 0) (qx q))
          (Z.to_nat (size_t (i * 4)) + 1) (qy q))
          (Z.to_nat (size_t (i * 4)) + 2) (qz q))
          (Z.to_nat (size_t (i * 4)) + 3) (qw q)).
Proof.
  unfold AnimationRotationTrack.set_sample.
  destruct (is_initialized track); [|discriminate].
  destruct (i <? m_num_samples track)%Z eqn:Hi; [|discriminate].
  destruct (quat_is_valid q); [|discriminate].
  destruct (quat_is_normalized q); [|discriminate].
  destruct (m_type track) eqn:Ht; cbn; [|discriminate].
  intros [= <-]. apply Z.ltb_lt in Hi. auto.
Qed.

(** X12.  [set_sample] changes nothing but the array, and keeps its length: a
    track that holds its samples still does, with the same count, rate and
    type; the constructor makes such a track. *)
Theorem set_sample_keeps_the_shape (track track' : AnimationTrack) (i : Z) (q : Quat_64) :
  set_sample track i q = Some track' ->
  m_num_samples track' = m_num_samples track
  /\ m_sample_rate track' = m_sample_rate track
  /\ m_type track' = m_type track
  /\ is_initialized track' = true
  /\ (holds_its_samples track -> holds_its_samples track')
  /\ (forall num_samples sample_rate type,
        (0 <= num_samples < 2 ^ 32)%Z ->
        holds_its_samples (AnimationTrack_new num_samples sample_rate type)).
Proof.
  intros H. apply rotation_set_sample_inv in H as (Hinit & Hi & Ht & ->).
  cbn [with_sample_data m_num_samples m_sample_rate m_type is_initialized m_allocator].
  do 3 (split; [reflexivity|]). split; [assumption|]. split.
  - intros [Hn Hlen]. split; [exact Hn|].
    cbn [with_sample_data m_sample_data m_num_samples m_type].
    now rewrite !assign_length.
  - intros num_samples sample_rate type Hn. split; [exact Hn|].
    cbn [AnimationTrack_new m_sample_data m_num_samples m_type].
    rewrite repeat_length.
    rewrite size_t_small; [reflexivity|].
    destruct type; cbn; change (2 ^ 64)%Z with 18446744073709551616%Z;
      change (2 ^ 32)%Z with 4294967296%Z in *; lia.
Qed.

(** X13.  What a rotation track was given with [set_sample] is what [get_sample]
    returns at that index. *)
Theorem get_sample_after_set_sample (track track' : AnimationTrack) (i : Z) (q : Quat_64) :
  holds_its_samples track -> (0 <= i)%Z ->
  set_sample track i q = Some track' ->
  AnimationRotationTrack.get_sample track' i = Some q.
Proof.
  intros Hfit Hi0 H.
  apply rotation_set_sample_inv in H as (Hinit & Hi & Ht & ->).
  destruct (sample_start track i Hfit ltac:(lia)) as [Hstart Hroom].
  rewrite Ht in Hstart, Hroom. cbn [get_animation_track_sample_size] in Hstart, Hroom.
  change (Z.to_nat 4) with 4%nat in *.
  unfold AnimationRotationTrack.get_sample.
  cbn [with_sample_data is_initialized m_allocator m_type m_num_samples].
  unfold is_initialized in Hinit. rewrite Hinit, Ht.
  replace (i <? m_num_samples track)%Z with true by (symmetry; apply Z.ltb_lt; lia).
  cbn [negb AnimationTrackType8_eqb get_animation_track_sample_size].
  unfold sample_at. cbn [m_sample_data].
  rewrite Hstart. set (base := (Z.to_nat i * 4)%nat) in *.
  unfold quat_unaligned_load. rewrite !nth_skipn_add.
  destruct q as [x y z w]. cbn [qx qy qz qw with_sample_data m_sample_data].
  f_equal. f_equal.
  - rewrite !nth_assign_other by lia. apply nth_assign_same. lia.
  - rewrite !nth_assign_other by lia. apply nth_assign_same.
    rewrite !assign_length. lia.
  - rewrite !nth_assign_other by lia. apply nth_assign_same.
    rewrite !assign_length. lia.
  - apply nth_assign_same. rewrite !assign_length. lia.
Qed.

(** X14.  [set_sample] at one index leaves what [get_sample] returns at every
    other index as it was. *)
Theorem set_sample_leaves_other_samples
    (track track' : AnimationTrack) (i j : Z) (q : Quat_64) :
  (0 <= i)%Z -> (0 <= j)%Z -> i <> j ->
  holds_its_samples track ->
  set_sample track i q = Some track' ->
  AnimationRotationTrack.get_sample track' j = AnimationRotationTrack.get_sample track j.
Proof.
  intros Hi0 Hj0 Hij Hfit H.
  apply rotation_set_sample_inv in H as (Hinit & Hi & Ht & ->).
  unfold AnimationRotationTrack.get_sample.
  unfold is_initialized in *.
  cbn [with_sample_data m_allocator m_type m_num_samples].
  rewrite Hinit, Ht. cbn [negb AnimationTrackType8_eqb get_animation_track_sample_size].
  destruct (j <? m_num_samples track)%Z eqn:Hj; [|reflexivity].
  apply Z.ltb_lt in Hj. cbn [negb].
  destruct (sample_start track i Hfit ltac:(lia)) as [Hsi _].
  destruct (sample_start track j Hfit ltac:(lia)) as [Hsj _].
  rewrite Ht in Hsi, Hsj. cbn [get_animation_track_sample_size] in Hsi, Hsj.
  change (Z.to_nat 4) with 4%nat in *.
  unfold sample_at. cbn [with_sample_data m_sample_data]. rewrite Hsi, Hsj.
  assert (Hne : Z.to_nat i <> Z.to_nat j) by lia.
  unfold quat_unaligned_load. rewrite !nth_skipn_add.
  f_equal. f_equal; rewrite !nth_assign_other by lia; reflexivity.
Qed.

End Rotation.

Lemma turn_track_holds_its_samples : holds_its_samples turn_track.
Proof. split; [cbn; lia|reflexivity]. Qed.

Lemma set_sample_keeps_the_shape_witness :
  exists track',
    AnimationRotationTrack.set_sample every_quat every_quat turn_track 1 quarter_turn
    = Some track'
    /\ m_num_samples track' = m_num_samples turn_track
    /\ m_sample_rate track' = m_sample_rate turn_track
    /\ m_type track' = m_type turn_track
    /\ is_initialized track' = true
    /\ (holds_its_samples turn_track -> holds_its_samples track')
    /\ (forall num_samples sample_rate type,
          (0 <= num_samples < 2 ^ 32)%Z ->
          holds_its_samples (AnimationTrack_new num_samples sample_rate type)).
Proof.
  eexists. split; [reflexivity|].
  exact (set_sample_keeps_the_shape every_quat every_quat turn_track _ 1 quarter_turn eq_refl).
Defined.

Lemma get_sample_after_set_sample_witness :
  holds_its_samples turn_track /\ (0 <= 1)%Z
  /\ exists track',
       AnimationRotationTrack.set_sample every_quat every_quat turn_track 1 quarter_turn
       = Some track'
       /\ AnimationRotationTrack.get_sample track' 1 = Some quarter_turn.
Proof.
  split; [exact turn_track_holds_its_samples|]. split; [lia|].
  eexists. split; [reflexivity|].
  exact (get_sample_after_set_sample every_quat every_quat turn_track _ 1 quarter_turn
           turn_track_holds_its_samples ltac:(lia) eq_refl).
Defined.

Lemma set_sample_leaves_other_samples_witness :
  (0 <= 1)%Z /\ (0 <= 0)%Z /\ 1%Z <> 0%Z /\ holds_its_samples turn_track
  /\ exists track',
       AnimationRotationTrack.set_sample every_quat every_quat turn_track 1 quarter_turn
       = Some track'
       /\ AnimationRotationTrack.get_sample track' 0
          = AnimationRotationTrack.get_sample turn_track 0.
Proof.
  do 2 (split; [lia|]). split; [discriminate|].
  split; [exact turn_track_holds_its_samples|].
  eexists. split; [reflexivity|].
  exact (set_sample_leaves_other_samples every_quat every_quat turn_track _ 1 0
           quarter_turn ltac:(lia) ltac:(lia) ltac:(discriminate)
           turn_track_holds_its_samples eq_refl).
Defined.

Section Translation.
Variable vector_is_valid3 : Vector4_64 -> bool.

(** X15.  A translation track stores the x, y and z of what [set_sample] is given,
    and [get_sample] reads them back; the sample count, rate and type
    stay. *)
Theorem translation_get_sample_after_set_sample
    (track track' : AnimationTrack) (i : Z) (v : Vector4_64) :
  holds_its_samples track -> (0 <= i)%Z ->
  AnimationTranslationTrack.set_sample vector_is_valid3 track i v = Some track' ->
  (exists sample,
      AnimationTranslationTrack.get_sample track' i = Some sample
      /\ vx sample = vx v /\ vy sample = vy v /\ vz sample = vz v)
  /\ holds_its_samples track'
  /\ m_sample_rate track' = m_sample_rate track.
Proof.
  intros Hfit Hi0 H.
  unfold AnimationTranslationTrack.set_sample in H.
  destruct (is_initialized track) eqn:Hinit; [|discriminate].
  destruct (i <? m_num_samples track)%Z eqn:Hi; [|discriminate].
  destruct (vector_is_valid3 v); [|discriminate].
  destruct (m_type track) eqn:Ht; cbn in H; [discriminate|].
  injection H as <-. apply Z.ltb_lt in Hi.
  destruct (sample_start track i Hfit ltac:(lia)) as [Hstart Hroom].
  rewrite Ht in Hstart, Hroom. cbn [get_animation_track_sample_size] in Hstart, Hroom.
  change (Z.to_nat 3) with 3%nat in *.
  split; [|split].
  - unfold AnimationTranslationTrack.get_sample.
    unfold is_initialized in *.
    cbn [with_sample_data m_allocator m_type m_num_samples].
    rewrite Hinit, Ht.
    replace (i <? m_num_samples track)%Z with true by (symmetry; apply Z.ltb_lt; lia).
    cbn [negb AnimationTrackType8_eqb get_animation_track_sample_size].
    eexists. split; [reflexivity|].
    unfold sample_at. cbn [with_sample_data m_sample_data].
    rewrite Hstart. set (base := (Z.to_nat i * 3)%nat) in *.
    unfold vector_unaligned_load3. cbn [vx vy vz]. rewrite !nth_skipn_add.
    repeat split.
    + rewrite !nth_assign_other by lia. apply nth_assign_same. lia.
    + rewrite !nth_assign_other by lia. apply nth_assign_same.
      rewrite !assign_length. lia.
    + apply nth_assign_same. rewrite !assign_length. lia.
  - destruct Hfit as [Hn Hlen]. split; [exact Hn|].
    cbn [with_sample_data m_sample_data m_num_samples m_type].
    now rewrite !assign_length.
  - reflexivity.
Qed.

End Translation.

Lemma translation_get_sample_after_set_sample_witness :
  holds_its_samples ramp_track /\ (0 <= 2)%Z
  /\ exists track',
       AnimationTranslationTrack.set_sample every_vector ramp_track 2 step_aside
       = Some track'
       /\ (exists sample,
              AnimationTranslationTrack.get_sample track' 2 = Some sample
              /\ vx sample = vx step_aside /\ vy sample = vy step_aside
              /\ vz sample = vz step_aside)
       /\ holds_its_samples track'
       /\ m_sample_rate track' = m_sample_rate ramp_track.
Proof.
  assert (Hfit : holds_its_samples ramp_track) by (split; [cbn; lia|reflexivity]).
  split; [exact Hfit|]. split; [lia|].
  eexists. split; [reflexivity|].
  exact (translation_get_sample_after_set_sample every_vector ramp_track _ 2 step_aside
           Hfit ltac:(lia) eq_refl).
Defined.

(** X16.  A rotation track yields a sample, by [get_sample] or by [sample_track],
    only if it is initialized, is a rotation track and has at least one
    sample; a default-constructed track never does. *)
Theorem rotation_track_yields_only_if_ready
    (quat_lerp : Quat_64 -> Quat_64 -> scalar -> Quat_64)
    (track : AnimationTrack) (sample_time : scalar) :
  ((exists sample, AnimationRotationTrack.sample_track quat_lerp track sample_time
                   = Some sample) ->
   is_initialized track = true /\ m_type track = Rotation /\ (0 < m_num_samples track)%Z)
  /\ AnimationRotationTrack.sample_track quat_lerp AnimationTrack_default sample_time = None
  /\ (forall i, AnimationRotationTrack.get_sample AnimationTrack_default i = None).
Proof.
  split; [|split].
  - intros [sample H]. unfold AnimationRotationTrack.sample_track in H.
    destruct (calculate_interpolation_keys _ _ _) as [[[f0 f1] alpha]|] eqn:K;
      [|discriminate].
    assert (Hf0 : (0 <= f0)%Z).
    { unfold calculate_interpolation_keys in K.
      destruct (to_uint32 _) as [frame0|] eqn:Hframe; [|discriminate].
      injection K as <- _ _. apply (to_uint32_range _ _ Hframe). }
    destruct (AnimationRotationTrack.get_sample track f0) eqn:G; [|discriminate].
    unfold AnimationRotationTrack.get_sample in G.
    destruct (is_initialized track); [|discriminate].
    destruct (m_type track); [|discriminate].
    destruct (f0 <? m_num_samples track)%Z eqn:L; [|discriminate].
    apply Z.ltb_lt in L. repeat split. lia.
  - unfold AnimationRotationTrack.sample_track.
    destruct (calculate_interpolation_keys _ _ _) as [[[f0 f1] alpha]|]; reflexivity.
  - reflexivity.
Qed.

End TrackWriteFacts.

Section TrackOwnershipFacts.
Import Pointers TrackOwnership.

(** X17.  Move construction copies the pointers and leaves the source as it was:
    both objects are initialized and hold the same array, and destroying
    both hands that array to the allocator twice.  Move assignment swaps, and
    the two objects release what the two released before. *)
Theorem move_construction_shares_the_array (track other : AnimationTrack) :
  is_initialized track = true -> m_sample_data track <> nullptr ->
  is_initialized (move_constructed track) = true
  /\ m_sample_data (move_constructed track) = m_sample_data track
  /\ (exists release,
         deallocation_ptr release = m_sample_data track
         /\ destroyed (move_constructed track) ++ destroyed track = [release; release])
  /\ (let '(this', other') := move_assigned track other in
      destroyed this' ++ destroyed other' = destroyed other ++ destroyed track).
Proof.
  intros Hinit Hdata.
  split; [exact Hinit|]. split; [reflexivity|]. split.
  - unfold destroyed.
    change (is_initialized (move_constructed track)) with (is_initialized track).
    rewrite Hinit. cbn [move_constructed m_sample_data m_num_samples m_type].
    unfold deallocate_type_array.
    replace (m_sample_data track =? nullptr) with false
      by (symmetry; apply Z.eqb_neq; assumption).
    eexists. split; [|reflexivity]. reflexivity.
  - destruct track, other. reflexivity.
Qed.

Lemma move_construction_shares_the_array_witness :
  is_initialized loaded_track = true /\ m_sample_data loaded_track <> nullptr
  /\ is_initialized (move_constructed loaded_track) = true
  /\ m_sample_data (move_constructed loaded_track) = m_sample_data loaded_track
  /\ (exists release,
         deallocation_ptr release = m_sample_data loaded_track
         /\ destroyed (move_constructed loaded_track) ++ destroyed loaded_track
            = [release; release])
  /\ (let '(this', other') := move_assigned loaded_track unloaded_track in
      destroyed this' ++ destroyed other'
      = destroyed unloaded_track ++ destroyed loaded_track).
Proof.
  split; [reflexivity|]. split; [discriminate|].
  apply (move_construction_shares_the_array loaded_track unloaded_track);
    [reflexivity|discriminate].
Defined.

End TrackOwnershipFacts.

(** ** acl/algorithm/uniformly_sampled/encoder.h *)

Section EncoderLayoutFacts.
Context {C : Collaborators}.

Lemma PtrOffset_of_size_t_fits v :
  0 <= v <= UINT32_MAX -> PtrOffset_of_size_t v = Some v.
Proof.
  intros Hv. unfold PtrOffset_of_size_t, safe_static_cast_u32.
  replace (0 <=? v) with true by (symmetry; apply Z.leb_le; lia).
  replace (v <=? UINT32_MAX) with true by (symmetry; apply Z.leb_le; lia).
  cbn [andb]. rewrite u32_small; [reflexivity|]. unfold UINT32_MAX in Hv. lia.
Qed.

Ltac run_on :=
  repeat first [ rewrite bind_pass | rewrite bind_emit | rewrite bind_ret
               | rewrite bind_ensured_Some | rewrite bind_assoc ].

(** An accepted call whose header and bitsets fit 32 bits fails no
    [ACL_ENSURE] and returns an artifact. *)
Lemma compress_clip_accepted_returns clip skeleton settings :
  accepts clip settings = true ->
  0 <= sizeof_FullPrecisionHeader ->
  sizeof_FullPrecisionHeader + 4 * bitset_words clip + 4 * bitset_words clip <= UINT32_MAX ->
  exists a, fst (run (compress_clip clip skeleton settings)) = Returned (Some a).
Proof.
  intros Hacc H0 Hfit.
  destruct (accepts_guards _ _ Hacc) as (G1 & G2 & G3).
  pose proof (bitset_words_range clip) as Hw.
  assert (Hs : forall x, 0 <= x <= UINT32_MAX ->
            size_t (x + size_t (4 * bitset_words clip)) = x + 4 * bitset_words clip).
  { unfold UINT32_MAX. intros x Hx.
    rewrite (size_t_small (4 * _)) by lia. apply size_t_small. lia. }
  unfold run, compress_clip. cbv zeta.
  unfold ACL_TRY_ASSERT at 1 2.
  rewrite G1, G2, G3. cbn [negb].
  fold (bitset_words clip).
  destruct (is_enum_flag_set (range_reduction settings) PerClip);
    run_on; cbn [fst snd]; run_on;
    rewrite (PtrOffset_of_size_t_fits sizeof_FullPrecisionHeader) by lia; run_on;
    rewrite (Hs sizeof_FullPrecisionHeader) by lia;
    rewrite (PtrOffset_of_size_t_fits (sizeof_FullPrecisionHeader + 4 * bitset_words clip))
      by lia; run_on;
    rewrite (Hs (sizeof_FullPrecisionHeader + 4 * bitset_words clip)) by lia;
    rewrite (PtrOffset_of_size_t_fits
               (sizeof_FullPrecisionHeader + 4 * bitset_words clip + 4 * bitset_words clip))
      by lia; run_on;
    rewrite PtrOffset_of_align_to; run_on;
    rewrite PtrOffset_of_align_to; run_on;
    match goal with
    | |- context [0 <? ?c] => destruct (0 <? c); run_on
    end;
    match goal with
    | |- context [0 <? ?c] => destruct (0 <? c); run_on
    end;
    unfold ret; cbn [fst]; eexists; reflexivity.
Qed.

(** X18.  [compress_clip] returns an artifact exactly when its three guards pass
    and the header with the two bitsets fits a 32-bit offset; a call that
    fails a guard returns [nullptr] having done nothing. *)
Theorem compress_clip_returns_iff clip skeleton settings :
  ((exists a tr, run (compress_clip clip skeleton settings) = (Returned (Some a), tr))
   <-> accepts clip settings = true
       /\ 0 <= sizeof_FullPrecisionHeader
       /\ sizeof_FullPrecisionHeader + 4 * bitset_words clip + 4 * bitset_words clip
          <= UINT32_MAX)
  /\ (accepts clip settings = false <->
      run (compress_clip clip skeleton settings) = (Returned None, [])).
Proof.
  split; split.
  - intros (a & tr & Hrun).
    destruct (compress_clip_success _ _ _ _ _ Hrun) as (Hacc & H0 & Hfit & _).
    auto.
  - intros (Hacc & H0 & Hfit).
    destruct (compress_clip_accepted_returns clip skeleton settings Hacc H0 Hfit)
      as [a Ha].
    exists a, (snd (run (compress_clip clip skeleton settings))).
    rewrite <- Ha. apply surjective_pairing.
  - apply compress_clip_refuses.
  - intros Hrun. destruct (accepts clip settings) eqn:Hacc; [|reflexivity].
    pose proof (accepted_stream_passes clip skeleton settings Hacc) as Hp.
    rewrite Hrun in Hp. cbn in Hp.
    destruct (is_enum_flag_set (range_reduction settings) PerClip); discriminate Hp.
Qed.

(** X19.  The header of a returned artifact records the clip's bone count, sample
    count and sample rate, the formats and flags of the settings, and the
    counts of animated tracks [get_num_animated_streams] reports for the
    quantized streams; the algorithm is [UniformlySampled]. *)
Theorem compress_clip_header_records clip skeleton settings a tr :
  run (compress_clip clip skeleton settings) = (Returned (Some a), tr) ->
  let counts := get_num_animated_streams (quantized clip settings) (get_num_bones clip) in
  algorithm_type a = UniformlySampled
  /\ header_num_bones (header a) = get_num_bones clip
  /\ header_rotation_format (header a) = rotation_format settings
  /\ header_translation_format (header a) = translation_format settings
  /\ header_range_reduction (header a) = range_reduction settings
  /\ header_num_samples (header a) = get_num_samples clip
  /\ header_sample_rate (header a) = get_sample_rate clip
  /\ header_num_animated_rotation_tracks (header a) = num_animated_rotation_tracks counts
  /\ header_num_animated_translation_tracks (header a)
     = num_animated_translation_tracks counts.
Proof.
  intros Hrun. cbv zeta.
  destruct (compress_clip_success _ _ _ _ _ Hrun) as (_ & _ & _ & -> & _).
  repeat split.
Qed.

Lemma align_up_4_shift p x : p mod 4 = 0 -> align_up (p + x) 4 = p + align_up x 4.
Proof.
  intros Hp. unfold align_up. change (4 - 1) with 3.
  apply Z.mod_divide in Hp; [|lia]. destruct Hp as [q ->].
  replace (q * 4 + x + 3) with (x + 3 + q * 4) by lia.
  rewrite Z.div_add by lia. lia.
Qed.

Lemma u32_align_up_congr x y : u32 x = u32 y -> u32 (align_up x 4) = u32 (align_up y 4).
Proof.
  intros H. unfold u32, wrap in *.
  rewrite <- (align_up_4_mod x), <- (align_up_4_mod y). now rewrite H.
Qed.

Lemma u32_add3 a b c : u32 (a + u32 b + u32 c) = u32 (a + b + c).
Proof.
  rewrite u32_add_r.
  replace (a + u32 b + c) with (u32 b + (a + c)) by lia.
  rewrite u32_add_l. f_equal. lia.
Qed.

Lemma regions_tile p x c r a :
  p mod 4 = 0 ->
  u32 (align_up (align_up (p + x + c) 4 + r) 4 + a)
  = u32 (p + u32 (align_up (u32 (align_up (x + u32 c) 4) + r) 4) + u32 a).
Proof.
  intros Hp.
  replace (p + x + c) with (p + (x + c)) by lia.
  rewrite (align_up_4_shift _ _ Hp).
  replace (p + align_up (x + c) 4 + r) with (p + (align_up (x + c) 4 + r)) by lia.
  rewrite (align_up_4_shift _ _ Hp).
  rewrite <- (u32_add3 p (align_up _ 4) a).
  f_equal. f_equal. f_equal.
  apply u32_align_up_congr.
  rewrite u32_add_l.
  rewrite <- (u32_add_l (align_up (x + c) 4) r).
  rewrite <- (u32_add_l (align_up (x + u32 c) 4) r).
  f_equal. f_equal.
  apply u32_align_up_congr. now rewrite u32_add_r.
Qed.

(** X20.  The size bookkeeping and the offset bookkeeping agree: when
    [sizeof(CompressedClip)] is a multiple of 4, the buffer ends where the
    animated region that starts at the header's animated-data offset ends
    (32-bit arithmetic). *)
Theorem compress_clip_buffer_ends_with_animated_data clip skeleton settings a tr :
  sizeof_CompressedClip mod 4 = 0 ->
  run (compress_clip clip skeleton settings) = (Returned (Some a), tr) ->
  let H := sizeof_FullPrecisionHeader in
  let w := bitset_words clip in
  let constant_size := u32 (constant_region_size clip settings) in
  let range_size := range_region_size clip settings in
  let animated_size := u32 (animated_region_size clip settings) in
  let range_start := u32 (align_up (H + 4 * w + 4 * w + constant_size) 4) in
  let animated_start := u32 (align_up (range_start + range_size) 4) in
  buffer_size a = u32 (sizeof_CompressedClip + animated_start + animated_size)
  /\ (0 < animated_size ->
      buffer_size a
      = u32 (sizeof_CompressedClip + track_data_offset (header a) + animated_size)).
Proof.
  intros Hp Hrun. cbv zeta.
  destruct (compress_clip_success _ _ _ _ _ Hrun) as (_ & _ & _ & -> & _).
  cbn [buffer_size header track_data_offset].
  assert (E : u32 (artifact_size clip settings)
              = u32 (sizeof_CompressedClip
                     + u32 (align_up
                              (u32 (align_up
                                      (sizeof_FullPrecisionHeader + 4 * bitset_words clip
                                       + 4 * bitset_words clip
                                       + u32 (constant_region_size clip settings)) 4)
                               + range_region_size clip settings) 4)
                     + u32 (animated_region_size clip settings))).
  { unfold artifact_size.
    rewrite <- (regions_tile _ _ _ _ _ Hp). f_equal. f_equal. f_equal. f_equal. f_equal.
    lia. }
  split; [exact E|].
  intros Hpos.
  replace (0 <? u32 (animated_region_size clip settings)) with true
    by (symmetry; apply Z.ltb_lt; assumption).
  exact E.
Qed.

(** X21.  When nothing wraps, the regions lie in the buffer one after the other
    without overlap: bitsets, constant data, range data at the next multiple
    of 4, animated data at the next multiple of 4, and the animated data ends
    where the buffer ends. *)
Theorem compress_clip_regions_fit clip skeleton settings a tr :
  sizeof_CompressedClip mod 4 = 0 -> 0 <= sizeof_CompressedClip ->
  run (compress_clip clip skeleton settings) = (Returned (Some a), tr) ->
  let H := sizeof_FullPrecisionHeader in
  let w := bitset_words clip in
  let constant_size := u32 (constant_region_size clip settings) in
  let range_size := range_region_size clip settings in
  let animated_size := u32 (animated_region_size clip settings) in
  sizeof_CompressedClip + H + 4 * w + 4 * w + constant_size + range_size + animated_size + 6
  < 2 ^ 32 ->
  let range_start := align_up (H + 4 * w + 4 * w + constant_size) 4 in
  let animated_start := align_up (range_start + range_size) 4 in
  0 <= H /\ 0 <= w /\ 0 <= constant_size /\ 0 <= range_size /\ 0 <= animated_size
  /\ H + 4 * w + 4 * w + constant_size <= range_start
  /\ range_start + range_size <= animated_start
  /\ sizeof_CompressedClip + animated_start + animated_size = buffer_size a
  /\ (is_valid (clip_range_data_offset (header a)) = true ->
      clip_range_data_offset (header a) = range_start)
  /\ (is_valid (track_data_offset (header a)) = true ->
      track_data_offset (header a) = animated_start).
Proof.
  intros Hp Hp0 Hrun. cbv zeta. intros Hfit.
  destruct (compress_clip_success _ _ _ _ _ Hrun) as (_ & H0 & _ & -> & _).
  cbn [buffer_size header clip_range_data_offset track_data_offset].
  pose proof (bitset_words_range clip) as Hw.
  pose proof (u32_range (constant_region_size clip settings)) as Hc.
  pose proof (u32_range (animated_region_size clip settings)) as Ha.
  assert (Hr : 0 <= range_region_size clip settings).
  { unfold range_region_size, get_stream_range_data_size.
    destruct (is_enum_flag_set (range_reduction settings) PerClip); [apply u32_range|lia]. }
  set (cds := u32 (constant_region_size clip settings)) in *.
  set (ads := u32 (animated_region_size clip settings)) in *.
  set (rds := range_region_size clip settings) in *.
  set (X := sizeof_FullPrecisionHeader + 4 * bitset_words clip + 4 * bitset_words clip) in *.
  destruct (align_up_bounds (X + cds) 4 ltac:(lia)) as [B1 _].
  destruct (align_up_bounds (align_up (X + cds) 4 + rds) 4 ltac:(lia)) as [B2 _].
  assert (E1 : u32 (align_up (X + cds) 4) = align_up (X + cds) 4)
    by (apply u32_small; lia).
  assert (E2 : u32 (align_up (u32 (align_up (X + cds) 4) + rds) 4)
               = align_up (align_up (X + cds) 4 + rds) 4)
    by (rewrite E1; apply u32_small; lia).
  do 5 (split; [lia|]). split; [lia|]. split; [lia|]. split; [|split].
  - unfold artifact_size. fold rds.
    replace (sizeof_CompressedClip + sizeof_FullPrecisionHeader + 4 * bitset_words clip
             + 4 * bitset_words clip + constant_region_size clip settings)
      with (sizeof_CompressedClip + X + constant_region_size clip settings)
      by (unfold X; lia).
    rewrite (regions_tile _ _ _ _ _ Hp). fold cds ads.
    rewrite E2. rewrite u32_small; [reflexivity|]. lia.
  - destruct (is_enum_flag_set (range_reduction settings) PerClip);
      [intros _; exact E1|discriminate].
  - destruct (0 <? ads); [intros _; exact E2|discriminate].
Qed.

(** X22.  Offsets the code comments as "aligned to 4 bytes": the range-data and
    animated-data offsets of an artifact are multiples of 4 whenever they are
    not the sentinel; the bitset and constant-data offsets are when
    [sizeof(FullPrecisionHeader)] is. *)
Theorem compress_clip_offsets_are_aligned clip skeleton settings a tr :
  run (compress_clip clip skeleton settings) = (Returned (Some a), tr) ->
  (is_valid (clip_range_data_offset (header a)) = true ->
   clip_range_data_offset (header a) mod 4 = 0)
  /\ (is_valid (track_data_offset (header a)) = true ->
      track_data_offset (header a) mod 4 = 0)
  /\ (sizeof_FullPrecisionHeader mod 4 = 0 ->
      default_tracks_bitset_offset (header a) mod 4 = 0
      /\ constant_tracks_bitset_offset (header a) mod 4 = 0
      /\ (is_valid (constant_track_data_offset (header a)) = true ->
          constant_track_data_offset (header a) mod 4 = 0)).
Proof.
  intros Hrun.
  destruct (compress_clip_success _ _ _ _ _ Hrun) as (_ & _ & _ & -> & _).
  cbn [header default_tracks_bitset_offset constant_tracks_bitset_offset
         constant_track_data_offset clip_range_data_offset track_data_offset].
  assert (Ha : forall x, u32 (align_up x 4) mod 4 = 0).
  { intros x. apply (pow2_divides_u32 _ 2); [lia|].
    apply (align_up_bounds x 4). lia. }
  split; [|split].
  - destruct (is_enum_flag_set (range_reduction settings) PerClip);
      [intros _; apply Ha | discriminate].
  - destruct (0 <? u32 (animated_region_size clip settings));
      [intros _; apply Ha | discriminate].
  - intros Hh.
    assert (Hw : forall x, x mod 4 = 0 -> (x + 4 * bitset_words clip) mod 4 = 0).
    { intros x Hx. rewrite Z.add_mod, Hx by lia.
      rewrite (Z.mul_comm 4), Z.mod_mul by lia. reflexivity. }
    split; [assumption|]. split; [now apply Hw|].
    destruct (0 <? u32 (constant_region_size clip settings));
      [intros _; now apply Hw, Hw | discriminate].
Qed.

(** X23.  What a successful call does after the stream passes, in order: one
    allocation, the two bitset writers, the constant-data writer and the
    animated-data writer (each only for a region that is not empty), the
    range-data writer (only under [PerClip]), [finalize_compressed_clip], and
    last the release of the bone streams.  Each writer is handed the quantized
    streams and the offset the header keeps for its region. *)
Theorem compress_clip_calls_after_the_passes clip skeleton settings a tr :
  run (compress_clip clip skeleton settings) = (Returned (Some a), tr) ->
  let streams := quantized clip settings in
  let num_bones := get_num_bones clip in
  let w := bitset_words clip in
  let constant_size := u32 (constant_region_size clip settings) in
  let animated_size := u32 (animated_region_size clip settings) in
  filter (fun c => negb (is_stream_pass c)) tr
  = [call_allocate {| allocation_size := buffer_size a;
                      allocation_alignment := alignof_uint8_t |};
     call_write_default_track_bitset streams num_bones
       (default_tracks_bitset_offset (header a)) w;
     call_write_constant_track_bitset streams num_bones
       (constant_tracks_bitset_offset (header a)) w]
    ++ (if 0 <? constant_size
        then [call_write_constant_track_data streams num_bones
                (constant_track_data_offset (header a)) constant_size]
        else [])
    ++ (if 0 <? animated_size
        then [call_write_animated_track_data streams num_bones
                (track_data_offset (header a)) animated_size]
        else [])
    ++ (if is_enum_flag_set (range_reduction settings) PerClip
        then [call_write_range_track_data streams num_bones (range_reduction settings)
                (rotation_format settings) (translation_format settings)
                (clip_range_data_offset (header a)) (range_region_size clip settings)]
        else [])
    ++ [call_finalize_compressed_clip; call_deallocate streams num_bones].
Proof.
  intros Hrun. cbv zeta.
  destruct (compress_clip_success _ _ _ _ _ Hrun) as (_ & _ & _ & -> & ->).
  cbn [buffer_size header default_tracks_bitset_offset constant_tracks_bitset_offset
         constant_track_data_offset clip_range_data_offset track_data_offset].
  rewrite !filter_app.
  destruct (is_enum_flag_set (range_reduction settings) PerClip),
    (0 <? u32 (constant_region_size clip settings)),
    (0 <? u32 (animated_region_size clip settings)); reflexivity.
Qed.

End EncoderLayoutFacts.

Section EncoderLayoutRuns.

Local Abbreviation demo_run :=
  (run (@compress_clip Demo.collaborators Demo.walk_clip tt Demo.walk_settings)).

Lemma compress_clip_header_records_witness :
  demo_run = (Returned (Some Demo.walk_artifact), snd demo_run)
  /\ algorithm_type Demo.walk_artifact = UniformlySampled
  /\ header_num_bones (header Demo.walk_artifact) = 2
  /\ header_rotation_format (header Demo.walk_artifact) = Quat_128
  /\ header_translation_format (header Demo.walk_artifact) = Vector3_48
  /\ header_range_reduction (header Demo.walk_artifact) = 18
  /\ header_num_samples (header Demo.walk_artifact) = 3
  /\ header_sample_rate (header Demo.walk_artifact) = 30
  /\ header_num_animated_rotation_tracks (header Demo.walk_artifact) = 1
  /\ header_num_animated_translation_tracks (header Demo.walk_artifact) = 2.
Proof.
  split; [exact walk_clip_run|].
  exact (@compress_clip_header_records Demo.collaborators Demo.walk_clip tt
           Demo.walk_settings Demo.walk_artifact _ walk_clip_run).
Defined.

Lemma compress_clip_buffer_ends_with_animated_data_witness :
  @sizeof_CompressedClip Demo.collaborators mod 4 = 0
  /\ demo_run = (Returned (Some Demo.walk_artifact), snd demo_run)
  /\ buffer_size Demo.walk_artifact = u32 (16 + 116 + 84)
  /\ (0 < 84 ->
      buffer_size Demo.walk_artifact
      = u32 (16 + track_data_offset (header Demo.walk_artifact) + 84)).
Proof.
  split; [reflexivity|]. split; [exact walk_clip_run|].
  exact (@compress_clip_buffer_ends_with_animated_data Demo.collaborators Demo.walk_clip tt
           Demo.walk_settings Demo.walk_artifact _ eq_refl walk_clip_run).
Defined.

Lemma compress_clip_regions_fit_witness :
  @sizeof_CompressedClip Demo.collaborators mod 4 = 0
  /\ 0 <= @sizeof_CompressedClip Demo.collaborators
  /\ demo_run = (Returned (Some Demo.walk_artifact), snd demo_run)
  /\ 16 + 44 + 4 * 1 + 4 * 1 + 16 + 48 + 84 + 6 < 2 ^ 32
  /\ 0 <= 44 /\ 0 <= 1 /\ 0 <= 16 /\ 0 <= 48 /\ 0 <= 84
  /\ 44 + 4 * 1 + 4 * 1 + 16 <= 68
  /\ 68 + 48 <= 116
  /\ 16 + 116 + 84 = buffer_size Demo.walk_artifact
  /\ (is_valid (clip_range_data_offset (header Demo.walk_artifact)) = true ->
      clip_range_data_offset (header Demo.walk_artifact) = 68)
  /\ (is_valid (track_data_offset (header Demo.walk_artifact)) = true ->
      track_data_offset (header Demo.walk_artifact) = 116).
Proof.
  split; [reflexivity|]. split; [cbn; lia|]. split; [exact walk_clip_run|].
  split; [lia|].
  exact (@compress_clip_regions_fit Demo.collaborators Demo.walk_clip tt
           Demo.walk_settings Demo.walk_artifact _ eq_refl ltac:(cbn; lia) walk_clip_run
           ltac:(vm_compute; reflexivity)).
Defined.

Lemma compress_clip_offsets_are_aligned_witness :
  demo_run = (Returned (Some Demo.walk_artifact), snd demo_run)
  /\ (is_valid (clip_range_data_offset (header Demo.walk_artifact)) = true ->
      clip_range_data_offset (header Demo.walk_artifact) mod 4 = 0)
  /\ (is_valid (track_data_offset (header Demo.walk_artifact)) = true ->
      track_data_offset (header Demo.walk_artifact) mod 4 = 0)
  /\ (@sizeof_FullPrecisionHeader Demo.collaborators mod 4 = 0 ->
      default_tracks_bitset_offset (header Demo.walk_artifact) mod 4 = 0
      /\ constant_tracks_bitset_offset (header Demo.walk_artifact) mod 4 = 0
      /\ (is_valid (constant_track_data_offset (header Demo.walk_artifact)) = true ->
          constant_track_data_offset (header Demo.walk_artifact) mod 4 = 0)).
Proof.
  split; [exact walk_clip_run|].
  exact (@compress_clip_offsets_are_aligned Demo.collaborators Demo.walk_clip tt
           Demo.walk_settings Demo.walk_artifact _ walk_clip_run).
Defined.

Lemma compress_clip_calls_after_the_passes_witness :
  demo_run = (Returned (Some Demo.walk_artifact), snd demo_run)
  /\ filter (fun c => negb (is_stream_pass c)) (snd demo_run)
     = [@call_allocate Demo.collaborators
          {| allocation_size := 216; allocation_alignment := 1 |};
        @call_write_default_track_bitset Demo.collaborators (Demo.clip_streams Demo.walk_clip) 2 44 1;
        @call_write_constant_track_bitset Demo.collaborators (Demo.clip_streams Demo.walk_clip) 2 48 1;
        @call_write_constant_track_data Demo.collaborators (Demo.clip_streams Demo.walk_clip) 2 52 16;
        @call_write_animated_track_data Demo.collaborators (Demo.clip_streams Demo.walk_clip) 2 116 84;
        @call_write_range_track_data Demo.collaborators (Demo.clip_streams Demo.walk_clip) 2 18
          Quat_128 Vector3_48 68 48;
        @call_finalize_compressed_clip Demo.collaborators;
        @call_deallocate Demo.collaborators (Demo.clip_streams Demo.walk_clip) 2].
Proof.
  split; [exact walk_clip_run|].
  exact (@compress_clip_calls_after_the_passes Demo.collaborators Demo.walk_clip tt
           Demo.walk_settings Demo.walk_artifact _ walk_clip_run).
Defined.

End EncoderLayoutRuns.

(** ** tools/acl_compressor/sources/main.cpp *)

Section ConfigurationFacts.
Context {C : Collaborators}.
Import Main.

Lemma flags_include_themselves flags : are_enum_flags_set flags flags = true.
Proof. unfold are_enum_flags_set. rewrite Z.land_diag. apply Z.eqb_refl. Qed.

Lemma flags_with_one_more a b c :
  are_enum_flags_set (Z.lor (Z.lor a b) c) (Z.lor a c) = true.
Proof.
  unfold are_enum_flags_set. apply Z.eqb_eq. apply Z.bits_inj'. intros n Hn.
  rewrite Z.land_spec, !Z.lor_spec.
  destruct (Z.testbit a n), (Z.testbit b n), (Z.testbit c n); reflexivity.
Qed.

Lemma accepts_of_guards clip rotation translation flags :
  0 < get_num_bones clip -> 0 < get_num_samples clip ->
  translation = Vector3_96
  \/ are_enum_flags_set flags (Z.lor PerClip Translations) = true ->
  accepts clip (UniformlySampledAlgorithm rotation translation flags) = true.
Proof.
  intros Hb Hs Hg. unfold accepts, UniformlySampledAlgorithm.
  cbn [Encoder.translation_format Encoder.range_reduction].
  apply Z.ltb_lt in Hb, Hs. rewrite Hb, Hs. cbn [andb].
  destruct Hg as [-> | ->]; [reflexivity|apply orb_true_r].
Qed.

(** X24.  [main] tries 32 configurations; [compress_clip] accepts every one of
    them for a clip that has bones and samples, and returns an artifact when
    the header and the bitsets fit a 32-bit offset. *)
Theorem main_configurations_compress (clip : AnimationClip) (skeleton : RigidSkeleton) :
  0 < get_num_bones clip -> 0 < get_num_samples clip ->
  0 <= sizeof_FullPrecisionHeader ->
  sizeof_FullPrecisionHeader + 4 * bitset_words clip + 4 * bitset_words clip <= UINT32_MAX ->
  List.length uniform_tests = 32%nat
  /\ Forall (fun settings =>
               accepts clip settings = true
               /\ exists a tr,
                    run (compress_clip clip skeleton settings) = (Returned (Some a), tr))
            uniform_tests.
Proof.
  intros Hb Hs H0 Hfit. split; [reflexivity|].
  assert (Hall : Forall (fun settings => accepts clip settings = true) uniform_tests).
  { unfold uniform_tests, None_, PerClip_Rotations, PerClip_Translations,
      PerClip_Rotations_Translations.
    repeat (apply Forall_cons;
            [apply accepts_of_guards; try assumption;
             first [ left; reflexivity
                   | right; apply flags_include_themselves
                   | right; apply flags_with_one_more ]|]).
    apply Forall_nil. }
  eapply Forall_impl; [|exact Hall].
  intros settings Hacc. split; [assumption|].
  destruct (compress_clip_accepted_returns clip skeleton settings Hacc H0 Hfit) as [a Ha].
  exists a, (snd (run (compress_clip clip skeleton settings))).
  rewrite <- Ha. apply surjective_pairing.
Qed.

End ConfigurationFacts.

Section CommandLineFacts.
Import Main.
Import Stdlib.Strings.String Stdlib.Strings.Ascii.
Variable can_open : string -> bool.

Local Abbreviation parse_arguments := (Main.parse_arguments can_open).
Local Abbreviation parse_options := (Main.parse_options can_open).
Local Abbreviation stats_file := (Main.stats_file can_open).
Local Abbreviation with_stats := (Main.with_stats can_open).

Lemma parse_arguments_input argument arguments options :
  is_input_file argument = true ->
  parse_arguments (argument :: arguments) options
  = parse_arguments arguments (with_input_filename options argument).
Proof.
  intros H. cbn [Main.parse_arguments]. unfold is_input_file in H. now rewrite H.
Qed.

Lemma parse_arguments_stats argument arguments options :
  is_stats argument = true ->
  parse_arguments (argument :: arguments) options
  = let '(finished, options', effects) :=
      parse_arguments arguments (with_stats options argument) in
    (finished, options', stats_opening argument ++ effects).
Proof.
  intros H. unfold is_stats, is_input_file in H.
  apply andb_prop in H as [H1 H2]. apply negb_true_iff in H1.
  cbn [Main.parse_arguments]. rewrite H1, H2.
  unfold open_output_stats_file, with_stats, Main.stats_file, stats_opening, stats_filename.
  cbn [output_stats_filename input_filename output_stats output_stats_file].
  destruct (get (length STATS_OUTPUT_OPTION) argument) as [c|]; [|reflexivity].
  destruct (Ascii.eqb_spec c "="%char) as [->|Hc].
  - destruct (can_open _); reflexivity.
  - destruct c as [[] [] [] [] [] [] [] []]; try reflexivity. now contradiction Hc.
Qed.

Lemma parse_arguments_unrecognized argument arguments options :
  recognized argument = false ->
  parse_arguments (argument :: arguments) options
  = (false, options, [printf ("Unrecognized option " ++ argument ++ newline)]).
Proof.
  intros H. unfold recognized, is_stats, is_input_file in H.
  apply orb_false_elim in H as [H1 H2]. rewrite H1 in H2. cbn [negb andb] in H2.
  cbn [Main.parse_arguments]. now rewrite H1, H2.
Qed.

Lemma recognized_cases argument :
  is_input_file argument = true
  \/ (is_input_file argument = false /\ is_stats argument = true)
  \/ (is_input_file argument = false /\ is_stats argument = false
      /\ recognized argument = false).
Proof.
  unfold recognized, is_stats.
  destruct (is_input_file argument); [now left|right].
  destruct (starts_with STATS_OUTPUT_OPTION argument); cbn; auto.
Qed.

Lemma last_cons_default {A : Type} (x d : A) l : last (x :: l) d = last l x.
Proof.
  revert x d. induction l as [|y l IH]; intros x d; [reflexivity|].
  change (last (x :: y :: l) d) with (last (y :: l) d).
  now rewrite (IH y d), (IH y x).
Qed.

(** The loop runs to the end exactly when it knows every argument. *)
Lemma parse_arguments_finished arguments options :
  fst (fst (parse_arguments arguments options)) = forallb recognized arguments.
Proof.
  revert options. induction arguments as [|a l IH]; intros o; [reflexivity|].
  cbn [forallb].
  destruct (recognized_cases a) as [Hi | [[Hi Hs] | (Hi & Hs & Hr)]].
  - rewrite parse_arguments_input by assumption.
    assert (Hr : recognized a = true) by (unfold recognized; now rewrite Hi).
    rewrite Hr. cbn [andb]. apply IH.
  - rewrite parse_arguments_stats by assumption.
    assert (Hr : recognized a = true) by (unfold recognized; now rewrite Hi, Hs).
    rewrite Hr. cbn [andb].
    rewrite <- (IH (with_stats o a)).
    destruct (parse_arguments l (with_stats o a)) as [[f o'] e]. reflexivity.
  - rewrite parse_arguments_unrecognized by assumption. now rewrite Hr.
Qed.

(** What a loop that ran to the end leaves in the options, and the files it
    opened on the way. *)
Lemma parse_arguments_result arguments options :
  forallb recognized arguments = true ->
  let '(_, options', effects) := parse_arguments arguments options in
  input_filename options'
  = last (map (fun a => Some (from (length ACL_INPUT_FILE_OPTION) a))
            (filter is_input_file arguments)) (input_filename options)
  /\ output_stats options' = output_stats options || existsb is_stats arguments
  /\ output_stats_file options'
     = last (map (fun a => Some (stats_file a)) (filter is_stats arguments))
         (output_stats_file options)
  /\ effects = flat_map (fun a => if is_stats a then stats_opening a else []) arguments.
Proof.
  revert options. induction arguments as [|a l IH]; intros o Hall.
  - cbn. rewrite orb_false_r. auto.
  - cbn [forallb] in Hall. apply andb_prop in Hall as [Ha Hl].
    destruct (recognized_cases a) as [Hi | [[Hi Hs] | (Hi & Hs & Hr)]].
    + rewrite parse_arguments_input by assumption.
      specialize (IH (with_input_filename o a) Hl).
      destruct (parse_arguments l (with_input_filename o a)) as [[f o'] e].
      destruct IH as (I1 & I2 & I3 & I4).
      assert (Hs : is_stats a = false) by (unfold is_stats; now rewrite Hi).
      cbn [filter map flat_map existsb]. rewrite Hi, Hs.
      cbn [map app orb]. rewrite last_cons_default.
      repeat split; assumption.
    + rewrite parse_arguments_stats by assumption.
      specialize (IH (with_stats o a) Hl).
      destruct (parse_arguments l (with_stats o a)) as [[f o'] e].
      destruct IH as (I1 & I2 & I3 & I4).
      cbn [filter map flat_map existsb]. rewrite Hi, Hs.
      cbn [map orb]. rewrite last_cons_default.
      cbn [with_stats output_stats input_filename output_stats_file] in *.
      rewrite orb_true_r. rewrite I4.
      repeat split; assumption.
    + congruence.
Qed.

(** X25.  [parse_options], started on fresh options, returns true exactly when
    it knows every argument after the program name and the last [-acl=]
    argument names a file; that name is then the input file. *)
Theorem parse_options_succeeds_iff (argv : list string) :
  let arguments := tl argv in
  let result := parse_options argv Options_new in
  let last_input := last (map Some (filter is_input_file arguments)) None in
  (fst (fst result) = true
   <-> forallb recognized arguments = true
       /\ exists argument,
            last_input = Some argument
            /\ from (length ACL_INPUT_FILE_OPTION) argument <> EmptyString)
  /\ (fst (fst result) = true ->
      input_filename (snd (fst result))
      = option_map (from (length ACL_INPUT_FILE_OPTION)) last_input).
Proof.
  cbv zeta. unfold Main.parse_options.
  pose proof (parse_arguments_finished (tl argv) Options_new) as Hf.
  pose proof (parse_arguments_result (tl argv) Options_new) as Hr.
  destruct (parse_arguments (tl argv) Options_new) as [[finished o] e].
  cbn [fst] in Hf. subst finished.
  destruct (forallb recognized (tl argv)) eqn:Hall; cbn [negb].
  2:{ cbn [fst]. split; [split; [discriminate|]|discriminate]. now intros [? _]. }
  destruct (Hr eq_refl) as (Hin & _). clear Hr.
  cbn [input_filename Options_new] in Hin.
  assert (Hlast : input_filename o
                  = option_map (from (length ACL_INPUT_FILE_OPTION))
                      (last (map Some (filter is_input_file (tl argv))) None)).
  { rewrite Hin. generalize (filter is_input_file (tl argv)). intros l.
    assert (G : forall d, last (map (fun a => Some (from (length ACL_INPUT_FILE_OPTION) a)) l)
                            (option_map (from (length ACL_INPUT_FILE_OPTION)) d)
                          = option_map (from (length ACL_INPUT_FILE_OPTION))
                              (last (map Some l) d)).
    { induction l as [|x l IH]; intros d; [reflexivity|].
      cbn [map]. rewrite !last_cons_default. apply (IH (Some x)). }
    apply (G None). }
  rewrite Hlast.
  destruct (last (map Some (filter is_input_file (tl argv))) None) as [a|];
    cbn [option_map].
  - destruct (from (length ACL_INPUT_FILE_OPTION) a) as [|c s] eqn:E; cbn [length Nat.eqb fst snd].
    + split; [split; [discriminate|]|discriminate].
      intros [_ (a' & [= <-] & Hne)]. congruence.
    + split; [split; [intros _; split; [reflexivity|]|reflexivity]|].
      * exists a. split; [reflexivity|]. rewrite E. discriminate.
      * intros _. cbn [option_map] in Hlast. now rewrite <- E.
  - cbn [fst]. split; [split; [discriminate|]|discriminate].
    intros [_ (a' & [=] & _)].
Qed.


Lemma parse_arguments_stop before unknown after options :
  forallb recognized before = true -> recognized unknown = false ->
  exists options' effects,
    parse_arguments before options = (true, options', effects)
    /\ parse_arguments (before ++ unknown :: after) options
       = (false, options',
          effects ++ [printf ("Unrecognized option " ++ unknown ++ newline)]).
Proof.
  intros Hbefore Hunknown.
  revert options. induction before as [|a l IH]; intros o.
  - exists o, []. split; [reflexivity|]. cbn [app].
    now rewrite parse_arguments_unrecognized.
  - cbn [forallb] in Hbefore. apply andb_prop in Hbefore as [Ha Hl].
    specialize (IH Hl).
    destruct (recognized_cases a) as [Hi | [[Hi Hs] | (Hi & Hs & Hr)]].
    + destruct (IH (with_input_filename o a)) as (o' & e & H1 & H2).
      exists o', e. cbn [app]. rewrite !parse_arguments_input by assumption.
      split; assumption.
    + destruct (IH (with_stats o a)) as (o' & e & H1 & H2).
      exists o', (stats_opening a ++ e)%list.
      cbn [app]. rewrite !parse_arguments_stats by assumption.
      rewrite H1, H2. split; [reflexivity|]. now rewrite app_assoc.
    + congruence.
Qed.

(** X26.  [parse_options] stops at the first argument it does not know: it returns
    false, the last thing it prints names that argument, the options are
    what the arguments before it made them, and whatever comes after it is
    not looked at. *)
Theorem parse_options_stops_at_unrecognized
    (program : string) (before : list string) (unknown : string) (after : list string)
    (options : Options) :
  forallb recognized before = true -> recognized unknown = false ->
  exists options' effects,
    parse_arguments before options = (true, options', effects)
    /\ parse_options (program :: before ++ unknown :: after) options
       = (false, options',
          effects ++ [printf ("Unrecognized option " ++ unknown ++ newline)]).
Proof.
  intros Hbefore Hunknown.
  destruct (parse_arguments_stop before unknown after options Hbefore Hunknown)
    as (o' & e & H1 & H2).
  exists o', e. split; [assumption|].
  unfold Main.parse_options. cbn [tl]. now rewrite H2.
Qed.

Lemma parse_arguments_keeps_a_stats_file arguments options :
  (output_stats options = true <-> output_stats_file options <> None) ->
  let options' := snd (fst (parse_arguments arguments options)) in
  output_stats options' = true <-> output_stats_file options' <> None.
Proof.
  revert options. induction arguments as [|a l IH]; intros o Hinv; [exact Hinv|].
  cbv zeta.
  destruct (recognized_cases a) as [Hi | [[Hi Hs] | (Hi & Hs & Hr)]].
  - rewrite parse_arguments_input by assumption. apply IH. exact Hinv.
  - rewrite parse_arguments_stats by assumption.
    specialize (IH (with_stats o a)). cbv zeta in IH.
    destruct (parse_arguments l (with_stats o a)) as [[f o'] e].
    apply IH. cbn. split; [discriminate|reflexivity].
  - rewrite parse_arguments_unrecognized by assumption. exact Hinv.
Qed.

Lemma parse_options_options argv options :
  snd (fst (parse_options argv options))
  = snd (fst (parse_arguments (tl argv) options)).
Proof.
  unfold Main.parse_options.
  destruct (parse_arguments (tl argv) options) as [[f o] e].
  destruct f; cbn [negb]; [|reflexivity].
  destruct (input_filename o) as [name|]; [destruct (length name =? 0)%nat|]; reflexivity.
Qed.

(** X27.  Whatever the command line, and whether or not [parse_options] returns
    true, options that started fresh have a file to print the statistics to
    exactly when [output_stats] is set. *)
Theorem parse_options_stats_have_a_file (argv : list string) :
  let options := snd (fst (parse_options argv Options_new)) in
  output_stats options = true <-> output_stats_file options <> None.
Proof.
  cbv zeta. rewrite parse_options_options.
  apply (parse_arguments_keeps_a_stats_file (tl argv) Options_new).
  cbn. split; [discriminate|congruence].
Qed.

(** X28.  A command line [parse_options] accepts sets [output_stats] exactly when
    an argument starts with [-stats]; every such argument that goes on with
    [=] has its file opened for writing, in order, and the file kept is that
    of the last such argument, or [stdout] when it names none or the file
    cannot be opened. *)
Theorem parse_options_opens_every_stats_file (argv : list string) :
  let arguments := tl argv in
  let result := parse_options argv Options_new in
  fst (fst result) = true ->
  output_stats (snd (fst result)) = existsb is_stats arguments
  /\ snd result = flat_map (fun a => if is_stats a then stats_opening a else []) arguments
  /\ output_stats_file (snd (fst result))
     = last (map (fun a => Some (stats_file a)) (filter is_stats arguments)) None.
Proof.
  cbv zeta. unfold Main.parse_options.
  pose proof (parse_arguments_finished (tl argv) Options_new) as Hf.
  pose proof (parse_arguments_result (tl argv) Options_new) as Hr.
  destruct (parse_arguments (tl argv) Options_new) as [[finished o] e].
  cbn [fst] in Hf. subst finished.
  destruct (forallb recognized (tl argv)); cbn [negb]; [|discriminate].
  destruct (Hr eq_refl) as (_ & H2 & H3 & H4).
  cbn [Options_new output_stats output_stats_file orb] in H2, H3.
  destruct (input_filename o) as [name|]; [|discriminate].
  destruct (length name =? 0)%nat; [discriminate|].
  intros _. cbn [fst snd]. auto.
Qed.

End CommandLineFacts.

Section CommandLineRuns.
Import Main.
Import Stdlib.Strings.String.
Local Open Scope string_scope.

Lemma parse_options_stops_at_unrecognized_witness :
  forallb recognized ["-acl=clip.acl"; "-stats"] = true
  /\ recognized "-verbose" = false
  /\ exists options' effects,
       parse_arguments every_file ["-acl=clip.acl"; "-stats"] Options_new
       = (true, options', effects)
       /\ parse_options every_file
            ("acl_compressor" :: ["-acl=clip.acl"; "-stats"] ++ "-verbose" :: ["-acl="])
            Options_new
          = (false, options',
             (effects ++ [printf ("Unrecognized option " ++ "-verbose" ++ newline)])%list).
Proof.
  split; [reflexivity|]. split; [reflexivity|].
  apply (parse_options_stops_at_unrecognized every_file "acl_compressor"
           ["-acl=clip.acl"; "-stats"] "-verbose" ["-acl="] Options_new);
    reflexivity.
Defined.

Lemma parse_options_opens_every_stats_file_witness :
  fst (fst (parse_options every_file command_line Options_new)) = true
  /\ output_stats (snd (fst (parse_options every_file command_line Options_new)))
     = existsb is_stats (tl command_line)
  /\ snd (parse_options every_file command_line Options_new)
     = flat_map (fun a => if is_stats a then stats_opening a else []) (tl command_line)
  /\ output_stats_file (snd (fst (parse_options every_file command_line Options_new)))
     = last (map (fun a => Some (stats_file every_file a))
               (filter is_stats (tl command_line))) None.
Proof.
  split; [reflexivity|].
  apply (parse_options_opens_every_stats_file every_file command_line). reflexivity.
Defined.

End CommandLineRuns.

Section WriterFacts.
Import Main.
Context {Rotation Translation : Type}.

Local Abbreviation Writer := (RawOutputWriterImpl Rotation Translation).

Lemma update_length (l : list (Transform Rotation Translation)) i f :
  List.length (update l i f) = List.length l.
Proof.
  revert i. induction l as [|h l IH]; intros [|i]; cbn; try reflexivity. now rewrite IH.
Qed.

Lemma nth_error_update_same (l : list (Transform Rotation Translation)) i f :
  nth_error (update l i f) i = option_map f (nth_error l i).
Proof.
  revert i. induction l as [|h l IH]; intros [|i]; cbn; try reflexivity. apply IH.
Qed.

Lemma nth_error_update_other (l : list (Transform Rotation Translation)) i j f :
  i <> j -> nth_error (update l i f) j = nth_error l j.
Proof.
  revert i j. induction l as [|h l IH]; intros [|i] [|j] H; cbn; try reflexivity;
    try congruence.
  apply IH. congruence.
Qed.

Lemma update_update (l : list (Transform Rotation Translation)) i j f g :
  (forall t, f (g t) = g (f t)) ->
  update (update l i f) j g = update (update l j g) i f.
Proof.
  intros Hfg. revert i j. induction l as [|h l IH]; intros [|i] [|j]; cbn;
    try reflexivity.
  - now rewrite Hfg.
  - now rewrite IH.
Qed.

(** X29.  The two writes of [RawOutputWriterImpl]: an index that is not below the
    bone count fails the [ACL_ENSURE]; otherwise the write changes that
    bone's rotation, or translation, and nothing else, so that a rotation
    write and a translation write give the same transforms in either
    order. *)
Theorem output_writes_commute
    (writer : Writer) (i j : Z) (r : Rotation) (t : Translation) :
  (write_bone_rotation writer i r = None <-> m_num_bones writer <= i)
  /\ (forall writer',
        write_bone_rotation writer i r = Some writer' ->
        m_num_bones writer' = m_num_bones writer
        /\ List.length (m_transforms writer') = List.length (m_transforms writer)
        /\ (forall old, nth_error (m_transforms writer) (Z.to_nat i) = Some old ->
            nth_error (m_transforms writer') (Z.to_nat i)
            = Some {| rotation := r; translation := translation old |})
        /\ (forall k, k <> Z.to_nat i ->
            nth_error (m_transforms writer') k = nth_error (m_transforms writer) k))
  /\ match write_bone_rotation writer i r with
     | Some writer' => write_bone_translation writer' j t
     | None => None
     end
     = match write_bone_translation writer j t with
       | Some writer' => write_bone_rotation writer' i r
       | None => None
       end.
Proof.
  unfold write_bone_rotation, write_bone_translation.
  split; [|split].
  - destruct (i <? m_num_bones writer) eqn:E.
    + apply Z.ltb_lt in E. split; [discriminate|lia].
    + apply Z.ltb_ge in E. split; [intros _; exact E|reflexivity].
  - intros writer' H.
    destruct (i <? m_num_bones writer); [|discriminate].
    injection H as <-. cbn [m_num_bones m_transforms].
    split; [reflexivity|]. split; [apply update_length|]. split.
    + intros old Hold. now rewrite nth_error_update_same, Hold.
    + intros k Hk. apply nth_error_update_other. congruence.
  - destruct (i <? m_num_bones writer) eqn:Ei, (j <? m_num_bones writer) eqn:Ej;
      cbn [m_num_bones m_transforms]; rewrite ?Ei, ?Ej; try reflexivity.
    f_equal. f_equal. apply update_update. reflexivity.
Qed.

End WriterFacts.

Lemma main_configurations_compress_witness :
  0 < @get_num_bones Demo.collaborators Demo.walk_clip
  /\ 0 < @get_num_samples Demo.collaborators Demo.walk_clip
  /\ 0 <= @sizeof_FullPrecisionHeader Demo.collaborators
  /\ @sizeof_FullPrecisionHeader Demo.collaborators
     + 4 * @bitset_words Demo.collaborators Demo.walk_clip
     + 4 * @bitset_words Demo.collaborators Demo.walk_clip <= UINT32_MAX
  /\ List.length (@Main.uniform_tests Demo.collaborators) = 32%nat
  /\ Forall (fun settings =>
               @accepts Demo.collaborators Demo.walk_clip settings = true
               /\ exists a tr,
                    run (@compress_clip Demo.collaborators Demo.walk_clip tt settings)
                    = (Returned (Some a), tr))
            (@Main.uniform_tests Demo.collaborators).
Proof.
  assert (H1 : 0 < @get_num_bones Demo.collaborators Demo.walk_clip) by reflexivity.
  assert (H2 : 0 < @get_num_samples Demo.collaborators Demo.walk_clip) by reflexivity.
  assert (H3 : 0 <= @sizeof_FullPrecisionHeader Demo.collaborators) by (cbn; lia).
  assert (H4 : @sizeof_FullPrecisionHeader Demo.collaborators
               + 4 * @bitset_words Demo.collaborators Demo.walk_clip
               + 4 * @bitset_words Demo.collaborators Demo.walk_clip <= UINT32_MAX)
    by (vm_compute; discriminate).
  do 4 (split; [assumption|]).
  exact (@main_configurations_compress Demo.collaborators Demo.walk_clip tt H1 H2 H3 H4).
Defined.
